(** * Event-loop visualizer: the step interpreter and the trace compiler

    A shallow embedding of [EventLoopVisualizer.tsx]: the [Step] schema, the
    authored example library, [executeStep] / [reset] / [goToStep] (the
    replay), and [parseCustomCode] / [runCustomCode] (the source-to-steps
    compiler), followed by the properties of the specification that concern
    them.

    Conventions of the embedding.
    - A JavaScript string is a Rocq [string]: a sequence of code units, each
      below 256.  On such text [trim], [split], [includes], [substring] and
      the regular expressions below behave as their JavaScript originals.
      Literal text of the source outside ASCII is only ever copied, never
      inspected, and is kept as its UTF-8 bytes.
    - An optional field of a TypeScript interface is an [option]; [None] is
      [undefined].  [step.item!] is the field itself, so a missing item
      travels into the arrays as [None], as it does at run time.
    - React state is passed explicitly.  A handler reads the state of the
      render it was created in (the closure) and queues updates; the queued
      updates are applied in order to give the next state.
    - Line numbers and step indices are [nat]; a timer delay is the [N] its
      digits denote. *)

From Stdlib Require Import String Ascii List ZArith NArith Lia Bool.
From Stdlib Require Import Sorted Permutation DecimalString DecimalN.
Import ListNotations.
Open Scope list_scope.
Open Scope string_scope.

(** ** JavaScript string primitives *)

Module JS.

Definition dq : ascii := "034"%char.
Definition sq : ascii := "'"%char.
Definition nl : ascii := "010"%char.

(** One-character string. *)
Definition chr (c : ascii) : string := String c EmptyString.

(** [s] between two double quotes, as the template literals of the
    source render a message or a URL. *)
Definition quoted (s : string) : string := chr dq ++ s ++ chr dq.

(** WhiteSpace and LineTerminator code units below 256: TAB, LF, VT, FF,
    CR, SP and NBSP.  This is the set [\s] matches and [trim] strips. *)
Definition isWhiteSpace (c : ascii) : bool :=
  let n := nat_of_ascii c in
  (Nat.leb 9 n && Nat.leb n 13) || Nat.eqb n 32 || Nat.eqb n 160.

Definition isEmpty (s : string) : bool :=
  match s with EmptyString => true | String _ _ => false end.

Fixpoint trimStart (s : string) : string :=
  match s with
  | EmptyString => EmptyString
  | String c s' => if isWhiteSpace c then trimStart s' else s
  end.

Fixpoint trimEnd (s : string) : string :=
  match s with
  | EmptyString => EmptyString
  | String c s' =>
      let r := trimEnd s' in
      if isWhiteSpace c && isEmpty r then EmptyString else String c r
  end.

(** [String.prototype.trim]. *)
Definition trim (s : string) : string := trimEnd (trimStart s).

(** [s.split(sep)] for a one-character separator; never empty. *)
Fixpoint split (sep : ascii) (s : string) : list string :=
  match s with
  | EmptyString => [EmptyString]
  | String c s' =>
      let r := split sep s' in
      if Ascii.eqb c sep then EmptyString :: r
      else match r with
           | h :: t => String c h :: t
           | [] => [chr c]
           end
  end.

(** The lines of a multi-line literal, joined by line feeds. *)
Definition joinLines (lines : list string) : string :=
  String.concat (chr nl) lines.

(** [s.startsWith(sub)]. *)
Definition startsWith (sub s : string) : bool := String.prefix sub s.

(** [s.includes(sub)]. *)
Fixpoint includes (sub s : string) : bool :=
  String.prefix sub s ||
  match s with
  | EmptyString => false
  | String _ s' => includes sub s'
  end.

(** [s.substring(0, n)]. *)
Definition substring0 (n : nat) (s : string) : string :=
  String.substring 0 n s.

(** [s.substring(0, n) + (s.length > n ? '...' : '')]. *)
Definition ellipsis (n : nat) (s : string) : string :=
  substring0 n s ++ (if Nat.ltb n (String.length s) then "..." else EmptyString).

(** Number of occurrences of a character:
    [(value.match(new RegExp(`\\${char}`, 'g')) || []).length]. *)
Fixpoint countChar (value : string) (char : ascii) : Z :=
  match value with
  | EmptyString => 0%Z
  | String c s' =>
      ((if Ascii.eqb c char then 1 else 0) + countChar s' char)%Z
  end.

Definition isDigit (c : ascii) : bool :=
  let n := nat_of_ascii c in Nat.leb 48 n && Nat.leb n 57.

(** [parseInt(s, 10)] on a non-empty string of decimal digits, which is
    what the capture group [(\d+)] hands over.  The value is exact; the
    source holds it in a double, which agrees below 2^53. *)
Definition parseInt (s : string) : N :=
  fold_left (fun acc c => (10 * acc + N.of_nat (nat_of_ascii c - 48))%N)
            (list_ascii_of_string s) 0%N.

(** [`${n}`] for a non-negative integer. *)
Definition numberToString (n : N) : string :=
  NilZero.string_of_uint (N.to_uint n).

(** Truthiness of an optional string: [undefined] and [''] are falsy. *)
Definition truthy (s : option string) : bool :=
  match s with
  | None => false
  | Some v => negb (isEmpty v)
  end.

End JS.

(** ** The regular expressions of the compiler

    Every pattern of the source is a sequence of single characters and
    character classes, with greedy [*] and [+] over a class and at most one
    capture group, itself a class under [+].  [search] is [String.match]
    without the [g] flag: the leftmost match, the quantifiers greedy with
    backtracking; it returns the text of group 1. *)

Module Regex.

Inductive item : Type :=
| One (p : ascii -> bool)     (* one character of the class *)
| Star (p : ascii -> bool)    (* p*  *)
| Plus (p : ascii -> bool)    (* p+  *)
| Cap (p : ascii -> bool).    (* (p+), the capture group *)

Definition pattern := list item.

Definition exactly (c : ascii) : ascii -> bool := Ascii.eqb c.

(** A literal run of characters. *)
Definition lit (s : string) : pattern :=
  map (fun c => One (exactly c)) (list_ascii_of_string s).

(** The classes [\s], [\d] and [.], the class of the two quote
    characters (single and double), written [Q] below, and its
    complement. *)
Definition space : ascii -> bool := JS.isWhiteSpace.
Definition digit : ascii -> bool := JS.isDigit.
Definition dot (c : ascii) : bool :=
  negb (Ascii.eqb c JS.nl || Ascii.eqb c "013"%char).
Definition quote (c : ascii) : bool :=
  Ascii.eqb c JS.sq || Ascii.eqb c JS.dq.
Definition notQuote (c : ascii) : bool := negb (quote c).

(** Greedy repetition of a class: the longest run is tried first, then
    shorter ones.  [k taken rest] continues with the characters taken. *)
Fixpoint rep {A : Type} (p : ascii -> bool)
         (k : string -> string -> option A)
         (taken : string) (s : string) : option A :=
  match s with
  | EmptyString => k taken s
  | String c s' =>
      if p c then
        match rep p k (taken ++ JS.chr c) s' with
        | Some r => Some r
        | None => k taken s
        end
      else k taken s
  end.

(** Match a pattern at the start of [s]; [cap] is group 1 so far. *)
Fixpoint matchHere (r : pattern) (cap : option string) (s : string)
  : option (option string) :=
  match r with
  | [] => Some cap
  | One p :: r' =>
      match s with
      | String c s' => if p c then matchHere r' cap s' else None
      | EmptyString => None
      end
  | Star p :: r' =>
      rep p (fun _ rest => matchHere r' cap rest) EmptyString s
  | Plus p :: r' =>
      rep p (fun taken rest =>
               if JS.isEmpty taken then None else matchHere r' cap rest)
          EmptyString s
  | Cap p :: r' =>
      rep p (fun taken rest =>
               if JS.isEmpty taken then None
               else matchHere r' (Some taken) rest)
          EmptyString s
  end.

(** Leftmost match anywhere in [s]. *)
Fixpoint search (r : pattern) (s : string) : option (option string) :=
  match matchHere r None s with
  | Some c => Some c
  | None =>
      match s with
      | EmptyString => None
      | String _ s' => search r s'
      end
  end.

(** [s.match(r)], reduced to what the source reads of it: [None] for
    [null], otherwise group 1 ([m[1]]). *)
Definition group1 (r : pattern) (s : string) : option string :=
  match search r s with
  | Some (Some g) => Some g
  | _ => None
  end.

(** [/console\.log\(\s*Q([^Q]+)Q\s*\)/] *)
Definition simpleLog : pattern :=
  (lit "console.log(" ++
   [Star space; One quote; Cap notQuote; One quote; Star space] ++
   lit ")")%list.

(** [/console\.log\(\s*Q([^Q]+)Q/] *)
Definition mixedLog : pattern :=
  (lit "console.log(" ++
   [Star space; One quote; Cap notQuote; One quote])%list.

(** [/console\.error\(\s*Q([^Q]+)Q/] *)
Definition errorLog : pattern :=
  (lit "console.error(" ++
   [Star space; One quote; Cap notQuote; One quote])%list.

(** [/fetch\(\s*Q([^Q]+)Q\s*\)/] *)
Definition fetchUrl : pattern :=
  (lit "fetch(" ++
   [Star space; One quote; Cap notQuote; One quote; Star space] ++
   lit ")")%list.

(** [/setTimeout\(.+,\s*(\d+)\)/] *)
Definition timeoutDelay : pattern :=
  (lit "setTimeout(" ++ [Plus dot] ++ lit "," ++
   [Star space; Cap digit] ++ lit ")")%list.

(** [/console\.log\(Q(.+)Q\)/] *)
Definition inlineLog : pattern :=
  (lit "console.log(" ++ [One quote; Cap dot; One quote] ++ lit ")")%list.

End Regex.

(** ** The step schema *)

Module WebAPIItem.
(** [interface WebAPIItem { label: string; callback: string }]; both are
    filled from optional fields of a step. *)
Record t : Type := mk {
  label : option string;
  callback : option string
}.
End WebAPIItem.

(** [interface Step]. *)
Record Step : Type := mkStep {
  action : string;
  item : option string;
  execute : option bool;
  line : option nat;
  message : option string;
  from : option string;
  callback : option string;
  explanation : option string
}.

(** [interface Example]. *)
Record Example : Type := mkExample {
  name : string;
  description : string;
  code : string;
  steps : list Step
}.

(** [step.action === a].  The [switch] of the interpreter has eight cases
    and no default: a step of any other action changes no container. *)
Definition isAction (a : string) (s : Step) : bool := String.eqb (action s) a.

(** ** The model state: the React state of the component that the replay
    reads and writes, with the start-time ref. *)

Record ModelState : Type := mkState {
  isRunning : bool;
  callStack : list (option string);
  taskQueue : list (option string);
  microTaskQueue : list (option string);
  webAPIs : list WebAPIItem.t;
  logs : list (option string);
  currentStep : nat;
  highlightedLine : option nat;
  currentExplanation : string;
  elapsedTime : N;
  eventLoopCycles : nat;
  startTimeRef : option N
}.

Section Setters.
Variable s : ModelState.

Definition setIsRunning (v : bool) : ModelState :=
  mkState v (callStack s) (taskQueue s) (microTaskQueue s) (webAPIs s)
          (logs s) (currentStep s) (highlightedLine s)
          (currentExplanation s) (elapsedTime s) (eventLoopCycles s)
          (startTimeRef s).

Definition setCallStack (f : list (option string) -> list (option string))
  : ModelState :=
  mkState (isRunning s) (f (callStack s)) (taskQueue s) (microTaskQueue s)
          (webAPIs s) (logs s) (currentStep s) (highlightedLine s)
          (currentExplanation s) (elapsedTime s) (eventLoopCycles s)
          (startTimeRef s).

Definition setTaskQueue (f : list (option string) -> list (option string))
  : ModelState :=
  mkState (isRunning s) (callStack s) (f (taskQueue s)) (microTaskQueue s)
          (webAPIs s) (logs s) (currentStep s) (highlightedLine s)
          (currentExplanation s) (elapsedTime s) (eventLoopCycles s)
          (startTimeRef s).

Definition setMicroTaskQueue
           (f : list (option string) -> list (option string))
  : ModelState :=
  mkState (isRunning s) (callStack s) (taskQueue s) (f (microTaskQueue s))
          (webAPIs s) (logs s) (currentStep s) (highlightedLine s)
          (currentExplanation s) (elapsedTime s) (eventLoopCycles s)
          (startTimeRef s).

Definition setWebAPIs (f : list WebAPIItem.t -> list WebAPIItem.t)
  : ModelState :=
  mkState (isRunning s) (callStack s) (taskQueue s) (microTaskQueue s)
          (f (webAPIs s)) (logs s) (currentStep s) (highlightedLine s)
          (currentExplanation s) (elapsedTime s) (eventLoopCycles s)
          (startTimeRef s).

Definition setLogs (f : list (option string) -> list (option string))
  : ModelState :=
  mkState (isRunning s) (callStack s) (taskQueue s) (microTaskQueue s)
          (webAPIs s) (f (logs s)) (currentStep s) (highlightedLine s)
          (currentExplanation s) (elapsedTime s) (eventLoopCycles s)
          (startTimeRef s).

Definition setCurrentStep (f : nat -> nat) : ModelState :=
  mkState (isRunning s) (callStack s) (taskQueue s) (microTaskQueue s)
          (webAPIs s) (logs s) (f (currentStep s)) (highlightedLine s)
          (currentExplanation s) (elapsedTime s) (eventLoopCycles s)
          (startTimeRef s).

Definition setHighlightedLine (v : option nat) : ModelState :=
  mkState (isRunning s) (callStack s) (taskQueue s) (microTaskQueue s)
          (webAPIs s) (logs s) (currentStep s) v
          (currentExplanation s) (elapsedTime s) (eventLoopCycles s)
          (startTimeRef s).

Definition setCurrentExplanation (v : string) : ModelState :=
  mkState (isRunning s) (callStack s) (taskQueue s) (microTaskQueue s)
          (webAPIs s) (logs s) (currentStep s) (highlightedLine s)
          v (elapsedTime s) (eventLoopCycles s) (startTimeRef s).

Definition setElapsedTime (v : N) : ModelState :=
  mkState (isRunning s) (callStack s) (taskQueue s) (microTaskQueue s)
          (webAPIs s) (logs s) (currentStep s) (highlightedLine s)
          (currentExplanation s) v (eventLoopCycles s) (startTimeRef s).

Definition setEventLoopCycles (f : nat -> nat) : ModelState :=
  mkState (isRunning s) (callStack s) (taskQueue s) (microTaskQueue s)
          (webAPIs s) (logs s) (currentStep s) (highlightedLine s)
          (currentExplanation s) (elapsedTime s) (f (eventLoopCycles s))
          (startTimeRef s).

Definition setStartTimeRef (v : option N) : ModelState :=
  mkState (isRunning s) (callStack s) (taskQueue s) (microTaskQueue s)
          (webAPIs s) (logs s) (currentStep s) (highlightedLine s)
          (currentExplanation s) (elapsedTime s) (eventLoopCycles s) v.
End Setters.

(** [prev => [...prev, x]], [prev => prev.slice(1)] and
    [prev => prev.slice(0, -1)]. *)
Definition push {A : Type} (x : A) (prev : list A) : list A := (prev ++ [x])%list.
Definition slice1 {A : Type} (prev : list A) : list A := tl prev.
Definition sliceInit {A : Type} (prev : list A) : list A := removelast prev.

Definition initialExplanation : string :=
  "Click " ++ JS.quoted "Start" ++ " or " ++ JS.quoted "Next" ++
  " to begin stepping through the code execution.".

(** The state of the first render ([useState] initial values). *)
Definition initialState : ModelState :=
  mkState false [] [] [] [] [] 0 None initialExplanation 0%N 0 None.

(** ** The interpreter *)

(** [executeStep].  [rendered] is the state of the render whose closure runs
    the handler: the two guards read [microTaskQueue.length] and
    [taskQueue.length] there, not in the queued state.  [pending] is the
    state the updates queued so far lead to; every update of the source is a
    functional update and is applied to it. *)
Definition executeStep (rendered : ModelState) (step : Step)
           (pending : ModelState) : ModelState :=
  let s1 :=
    match line step with
    | Some l => setHighlightedLine pending (Some l)
    | None => pending
    end in
  let s2 :=
    match explanation step with
    | Some e => if JS.isEmpty e then s1 else setCurrentExplanation s1 e
    | None => s1
    end in
  if isAction "addToStack" step then
    setCallStack s2 (push (item step))
  else if isAction "removeFromStack" step then
    setCallStack s2 sliceInit
  else if isAction "addToWebAPI" step then
    setWebAPIs s2 (push (WebAPIItem.mk (item step) (callback step)))
  else if isAction "moveToTaskQueue" step then
    setTaskQueue (setWebAPIs s2 slice1) (push (callback step))
  else if isAction "addToMicroTask" step then
    setMicroTaskQueue s2 (push (item step))
  else if isAction "processMicroTasks" step then
    if Nat.ltb 0 (length (microTaskQueue rendered))
    then setMicroTaskQueue s2 slice1
    else s2
  else if isAction "checkEventLoop" step then
    setEventLoopCycles
      (if Nat.ltb 0 (length (taskQueue rendered))
       then setTaskQueue s2 slice1
       else s2)
      S
  else if isAction "log" step then
    setLogs s2 (push (message step))
  else s2.

(** [reset]: every piece of state back to its initial value. *)
Definition reset (pending : ModelState) : ModelState :=
  setStartTimeRef
    (setEventLoopCycles
      (setElapsedTime
        (setCurrentExplanation
          (setHighlightedLine
            (setCurrentStep
              (setLogs
                (setWebAPIs
                  (setMicroTaskQueue
                    (setTaskQueue
                      (setCallStack
                        (setIsRunning pending false)
                        (fun _ => []))
                      (fun _ => []))
                    (fun _ => []))
                  (fun _ => []))
                (fun _ => []))
              (fun _ => 0))
            None)
          initialExplanation)
        0%N)
      (fun _ => 0))
    None.

(** How a handler ends: normally, or with the [TypeError] that reading
    [step.line] of an [undefined] step raises.  Either way the updates queued
    until then lead to the state carried. *)
Inductive completion : Type :=
| Normal (s : ModelState)
| TypeError (s : ModelState).

(** [for (let i = from; i < from + count; i++) executeStep(steps[i])]. *)
Fixpoint replayLoop (rendered : ModelState) (all : list Step)
         (i count : nat) (pending : ModelState) : completion :=
  match count with
  | 0 => Normal pending
  | S count' =>
      match nth_error all i with
      | None => TypeError pending
      | Some step =>
          replayLoop rendered all (S i) count'
                     (executeStep rendered step pending)
      end
  end.

(** [goToStep(stepNumber)] over the steps of the selected example. *)
Definition goToStep (rendered : ModelState) (all : list Step)
           (stepNumber : nat) : completion :=
  match replayLoop rendered all 0 stepNumber
                   (reset (setIsRunning rendered false)) with
  | Normal s => Normal (setCurrentStep s (fun _ => stepNumber))
  | TypeError s => TypeError s
  end.

(** [prevStep]: replay up to the step before the current one. *)
Definition prevStep (rendered : ModelState) (all : list Step) : completion :=
  if Nat.ltb 0 (currentStep rendered) then
    match replayLoop rendered all 0 (currentStep rendered - 1)
                     (reset (setIsRunning rendered false)) with
    | Normal s => Normal (setCurrentStep s (fun _ => currentStep rendered - 1))
    | TypeError s => TypeError s
    end
  else Normal rendered.

(** [nextStep] at time [now] ([Date.now()]): one step, executed in the
    closure of the current render. *)
Definition nextStep (now : N) (rendered : ModelState) (all : list Step)
  : completion :=
  if Nat.ltb (currentStep rendered) (length all) then
    let start :=
      match startTimeRef rendered with
      | None => now
      | Some t => t
      end in
    let s1 := setStartTimeRef (setIsRunning rendered false) (Some start) in
    let s2 := setElapsedTime s1 (now - start)%N in
    match nth_error all (currentStep rendered) with
    | None => TypeError s2
    | Some step =>
        Normal (setCurrentStep (executeStep rendered step s2) S)
    end
  else Normal rendered.

(** The state a completed handler leaves. *)
Definition stateOf (c : completion) : ModelState :=
  match c with
  | Normal s => s
  | TypeError s => s
  end.

(** ** The trace compiler *)

(** The shapes of the object literals the compiler pushes. *)
Definition stackStep (i : string) (e : bool) (l : nat) (x : string) : Step :=
  mkStep "addToStack" (Some i) (Some e) (Some l) None None None (Some x).
Definition logStep (m : string) (x : string) : Step :=
  mkStep "log" None None None (Some m) None None (Some x).
Definition popStep (x : string) : Step :=
  mkStep "removeFromStack" None None None None None None (Some x).
Definition webAPIStep (i cb : string) (x : string) : Step :=
  mkStep "addToWebAPI" (Some i) None None None None (Some cb) (Some x).
Definition moveStep (cb : string) (l : option nat) (x : string) : Step :=
  mkStep "moveToTaskQueue" None None l None (Some "webAPI") (Some cb) (Some x).
Definition microStep (i : string) (x : string) : Step :=
  mkStep "addToMicroTask" (Some i) None None None None None (Some x).
Definition processStep (x : string) : Step :=
  mkStep "processMicroTasks" None None None None None None (Some x).
Definition checkStep (x : string) : Step :=
  mkStep "checkEventLoop" None None None None None None (Some x).

(** [extractLogMessage]. *)
Definition extractLogMessage (l : string) : string :=
  match Regex.group1 Regex.simpleLog l with
  | Some m => m
  | None =>
      match Regex.group1 Regex.mixedLog l with
      | Some m => m ++ " [data]"
      | None =>
          match Regex.group1 Regex.errorLog l with
          | Some m => "Error: " ++ m
          | None => "output"
          end
      end
  end.

(** [trimmedLine.includes('console.log') ||
     trimmedLine.includes('console.error')]. *)
Definition hasLogCall (trimmedLine : string) : bool :=
  JS.includes "console.log" trimmedLine ||
  JS.includes "console.error" trimmedLine.

(** *** Fetch mode *)

(** The entries of [syncLogs]: [{ line, message }]. *)
Module SyncLog.
Record t : Type := mk { line : nat; message : string }.
End SyncLog.

(** The [lines.forEach] that fills [syncLogs], from index [index] on. *)
Fixpoint collectSyncLogs (lines : list string) (index : nat)
  : list SyncLog.t :=
  match lines with
  | [] => []
  | l :: rest =>
      let trimmed := JS.trim l in
      let more := collectSyncLogs rest (S index) in
      if JS.startsWith "console.log" trimmed
         && negb (JS.includes ".then" trimmed)
         && negb (JS.includes "=>" trimmed)
      then SyncLog.mk (index + 1) (extractLogMessage trimmed) :: more
      else more
  end.

Definition syncLogSteps (l : SyncLog.t) : list Step :=
  [ stackStep ("console.log(" ++ JS.quoted (SyncLog.message l) ++ ")") true
              (SyncLog.line l)
              "Synchronous code executes immediately while fetch is pending";
    logStep (SyncLog.message l) ("Output: " ++ SyncLog.message l);
    popStep "console.log complete" ].

(** The steps of the [hasFetch] branch.  The [thenCallbacks] array the source
    also fills there is never read and has no counterpart here. *)
Definition fetchSteps (fullCode : string) (lines : list string) : list Step :=
  let url :=
    match Regex.group1 Regex.fetchUrl fullCode with
    | Some u => u
    | None => "API endpoint"
    end in
  let syncLogs := collectSyncLogs lines 0 in
  ([ stackStep ("fetch(" ++ JS.quoted (JS.ellipsis 30 url) ++ ")") false 1
               ("Initiating fetch request to " ++ JS.ellipsis 50 url);
     webAPIStep "fetch() â†’ Pending..." ".then() callbacks"
       "Fetch request is handled by Web APIs (browser makes HTTP request)";
     popStep
       "fetch() returns immediately with a Promise, continues to next line" ]
   ++ flat_map syncLogSteps syncLogs
   ++ [ moveStep "response => response.json()" None
          "Fetch completed! First .then() callback added to Microtask Queue";
        microStep "response.json()"
          "response.json() returns another Promise (also async!)";
        checkStep "Call Stack empty â†’ Event Loop processes Microtask Queue";
        processStep "Processing microtasks (Promises have high priority!)";
        stackStep "response.json()" true 2 "Parsing JSON response";
        popStep "JSON parsing complete, queues next .then()";
        microStep "data => console.log(...)"
          "Next .then() callback added to Microtask Queue";
        processStep "Processing next microtask";
        stackStep ("console.log(" ++ JS.quoted "Data received:" ++ ", data)")
          true 3 "Executing callback with the fetched data";
        logStep ("Data received: { userId: 1, id: 1, title: "
                 ++ JS.quoted "..." ++ ", completed: false }")
          "Data from API is now available!";
        popStep "All callbacks complete!" ])%list.

(** *** Line-scan mode *)

Module Task.
(** An entry of [pendingTasks]. *)
Record t : Type := mk {
  line : nat;
  delay : N;
  callback : string;
  messages : list string
}.
End Task.

Module Microtask.
(** An entry of [pendingMicrotasks]. *)
Record t : Type := mk {
  line : nat;
  callback : string;
  messages : list string
}.
End Microtask.

Module ActiveCallback.
Inductive kind_t : Type := task | microtask.

(** [activeCallback], when not [null]. *)
Record t : Type := mk {
  kind : kind_t;
  line : nat;
  delay : N;
  messages : list string;
  callback : string
}.
End ActiveCallback.

Module Scan.
(** What the line loop reads and writes. *)
Record t : Type := mk {
  steps : list Step;
  pendingTasks : list Task.t;
  pendingMicrotasks : list Microtask.t;
  activeCallback : option ActiveCallback.t;
  callbackDepth : Z
}.

Definition start : t := mk [] [] [] None 0%Z.
End Scan.

(** A registration goes to the bucket of its kind. *)
Definition pushPending (st : Scan.t) (ac : ActiveCallback.t) : Scan.t :=
  match ActiveCallback.kind ac with
  | ActiveCallback.task =>
      Scan.mk (Scan.steps st)
              (push (Task.mk (ActiveCallback.line ac) (ActiveCallback.delay ac)
                             (ActiveCallback.callback ac)
                             (ActiveCallback.messages ac))
                    (Scan.pendingTasks st))
              (Scan.pendingMicrotasks st)
              (Scan.activeCallback st) (Scan.callbackDepth st)
  | ActiveCallback.microtask =>
      Scan.mk (Scan.steps st) (Scan.pendingTasks st)
              (push (Microtask.mk (ActiveCallback.line ac)
                                  (ActiveCallback.callback ac)
                                  (ActiveCallback.messages ac))
                    (Scan.pendingMicrotasks st))
              (Scan.activeCallback st) (Scan.callbackDepth st)
  end.

(** The callback under collection is finished: it is recorded, and
    [activeCallback = null; callbackDepth = 0]. *)
Definition closeCallback (st : Scan.t) (ac : ActiveCallback.t) : Scan.t :=
  let st' := pushPending st ac in
  Scan.mk (Scan.steps st') (Scan.pendingTasks st')
          (Scan.pendingMicrotasks st') None 0%Z.

(** A line read while a callback body is being collected. *)
Definition scanBodyLine (st : Scan.t) (ac : ActiveCallback.t)
           (trimmedLine : string) : Scan.t :=
  let ac' :=
    if hasLogCall trimmedLine
    then ActiveCallback.mk (ActiveCallback.kind ac) (ActiveCallback.line ac)
           (ActiveCallback.delay ac)
           (push (extractLogMessage trimmedLine) (ActiveCallback.messages ac))
           (ActiveCallback.callback ac)
    else ac in
  let depth :=
    (Scan.callbackDepth st + JS.countChar trimmedLine "{"
     - JS.countChar trimmedLine "}")%Z in
  if (depth <=? 0)%Z
  then closeCallback st ac'
  else Scan.mk (Scan.steps st) (Scan.pendingTasks st)
               (Scan.pendingMicrotasks st) (Some ac') depth.

(** The three steps of a top-level logging line. *)
Definition logLineSteps (trimmedLine : string) (lineNum : nat) : list Step :=
  let message := extractLogMessage trimmedLine in
  [ stackStep (JS.ellipsis 50 trimmedLine) true lineNum
              ("Executing: " ++ trimmedLine);
    logStep message ("Output: " ++ message);
    popStep "Removed from call stack" ].

(** The three steps of a [setTimeout] line. *)
Definition timeoutLineSteps (delay : N) (callback : string) (lineNum : nat)
  : list Step :=
  [ stackStep ("setTimeout(cb, " ++ JS.numberToString delay ++ ")") false
              lineNum
              ("Registering setTimeout with " ++ JS.numberToString delay
               ++ "ms delay");
    webAPIStep ("Timer: " ++ JS.numberToString delay ++ "ms") callback
               "Timer started in Web APIs";
    popStep "setTimeout registration complete" ].

(** The three steps of a [Promise.resolve().then] line. *)
Definition promiseLineSteps (callback : string) (lineNum : nat) : list Step :=
  [ stackStep "Promise.resolve()" false lineNum "Creating resolved Promise";
    microStep callback
              "Promise callback added to Microtask Queue (high priority!)";
    popStep "Promise setup complete" ].

(** The registration steps of a line are pushed; then, when the line has a
    brace ([hasBlock]), a callback body is opened, and closed at once when
    the braces of the line balance; otherwise the registration is recorded
    directly. *)
Definition register (k : ActiveCallback.kind_t) (st : Scan.t)
           (newSteps : list Step) (trimmedLine : string) (lineNum : nat)
           (delay : N) (callback : string) (callbackMatch : option string)
  : Scan.t :=
  let st1 := Scan.mk (Scan.steps st ++ newSteps)%list (Scan.pendingTasks st)
                     (Scan.pendingMicrotasks st) (Scan.activeCallback st)
                     (Scan.callbackDepth st) in
  let messages :=
    match callbackMatch with
    | Some m => [m]
    | None => []
    end in
  let ac := ActiveCallback.mk k lineNum delay messages callback in
  if JS.includes "{" trimmedLine then
    let depth :=
      (JS.countChar trimmedLine "{" - JS.countChar trimmedLine "}")%Z in
    if (depth <=? 0)%Z
    then closeCallback st1 ac
    else Scan.mk (Scan.steps st1) (Scan.pendingTasks st1)
                 (Scan.pendingMicrotasks st1) (Some ac) depth
  else pushPending st1 ac.

(** A top-level line: the body of the [lines.forEach] callback below its
    [activeCallback] branch. *)
Definition scanTopLine (st : Scan.t) (trimmedLine : string) (lineNum : nat)
  : Scan.t :=
  if JS.isEmpty trimmedLine || JS.startsWith "//" trimmedLine then st
  else if hasLogCall trimmedLine then
    Scan.mk (Scan.steps st ++ logLineSteps trimmedLine lineNum)%list
            (Scan.pendingTasks st) (Scan.pendingMicrotasks st)
            (Scan.activeCallback st) (Scan.callbackDepth st)
  else if JS.includes "setTimeout" trimmedLine then
    let delay :=
      match Regex.group1 Regex.timeoutDelay trimmedLine with
      | Some d => JS.parseInt d
      | None => 0%N
      end in
    let callbackMatch := Regex.group1 Regex.inlineLog trimmedLine in
    let callback :=
      match callbackMatch with
      | Some m => "console.log(" ++ JS.quoted m ++ ")"
      | None => "setTimeout callback"
      end in
    register ActiveCallback.task st
             (timeoutLineSteps delay callback lineNum)
             trimmedLine lineNum delay callback callbackMatch
  else if JS.includes "Promise.resolve()" trimmedLine
          && JS.includes ".then" trimmedLine then
    let callbackMatch := Regex.group1 Regex.inlineLog trimmedLine in
    let callback :=
      match callbackMatch with
      | Some m => "console.log(" ++ JS.quoted m ++ ")"
      | None => "promise callback"
      end in
    register ActiveCallback.microtask st
             (promiseLineSteps callback lineNum)
             trimmedLine lineNum 0%N callback callbackMatch
  else st.

(** One turn of [lines.forEach((line, index) => ...)]. *)
Definition scanLine (st : Scan.t) (index : nat) (l : string) : Scan.t :=
  let trimmedLine := JS.trim l in
  let lineNum := index + 1 in
  match Scan.activeCallback st with
  | Some ac => scanBodyLine st ac trimmedLine
  | None => scanTopLine st trimmedLine lineNum
  end.

Fixpoint scanLines (lines : list string) (index : nat) (st : Scan.t)
  : Scan.t :=
  match lines with
  | [] => st
  | l :: rest => scanLines rest (S index) (scanLine st index l)
  end.

(** The steps that run one collected callback: a bare push and pop when it
    logged nothing, a push, log and pop for each message otherwise.  [what]
    is the word of the explanation, [done] the closing explanation. *)
Definition callbackSteps (what done : string) (callback : string)
           (lineNum : nat) (messages : list string) : list Step :=
  match messages with
  | [] =>
      [ stackStep callback true lineNum (what ++ callback);
        popStep done ]
  | _ =>
      flat_map
        (fun message =>
           [ stackStep ("console.log(" ++ JS.quoted message ++ ")") true
                       lineNum
                       (what ++ "console.log(" ++ JS.quoted message ++ ")");
             logStep message ("Output: " ++ message);
             popStep done ])
        messages
  end.

Definition microtaskSteps (t : Microtask.t) : list Step :=
  callbackSteps "Executing microtask: " "Microtask complete"
                (Microtask.callback t) (Microtask.line t)
                (Microtask.messages t).

(** [if (pendingMicrotasks.length > 0) { ... }]. *)
Definition microtaskPhase (pendingMicrotasks : list Microtask.t)
  : list Step :=
  match pendingMicrotasks with
  | [] => []
  | _ =>
      [ checkStep
          "Call Stack empty â†’ Event Loop processes Microtask Queue first";
        processStep "Processing microtasks (Promises have higher priority)" ]
      ++ flat_map microtaskSteps pendingMicrotasks
  end%list.

(** The comparator [(a, b) => a.delay - b.delay || a.line - b.line]. *)
Definition compareTasks (a b : Task.t) : Z :=
  let d := (Z.of_N (Task.delay a) - Z.of_N (Task.delay b))%Z in
  if (d =? 0)%Z
  then (Z.of_nat (Task.line a) - Z.of_nat (Task.line b))%Z
  else d.

(** [[...pendingTasks].sort(compareTasks)].  [Array.prototype.sort] is
    stable, and the comparator is a consistent one, so the result is the
    stable sort of the array, written here as an insertion sort. *)
Fixpoint insertTask (x : Task.t) (sorted : list Task.t) : list Task.t :=
  match sorted with
  | [] => [x]
  | h :: t =>
      if (compareTasks x h <=? 0)%Z then x :: sorted
      else h :: insertTask x t
  end.

Definition sortTasks (tasks : list Task.t) : list Task.t :=
  fold_right insertTask [] tasks.

Definition promoteStep (t : Task.t) : Step :=
  moveStep (Task.callback t) (Some (Task.line t))
           "Timer completed, callback moved to Task Queue".

Definition taskSteps (t : Task.t) : list Step :=
  ([ promoteStep t;
     checkStep "Event Loop picks next task from Task Queue" ]
   ++ callbackSteps "Executing callback: " "Callback complete"
                    (Task.callback t) (Task.line t) (Task.messages t))%list.

(** [if (pendingTasks.length > 0) { ... }]. *)
Definition taskPhase (pendingTasks : list Task.t) : list Step :=
  flat_map taskSteps (sortTasks pendingTasks).

(** The steps of the [else] branch (no [fetch(] in the text). *)
Definition lineScanSteps (lines : list string) : list Step :=
  let st := scanLines lines 0 Scan.start in
  (Scan.steps st ++ microtaskPhase (Scan.pendingMicrotasks st)
   ++ taskPhase (Scan.pendingTasks st))%list.

(** The steps [parseCustomCode] builds for [code]. *)
Definition compileSteps (code : string) : list Step :=
  let lines := JS.split JS.nl (JS.trim code) in
  let fullCode := JS.trim code in
  if JS.includes "fetch(" fullCode
  then fetchSteps fullCode lines
  else lineScanSteps lines.

Definition noValidJavaScript : string :=
  "No valid JavaScript detected. Try adding console.log(), setTimeout(), fetch(), or Promise.resolve().then()".

(** [parseCustomCode]: the example or [null], and the [codeError] it
    leaves ([setCodeError('')] first, the message on failure). *)
Definition parseCustomCode (code : string) : option Example * string :=
  let steps := compileSteps code in
  match steps with
  | [] => (None, noValidJavaScript)
  | _ => (Some (mkExample "Custom Code" "Your custom example" code steps),
          EmptyString)
  end.

(** ** The application state around the compiler *)

Inductive ExampleKey : Type :=
| basic | promise | advanced | fetch | asyncAwait | multiplePromises
| eventListener | apiError | debounce | promiseRace | requestAnimationFrame
| custom.

Inductive Mode : Type := preset | customMode.

Record AppState : Type := mkApp {
  model : ModelState;
  selectedExample : ExampleKey;
  mode : Mode;
  customCode : string;
  codeError : string;
  customExample : Example
}.

(** The [useState] initial value of [customExample]. *)
Definition emptyCustomExample : Example :=
  mkExample "Custom Code" "Your custom example" EmptyString [].

Definition initialApp : AppState :=
  mkApp initialState basic preset EmptyString EmptyString emptyCustomExample.

(** [runCustomCode]. *)
Definition runCustomCode (app : AppState) : AppState :=
  if JS.isEmpty (JS.trim (customCode app)) then
    mkApp (model app) (selectedExample app) (mode app) (customCode app)
          "Please enter some code first!" (customExample app)
  else
    match parseCustomCode (customCode app) with
    | (Some parsed, err) =>
        mkApp (reset (model app)) custom preset (customCode app) err parsed
    | (None, err) =>
        mkApp (model app) (selectedExample app) (mode app) (customCode app)
              err (customExample app)
    end.

(** ** The example library

    The constant [examples] of the component: for each key the snippet shown
    and its authored steps, field by field. *)

Module Examples.

Definition basic_code : string :=
  JS.joinLines
    [ ("console.log(" ++ JS.quoted "Start" ++ ");");
      EmptyString;
      "setTimeout(() => {";
      ("  console.log(" ++ JS.quoted "Timeout" ++ ");");
      "}, 0);";
      EmptyString;
      ("console.log(" ++ JS.quoted "End" ++ ");") ].

Definition basic_steps : list Step :=
  [ mkStep "addToStack" (Some ("console.log(" ++ JS.quoted "Start" ++ ")")) (Some true) (Some 1) None None None
    (Some ("Synchronous code executes immediately. console.log(" ++ JS.quoted "Start" ++ ") is pushed to the call stack."));
    mkStep "log" None None None (Some "Start") None None
    (Some ("The function executes and prints " ++ JS.quoted "Start" ++ " to the console."));
    mkStep "removeFromStack" None None None None None None
    (Some "console.log completes and is removed from the call stack.");
    mkStep "addToStack" (Some "setTimeout(cb, 0)") (Some false) (Some 3) None None None
    (Some "setTimeout is called and pushed to the call stack. Even with 0ms delay, the callback is not executed immediately.");
    mkStep "addToWebAPI" (Some "Timer: 0ms") None None None None (Some ("console.log(" ++ JS.quoted "Timeout" ++ ")"))
    (Some "The browser's Web API takes over the timer. The callback is registered to execute after 0ms.");
    mkStep "removeFromStack" None None None None None None
    (Some "setTimeout completes its job (registering the timer) and is removed from the stack.");
    mkStep "addToStack" (Some ("console.log(" ++ JS.quoted "End" ++ ")")) (Some true) (Some 7) None None None
    (Some ("The next synchronous line executes. console.log(" ++ JS.quoted "End" ++ ") is pushed to the call stack."));
    mkStep "log" None None None (Some "End") None None
    (Some ("Prints " ++ JS.quoted "End" ++ " to the console. Notice how this runs before " ++ JS.quoted "Timeout" ++ "!"));
    mkStep "removeFromStack" None None None None None None
    (Some ("console.log(" ++ JS.quoted "End" ++ ") completes and the call stack is now empty."));
    mkStep "moveToTaskQueue" None None (Some 4) None (Some "webAPI") (Some ("console.log(" ++ JS.quoted "Timeout" ++ ")"))
    (Some "The timer completes and the callback moves from Web APIs to the Task Queue, waiting for execution.");
    mkStep "checkEventLoop" None None None None None None
    (Some "Event Loop checks: Is the call stack empty? Yes! It takes the first task from the Task Queue.");
    mkStep "addToStack" (Some ("console.log(" ++ JS.quoted "Timeout" ++ ")")) (Some true) (Some 4) None None None
    (Some "The setTimeout callback is now pushed to the call stack and executes.");
    mkStep "log" None None None (Some "Timeout") None None
    (Some ("Finally prints " ++ JS.quoted "Timeout" ++ " to the console."));
    mkStep "removeFromStack" None None None None None None
    (Some "Callback completes. All done! Output order: Start â†’ End â†’ Timeout") ].

Definition basic : Example :=
  mkExample "Basic Example" "Simple setTimeout and console.log" basic_code basic_steps.

Definition promise_code : string :=
  JS.joinLines
    [ ("console.log(" ++ JS.quoted "Start" ++ ");");
      EmptyString;
      "setTimeout(() => {";
      ("  console.log(" ++ JS.quoted "Timeout" ++ ");");
      "}, 0);";
      EmptyString;
      "Promise.resolve().then(() => {";
      ("  console.log(" ++ JS.quoted "Promise" ++ ");");
      "});";
      EmptyString;
      ("console.log(" ++ JS.quoted "End" ++ ");") ].

Definition promise_steps : list Step :=
  [ mkStep "addToStack" (Some ("console.log(" ++ JS.quoted "Start" ++ ")")) (Some true) (Some 1) None None None
    (Some "First synchronous statement executes immediately.");
    mkStep "log" None None None (Some "Start") None None
    (Some ("Prints " ++ JS.quoted "Start" ++ " to console."));
    mkStep "removeFromStack" None None None None None None
    (Some "Removed from call stack after execution.");
    mkStep "addToStack" (Some "setTimeout(cb, 0)") (Some false) (Some 3) None None None
    (Some "setTimeout registers a callback to execute after 0ms.");
    mkStep "addToWebAPI" (Some "Timer: 0ms") None None None None (Some ("console.log(" ++ JS.quoted "Timeout" ++ ")"))
    (Some "Browser's Web API handles the timer. Callback will go to Task Queue after completion.");
    mkStep "removeFromStack" None None None None None None
    (Some "setTimeout registration completes.");
    mkStep "addToStack" (Some "Promise.resolve()") (Some false) (Some 7) None None None
    (Some "Promise.resolve() creates an immediately resolved promise.");
    mkStep "addToMicroTask" (Some ("console.log(" ++ JS.quoted "Promise" ++ ")")) None None None None None
    (Some "Promise callbacks go to the Microtask Queue, which has HIGHER priority than the Task Queue!");
    mkStep "removeFromStack" None None None None None None
    (Some "Promise registration completes.");
    mkStep "addToStack" (Some ("console.log(" ++ JS.quoted "End" ++ ")")) (Some true) (Some 11) None None None
    (Some "Next synchronous statement executes.");
    mkStep "log" None None None (Some "End") None None
    (Some ("Prints " ++ JS.quoted "End" ++ " to console."));
    mkStep "removeFromStack" None None None None None None
    (Some "Call stack is now empty. Time for the Event Loop to work!");
    mkStep "processMicroTasks" None None (Some 8) None None None
    (Some "Event Loop processes ALL microtasks FIRST before checking the Task Queue. This is why Promises execute before setTimeout!");
    mkStep "addToStack" (Some ("console.log(" ++ JS.quoted "Promise" ++ ")")) (Some true) (Some 8) None None None
    (Some "Promise callback executes from Microtask Queue.");
    mkStep "log" None None None (Some "Promise") None None
    (Some ("Prints " ++ JS.quoted "Promise" ++ " to console."));
    mkStep "removeFromStack" None None None None None None
    (Some "Promise callback completes.");
    mkStep "moveToTaskQueue" None None (Some 4) None (Some "webAPI") (Some ("console.log(" ++ JS.quoted "Timeout" ++ ")"))
    (Some "Timer completes and callback moves to Task Queue.");
    mkStep "checkEventLoop" None None None None None None
    (Some "All microtasks are done. Now Event Loop takes one task from Task Queue.");
    mkStep "addToStack" (Some ("console.log(" ++ JS.quoted "Timeout" ++ ")")) (Some true) (Some 4) None None None
    (Some "setTimeout callback finally executes.");
    mkStep "log" None None None (Some "Timeout") None None
    (Some ("Prints " ++ JS.quoted "Timeout" ++ " to console. Order: Start â†’ End â†’ Promise â†’ Timeout"));
    mkStep "removeFromStack" None None None None None None
    (Some "All done! Key takeaway: Microtasks always execute before Tasks.") ].

Definition promise : Example :=
  mkExample "Promises & Microtasks" "Shows microtask priority" promise_code promise_steps.

Definition advanced_code : string :=
  JS.joinLines
    [ ("console.log(" ++ JS.quoted "1" ++ ");");
      EmptyString;
      "setTimeout(() => {";
      ("  console.log(" ++ JS.quoted "2" ++ ");");
      "}, 100);";
      EmptyString;
      "setTimeout(() => {";
      ("  console.log(" ++ JS.quoted "3" ++ ");");
      "}, 0);";
      EmptyString;
      "Promise.resolve().then(() => {";
      ("  console.log(" ++ JS.quoted "4" ++ ");");
      "});";
      EmptyString;
      ("console.log(" ++ JS.quoted "5" ++ ");") ].

Definition advanced_steps : list Step :=
  [ mkStep "addToStack" (Some ("console.log(" ++ JS.quoted "1" ++ ")")) (Some true) (Some 1) None None None
    (Some "First synchronous operation executes immediately.");
    mkStep "log" None None None (Some "1") None None
    (Some "Output: 1");
    mkStep "removeFromStack" None None None None None None
    (Some "Removed from stack.");
    mkStep "addToStack" (Some "setTimeout(cb, 100)") (Some false) (Some 3) None None None
    (Some "Registers a timer with 100ms delay.");
    mkStep "addToWebAPI" (Some "Timer: 100ms") None None None None (Some ("console.log(" ++ JS.quoted "2" ++ ")"))
    (Some "This callback will wait 100ms before being ready.");
    mkStep "removeFromStack" None None None None None None
    (Some "setTimeout completes registration.");
    mkStep "addToStack" (Some "setTimeout(cb, 0)") (Some false) (Some 7) None None None
    (Some "Registers another timer with 0ms delay.");
    mkStep "addToWebAPI" (Some "Timer: 0ms") None None None None (Some ("console.log(" ++ JS.quoted "3" ++ ")"))
    (Some "This timer completes almost immediately but still goes through Web APIs.");
    mkStep "removeFromStack" None None None None None None
    (Some "Second setTimeout completes.");
    mkStep "addToStack" (Some "Promise.resolve()") (Some false) (Some 11) None None None
    (Some "Creates an immediately resolved promise.");
    mkStep "addToMicroTask" (Some ("console.log(" ++ JS.quoted "4" ++ ")")) None None None None None
    (Some "Promise callback goes to Microtask Queue (higher priority!)");
    mkStep "removeFromStack" None None None None None None
    (Some "Promise setup completes.");
    mkStep "addToStack" (Some ("console.log(" ++ JS.quoted "5" ++ ")")) (Some true) (Some 15) None None None
    (Some "Last synchronous operation.");
    mkStep "log" None None None (Some "5") None None
    (Some "Output: 5. All sync code is done!");
    mkStep "removeFromStack" None None None None None None
    (Some "Call stack is empty. Event Loop activates!");
    mkStep "processMicroTasks" None None (Some 12) None None None
    (Some "Event Loop MUST process ALL microtasks before any task from Task Queue.");
    mkStep "addToStack" (Some ("console.log(" ++ JS.quoted "4" ++ ")")) (Some true) (Some 12) None None None
    (Some "Promise callback executes from Microtask Queue.");
    mkStep "log" None None None (Some "4") None None
    (Some "Output: 4");
    mkStep "removeFromStack" None None None None None None
    (Some "Microtask complete. Now checking Task Queue...");
    mkStep "moveToTaskQueue" None None (Some 8) None (Some "webAPI") (Some ("console.log(" ++ JS.quoted "3" ++ ")"))
    (Some "The 0ms timer completed and moved to Task Queue.");
    mkStep "checkEventLoop" None None None None None None
    (Some "Event Loop takes the first task from Task Queue.");
    mkStep "addToStack" (Some ("console.log(" ++ JS.quoted "3" ++ ")")) (Some true) (Some 8) None None None
    (Some "First setTimeout callback (0ms delay) executes.");
    mkStep "log" None None None (Some "3") None None
    (Some "Output: 3");
    mkStep "removeFromStack" None None None None None None
    (Some "Task complete. Event Loop continues...");
    mkStep "moveToTaskQueue" None None (Some 4) None (Some "webAPI") (Some ("console.log(" ++ JS.quoted "2" ++ ")"))
    (Some "The 100ms timer completed and moved to Task Queue.");
    mkStep "checkEventLoop" None None None None None None
    (Some "Event Loop takes the next task.");
    mkStep "addToStack" (Some ("console.log(" ++ JS.quoted "2" ++ ")")) (Some true) (Some 4) None None None
    (Some "Second setTimeout callback (100ms delay) executes last.");
    mkStep "log" None None None (Some "2") None None
    (Some "Output: 2. Final order: 1 â†’ 5 â†’ 4 â†’ 3 â†’ 2");
    mkStep "removeFromStack" None None None None None None
    (Some "All operations complete! Notice: sync first, then microtasks, then tasks by timing.") ].

Definition advanced : Example :=
  mkExample "Advanced Pattern" "Multiple async operations" advanced_code advanced_steps.

Definition fetch_code : string :=
  JS.joinLines
    [ ("console.log(" ++ JS.quoted "Start fetch" ++ ");");
      EmptyString;
      "fetch('/api/data')";
      "  .then(res => res.json())";
      "  .then(data => {";
      ("    console.log(" ++ JS.quoted "Data received" ++ ");");
      "  });";
      EmptyString;
      ("console.log(" ++ JS.quoted "Fetch initiated" ++ ");") ].

Definition fetch_steps : list Step :=
  [ mkStep "addToStack" (Some ("console.log(" ++ JS.quoted "Start fetch" ++ ")")) (Some true) (Some 1) None None None
    (Some "Starting the fetch operation sequence.");
    mkStep "log" None None None (Some "Start fetch") None None
    (Some "Output: Start fetch");
    mkStep "removeFromStack" None None None None None None
    (Some "Console.log completes.");
    mkStep "addToStack" (Some ("fetch(" ++ JS.quoted "/api/data" ++ ")")) (Some false) (Some 3) None None None
    (Some "fetch() initiates an HTTP request. This is handled by the browser's Web API.");
    mkStep "addToWebAPI" (Some "Fetch: /api/data") None None None None (Some "Promise.then()")
    (Some "The network request is processed by Web APIs. When complete, the .then() callback will be queued.");
    mkStep "removeFromStack" None None None None None None
    (Some "fetch() registration completes immediately (non-blocking!)");
    mkStep "addToStack" (Some ("console.log(" ++ JS.quoted "Fetch initiated" ++ ")")) (Some true) (Some 9) None None None
    (Some "Code continues executing while the fetch happens in the background.");
    mkStep "log" None None None (Some "Fetch initiated") None None
    (Some "Output: Fetch initiated. Notice this runs before data is received!");
    mkStep "removeFromStack" None None None None None None
    (Some "All synchronous code complete.");
    mkStep "moveToTaskQueue" None None (Some 4) None (Some "webAPI") (Some "Promise.then()")
    (Some "Fetch completes. The response promise resolves and the .then() callback is queued.");
    mkStep "addToMicroTask" (Some "res.json()") None None None None None
    (Some "res.json() returns a promise, adding to Microtask Queue.");
    mkStep "processMicroTasks" None None (Some 5) None None None
    (Some "Processing the JSON parsing microtask.");
    mkStep "addToMicroTask" (Some ("console.log(" ++ JS.quoted "Data received" ++ ")")) None None None None None
    (Some "Second .then() callback is queued as a microtask.");
    mkStep "processMicroTasks" None None (Some 6) None None None
    (Some "Now executing the final .then() callback.");
    mkStep "addToStack" (Some ("console.log(" ++ JS.quoted "Data received" ++ ")")) (Some true) (Some 6) None None None
    (Some "The data handling callback executes.");
    mkStep "log" None None None (Some "Data received") None None
    (Some "Output: Data received. Fetch complete!");
    mkStep "removeFromStack" None None None None None None
    (Some "Fetch operation fully complete. Order shows non-blocking nature of fetch!") ].

Definition fetch : Example :=
  mkExample "Fetch API" "Async/await with fetch simulation" fetch_code fetch_steps.

Definition asyncAwait_code : string :=
  JS.joinLines
    [ ("console.log(" ++ JS.quoted "Before async" ++ ");");
      EmptyString;
      "async function getData() {";
      ("  console.log(" ++ JS.quoted "In async" ++ ");");
      ("  const data = await Promise.resolve(" ++ JS.quoted "data" ++ ");");
      ("  console.log(" ++ JS.quoted "After await" ++ ");");
      "}";
      EmptyString;
      "getData();";
      ("console.log(" ++ JS.quoted "After call" ++ ");") ].

Definition asyncAwait_steps : list Step :=
  [ mkStep "addToStack" (Some ("console.log(" ++ JS.quoted "Before async" ++ ")")) (Some true) (Some 1) None None None
    (Some "First synchronous line executes.");
    mkStep "log" None None None (Some "Before async") None None
    (Some "Output: Before async");
    mkStep "removeFromStack" None None None None None None
    (Some "Removed from stack.");
    mkStep "addToStack" (Some "getData()") (Some false) (Some 9) None None None
    (Some "Calling the async function. Async functions always return a Promise!");
    mkStep "addToStack" (Some ("console.log(" ++ JS.quoted "In async" ++ ")")) (Some true) (Some 4) None None None
    (Some "Code before await executes synchronously, just like normal.");
    mkStep "log" None None None (Some "In async") None None
    (Some "Output: In async");
    mkStep "removeFromStack" None None None None None None
    (Some "Console.log completes.");
    mkStep "addToStack" (Some "await Promise.resolve()") (Some false) (Some 5) None None None
    (Some ("await pauses execution! The function " ++ JS.quoted "yields" ++ " control back to the caller."));
    mkStep "addToMicroTask" (Some "Resume: After await") None None None None None
    (Some "The continuation (code after await) is scheduled as a microtask.");
    mkStep "removeFromStack" None None None None None None
    (Some "await causes the function to return to caller.");
    mkStep "removeFromStack" None None None None None None
    (Some "getData() call completes (returns a pending Promise).");
    mkStep "addToStack" (Some ("console.log(" ++ JS.quoted "After call" ++ ")")) (Some true) (Some 10) None None None
    (Some "Code continues executing while await is waiting!");
    mkStep "log" None None None (Some "After call") None None
    (Some ("Output: After call. This runs before " ++ JS.quoted "After await" ++ "!"));
    mkStep "removeFromStack" None None None None None None
    (Some "All sync code done. Now microtasks can run.");
    mkStep "processMicroTasks" None None (Some 6) None None None
    (Some "Event Loop processes microtasks. Time to resume the async function!");
    mkStep "addToStack" (Some ("console.log(" ++ JS.quoted "After await" ++ ")")) (Some true) (Some 6) None None None
    (Some "Async function resumes after the await. data variable now has the resolved value.");
    mkStep "log" None None None (Some "After await") None None
    (Some ("Output: After await. Key learning: await = " ++ JS.quoted "pause and come back later"));
    mkStep "removeFromStack" None None None None None None
    (Some "Async function completes. Order: Before async â†’ In async â†’ After call â†’ After await") ].

Definition asyncAwait : Example :=
  mkExample "Async/Await" "Modern async syntax" asyncAwait_code asyncAwait_steps.

Definition multiplePromises_code : string :=
  JS.joinLines
    [ ("console.log(" ++ JS.quoted "Start" ++ ");");
      EmptyString;
      "Promise.resolve()";
      ("  .then(() => console.log(" ++ JS.quoted "Promise 1" ++ "))");
      ("  .then(() => console.log(" ++ JS.quoted "Promise 2" ++ "));");
      EmptyString;
      "Promise.resolve()";
      ("  .then(() => console.log(" ++ JS.quoted "Promise 3" ++ "));");
      EmptyString;
      ("console.log(" ++ JS.quoted "End" ++ ");") ].

Definition multiplePromises_steps : list Step :=
  [ mkStep "addToStack" (Some ("console.log(" ++ JS.quoted "Start" ++ ")")) (Some true) (Some 1) None None None
    (Some "Starting execution with synchronous code.");
    mkStep "log" None None None (Some "Start") None None
    (Some "Output: Start");
    mkStep "removeFromStack" None None None None None None
    (Some "Removed from stack.");
    mkStep "addToStack" (Some "Promise.resolve()") (Some false) (Some 3) None None None
    (Some "First promise chain starts. Promise.resolve() creates an immediately resolved promise.");
    mkStep "addToMicroTask" (Some ("console.log(" ++ JS.quoted "Promise 1" ++ ")")) None None None None None
    (Some "First .then() callback queued to Microtask Queue.");
    mkStep "removeFromStack" None None None None None None
    (Some "Promise registration completes.");
    mkStep "addToStack" (Some "Promise.resolve()") (Some false) (Some 7) None None None
    (Some "Second independent promise chain starts.");
    mkStep "addToMicroTask" (Some ("console.log(" ++ JS.quoted "Promise 3" ++ ")")) None None None None None
    (Some "This .then() callback also queued to Microtask Queue.");
    mkStep "removeFromStack" None None None None None None
    (Some "Second promise registered.");
    mkStep "addToStack" (Some ("console.log(" ++ JS.quoted "End" ++ ")")) (Some true) (Some 10) None None None
    (Some "Final synchronous statement.");
    mkStep "log" None None None (Some "End") None None
    (Some "Output: End. All sync code done!");
    mkStep "removeFromStack" None None None None None None
    (Some "Stack empty. Event Loop will now process microtasks.");
    mkStep "processMicroTasks" None None (Some 4) None None None
    (Some ("Processing first microtask: " ++ JS.quoted "Promise 1" ++ " callback."));
    mkStep "addToStack" (Some ("console.log(" ++ JS.quoted "Promise 1" ++ ")")) (Some true) (Some 4) None None None
    (Some "First promise callback executes.");
    mkStep "log" None None None (Some "Promise 1") None None
    (Some "Output: Promise 1");
    mkStep "removeFromStack" None None None None None None
    (Some "Callback completes. The .then() returns a new promise!");
    mkStep "addToMicroTask" (Some ("console.log(" ++ JS.quoted "Promise 2" ++ ")")) None None None None None
    (Some "Chained .then() creates another microtask. Added to the end of Microtask Queue.");
    mkStep "processMicroTasks" None None (Some 8) None None None
    (Some ("Processing next microtask: " ++ JS.quoted "Promise 3" ++ " callback (was already queued)."));
    mkStep "addToStack" (Some ("console.log(" ++ JS.quoted "Promise 3" ++ ")")) (Some true) (Some 8) None None None
    (Some "Second promise chain's callback executes.");
    mkStep "log" None None None (Some "Promise 3") None None
    (Some "Output: Promise 3");
    mkStep "removeFromStack" None None None None None None
    (Some "Second chain's first callback done.");
    mkStep "processMicroTasks" None None (Some 5) None None None
    (Some "Processing the chained callback from first promise.");
    mkStep "addToStack" (Some ("console.log(" ++ JS.quoted "Promise 2" ++ ")")) (Some true) (Some 5) None None None
    (Some "Final callback from the first promise chain.");
    mkStep "log" None None None (Some "Promise 2") None None
    (Some "Output: Promise 2. Order: Start â†’ End â†’ Promise 1 â†’ Promise 3 â†’ Promise 2");
    mkStep "removeFromStack" None None None None None None
    (Some "All done! Notice how chained promises queue new microtasks.") ].

Definition multiplePromises : Example :=
  mkExample "Chained Promises" "Multiple promise chains" multiplePromises_code multiplePromises_steps.

Definition eventListener_code : string :=
  JS.joinLines
    [ ("console.log(" ++ JS.quoted "Setup" ++ ");");
      EmptyString;
      "button.addEventListener('click', () => {";
      ("  console.log(" ++ JS.quoted "Button clicked" ++ ");");
      "  Promise.resolve().then(() => {";
      ("    console.log(" ++ JS.quoted "After click" ++ ");");
      "  });";
      "});";
      EmptyString;
      ("console.log(" ++ JS.quoted "Ready" ++ ");");
      "// User clicks button here" ].

Definition eventListener_steps : list Step :=
  [ mkStep "addToStack" (Some ("console.log(" ++ JS.quoted "Setup" ++ ")")) (Some true) (Some 1) None None None
    (Some "Starting to set up event listeners.");
    mkStep "log" None None None (Some "Setup") None None
    (Some "Output: Setup");
    mkStep "removeFromStack" None None None None None None
    (Some "Console.log completes.");
    mkStep "addToStack" (Some ("addEventListener(" ++ JS.quoted "click" ++ ", cb)")) (Some false) (Some 3) None None None
    (Some "Registering a click event listener. The callback is stored but NOT executed yet.");
    mkStep "addToWebAPI" (Some "Event: click listener") None None None None (Some "click handler")
    (Some "Browser registers the event listener. It will trigger when the user clicks the button.");
    mkStep "removeFromStack" None None None None None None
    (Some "Event listener registration complete.");
    mkStep "addToStack" (Some ("console.log(" ++ JS.quoted "Ready" ++ ")")) (Some true) (Some 10) None None None
    (Some "Synchronous code continues executing.");
    mkStep "log" None None None (Some "Ready") None None
    (Some "Output: Ready. Now waiting for user interaction...");
    mkStep "removeFromStack" None None None None None None
    (Some "All setup code complete. Application is now idle, waiting for events.");
    mkStep "moveToTaskQueue" None None (Some 4) None (Some "webAPI") (Some "click handler")
    (Some "ðŸ–±ï¸ User clicks the button! Event handler is queued as a Task.");
    mkStep "checkEventLoop" None None None None None None
    (Some "Event Loop picks up the click event from Task Queue.");
    mkStep "addToStack" (Some ("console.log(" ++ JS.quoted "Button clicked" ++ ")")) (Some true) (Some 4) None None None
    (Some "Click handler executes. First line in the callback runs.");
    mkStep "log" None None None (Some "Button clicked") None None
    (Some "Output: Button clicked");
    mkStep "removeFromStack" None None None None None None
    (Some "Console.log completes.");
    mkStep "addToStack" (Some "Promise.resolve()") (Some false) (Some 5) None None None
    (Some "Promise created inside the event handler.");
    mkStep "addToMicroTask" (Some ("console.log(" ++ JS.quoted "After click" ++ ")")) None None None None None
    (Some "Promise callback queued as microtask. Will run after current task completes.");
    mkStep "removeFromStack" None None None None None None
    (Some "Promise setup done.");
    mkStep "removeFromStack" None None None None None None
    (Some "Click handler completes. Now Event Loop processes microtasks before next task.");
    mkStep "processMicroTasks" None None (Some 6) None None None
    (Some "Microtasks run immediately after the task completes (before rendering!)");
    mkStep "addToStack" (Some ("console.log(" ++ JS.quoted "After click" ++ ")")) (Some true) (Some 6) None None None
    (Some "Promise callback from the click handler executes.");
    mkStep "log" None None None (Some "After click") None None
    (Some "Output: After click. Event handling complete!");
    mkStep "removeFromStack" None None None None None None
    (Some "Done! Key learning: Event handlers are Tasks, but can create Microtasks inside them.") ].

Definition eventListener : Example :=
  mkExample "Event Listeners" "Click event handling" eventListener_code eventListener_steps.

Definition apiError_code : string :=
  JS.joinLines
    [ ("console.log(" ++ JS.quoted "Fetching user" ++ ");");
      EmptyString;
      "async function getUser() {";
      "  try {";
      "    const res = await fetch('/user');";
      ("    console.log(" ++ JS.quoted "Success" ++ ");");
      "  } catch (error) {";
      ("    console.log(" ++ JS.quoted "Error caught" ++ ");");
      "  }";
      "}";
      EmptyString;
      "getUser();";
      ("console.log(" ++ JS.quoted "Request sent" ++ ");") ].

Definition apiError_steps : list Step :=
  [ mkStep "addToStack" (Some ("console.log(" ++ JS.quoted "Fetching user" ++ ")")) (Some true) (Some 1) None None None
    (Some "Starting an async operation with error handling.");
    mkStep "log" None None None (Some "Fetching user") None None
    (Some "Output: Fetching user");
    mkStep "removeFromStack" None None None None None None
    (Some "Console.log completes.");
    mkStep "addToStack" (Some "getUser()") (Some false) (Some 12) None None None
    (Some "Calling the async function. Remember: async functions return immediately with a Promise!");
    mkStep "addToStack" (Some ("await fetch(" ++ JS.quoted "/user" ++ ")")) (Some false) (Some 5) None None None
    (Some "fetch() starts the network request. await pauses the function execution.");
    mkStep "addToWebAPI" (Some "Fetch: /user") None None None None (Some "Resume getUser")
    (Some "Network request handled by browser APIs. Function paused at await.");
    mkStep "removeFromStack" None None None None None None
    (Some "await causes function to yield. Execution continues outside the function.");
    mkStep "removeFromStack" None None None None None None
    (Some "getUser() returns to caller (returns pending Promise).");
    mkStep "addToStack" (Some ("console.log(" ++ JS.quoted "Request sent" ++ ")")) (Some true) (Some 13) None None None
    (Some "Code after function call executes while fetch is in progress!");
    mkStep "log" None None None (Some "Request sent") None None
    (Some "Output: Request sent. Non-blocking async in action!");
    mkStep "removeFromStack" None None None None None None
    (Some "All sync code done. Now waiting for fetch to complete...");
    mkStep "moveToTaskQueue" None None (Some 5) None (Some "webAPI") (Some "Resume getUser")
    (Some "âŒ Fetch fails (network error, 404, etc). The promise REJECTS.");
    mkStep "addToMicroTask" (Some "catch(error)") None None None None None
    (Some "Rejection triggers the catch block! This is queued as a microtask.");
    mkStep "processMicroTasks" None None (Some 8) None None None
    (Some "Processing the error handler microtask.");
    mkStep "addToStack" (Some ("console.log(" ++ JS.quoted "Error caught" ++ ")")) (Some true) (Some 8) None None None
    (Some "Catch block executes. The try-catch successfully handled the error!");
    mkStep "log" None None None (Some "Error caught") None None
    (Some "Output: Error caught. Error handled gracefully without crashing!");
    mkStep "removeFromStack" None None None None None None
    (Some "Error handling complete. Key: await errors are caught by try-catch!") ].

Definition apiError : Example :=
  mkExample "API Error Handling" "Fetch with try-catch" apiError_code apiError_steps.

Definition debounce_code : string :=
  JS.joinLines
    [ "let timeout;";
      EmptyString;
      "function onSearch(text) {";
      "  clearTimeout(timeout);";
      "  timeout = setTimeout(() => {";
      ("    console.log(" ++ JS.quoted "Search: " ++ " + text);");
      "  }, 300);";
      "}";
      EmptyString;
      ("onSearch(" ++ JS.quoted "H" ++ ");");
      ("onSearch(" ++ JS.quoted "He" ++ ");");
      ("onSearch(" ++ JS.quoted "Hel" ++ ");") ].

Definition debounce_steps : list Step :=
  [ mkStep "addToStack" (Some ("onSearch(" ++ JS.quoted "H" ++ ")")) (Some false) (Some 10) None None None
    (Some ("User types " ++ JS.quoted "H" ++ ". First keystroke triggers search function."));
    mkStep "addToStack" (Some "clearTimeout(timeout)") (Some true) (Some 4) None None None
    (Some "Checking if there's a pending timer. First call, so timeout is undefined - nothing to clear.");
    mkStep "removeFromStack" None None None None None None
    (Some "clearTimeout completes (no-op for undefined).");
    mkStep "addToStack" (Some "setTimeout(cb, 300)") (Some false) (Some 5) None None None
    (Some "Starting a 300ms timer before executing the search.");
    mkStep "addToWebAPI" (Some "Timer: 300ms (H)") None None None None (Some ("console.log(" ++ JS.quoted "Search: H" ++ ")"))
    (Some "Timer set for 300ms. If no more typing happens, it will execute the search.");
    mkStep "removeFromStack" None None None None None None
    (Some "setTimeout registration done.");
    mkStep "removeFromStack" None None None None None None
    (Some "First onSearch call complete. Timer is running...");
    mkStep "addToStack" (Some ("onSearch(" ++ JS.quoted "He" ++ ")")) (Some false) (Some 11) None None None
    (Some ("âŒ¨ï¸ User types " ++ JS.quoted "e" ++ " (only 50ms later). Second keystroke!"));
    mkStep "addToStack" (Some "clearTimeout(timeout)") (Some true) (Some 4) None None None
    (Some ("CANCELING the previous timer! This prevents the " ++ JS.quoted "H" ++ " search from executing."));
    mkStep "removeFromStack" None None None None None None
    (Some "Previous timer cancelled. First search will never run!");
    mkStep "addToWebAPI" (Some "Timer: 300ms (He)") None None None None (Some ("console.log(" ++ JS.quoted "Search: He" ++ ")"))
    (Some ("New timer started for " ++ JS.quoted "He" ++ ". Restarting the 300ms countdown."));
    mkStep "removeFromStack" None None None None None None
    (Some "Second onSearch complete.");
    mkStep "addToStack" (Some ("onSearch(" ++ JS.quoted "Hel" ++ ")")) (Some false) (Some 12) None None None
    (Some ("âŒ¨ï¸ User types " ++ JS.quoted "l" ++ " quickly. Third keystroke!"));
    mkStep "addToStack" (Some "clearTimeout(timeout)") (Some true) (Some 4) None None None
    (Some ("CANCELING the " ++ JS.quoted "He" ++ " timer! Previous search prevented again."));
    mkStep "removeFromStack" None None None None None None
    (Some ("Second timer cancelled. " ++ JS.quoted "He" ++ " search will never run!"));
    mkStep "addToWebAPI" (Some "Timer: 300ms (Hel)") None None None None (Some ("console.log(" ++ JS.quoted "Search: Hel" ++ ")"))
    (Some ("Final timer for " ++ JS.quoted "Hel" ++ ". If user stops typing, this will execute after 300ms."));
    mkStep "removeFromStack" None None None None None None
    (Some "Third onSearch complete.");
    mkStep "moveToTaskQueue" None None (Some 6) None (Some "webAPI") (Some ("console.log(" ++ JS.quoted "Search: Hel" ++ ")"))
    (Some "â±ï¸ 300ms passed with no more keystrokes. Timer completes and queues the callback.");
    mkStep "checkEventLoop" None None None None None None
    (Some "Event Loop picks up the search task.");
    mkStep "addToStack" (Some ("console.log(" ++ JS.quoted "Search: Hel" ++ ")")) (Some true) (Some 6) None None None
    (Some "Finally executing the search! Only the last timer survived.");
    mkStep "log" None None None (Some "Search: Hel") None None
    (Some "Output: Search: Hel. Debouncing saved 2 unnecessary API calls! (H and He never searched)");
    mkStep "removeFromStack" None None None None None None
    (Some "Complete! This pattern is crucial for search boxes, resize handlers, and scroll events.") ].

Definition debounce : Example :=
  mkExample "Debounce Pattern" "Real-world search debouncing" debounce_code debounce_steps.

Definition promiseRace_code : string :=
  JS.joinLines
    [ ("console.log(" ++ JS.quoted "Start request" ++ ");");
      EmptyString;
      "const timeout = new Promise((_, reject) => {";
      ("  setTimeout(() => reject(" ++ JS.quoted "Timeout" ++ "), 1000);");
      "});";
      EmptyString;
      "const request = fetch('/slow-api');";
      EmptyString;
      "Promise.race([request, timeout])";
      ("  .then(() => console.log(" ++ JS.quoted "Success" ++ "))");
      ("  .catch(() => console.log(" ++ JS.quoted "Failed" ++ "));");
      EmptyString;
      ("console.log(" ++ JS.quoted "Racing..." ++ ");") ].

Definition promiseRace_steps : list Step :=
  [ mkStep "addToStack" (Some ("console.log(" ++ JS.quoted "Start request" ++ ")")) (Some true) (Some 1) None None None
    (Some "Starting a request with a timeout using Promise.race pattern.");
    mkStep "log" None None None (Some "Start request") None None
    (Some "Output: Start request");
    mkStep "removeFromStack" None None None None None None
    (Some "Console.log completes.");
    mkStep "addToStack" (Some "new Promise((_, reject)...)") (Some false) (Some 3) None None None
    (Some "Creating a promise that will reject after 1000ms. This is our timeout mechanism.");
    mkStep "addToStack" (Some "setTimeout(cb, 1000)") (Some false) (Some 4) None None None
    (Some "Setting up the timeout timer.");
    mkStep "addToWebAPI" (Some "Timer: 1000ms") None None None None (Some ("reject(" ++ JS.quoted "Timeout" ++ ")"))
    (Some "Timeout timer registered. Will reject the promise if it fires.");
    mkStep "removeFromStack" None None None None None None
    (Some "setTimeout done.");
    mkStep "removeFromStack" None None None None None None
    (Some "Timeout promise created.");
    mkStep "addToStack" (Some ("fetch(" ++ JS.quoted "/slow-api" ++ ")")) (Some false) (Some 7) None None None
    (Some "Starting the actual API request.");
    mkStep "addToWebAPI" (Some "Fetch: /slow-api") None None None None (Some "resolve(response)")
    (Some "Network request in progress. Simulating a slow API.");
    mkStep "removeFromStack" None None None None None None
    (Some "Fetch initiated.");
    mkStep "addToStack" (Some "Promise.race([...])") (Some false) (Some 9) None None None
    (Some "Promise.race returns as soon as the FIRST promise settles (resolves or rejects)!");
    mkStep "removeFromStack" None None None None None None
    (Some "Race setup complete. Now both promises are competing...");
    mkStep "addToStack" (Some ("console.log(" ++ JS.quoted "Racing..." ++ ")")) (Some true) (Some 13) None None None
    (Some "Synchronous code continues while both async operations are in progress.");
    mkStep "log" None None None (Some "Racing...") None None
    (Some "Output: Racing... Both timeout and fetch are now racing!");
    mkStep "removeFromStack" None None None None None None
    (Some "All sync code done. Now we wait to see which promise wins...");
    mkStep "moveToTaskQueue" None None (Some 4) None (Some "webAPI") (Some ("reject(" ++ JS.quoted "Timeout" ++ ")"))
    (Some "â±ï¸ 1000ms elapsed! Timeout fires BEFORE the slow API responds. Timeout wins the race!");
    mkStep "addToMicroTask" (Some ("catch(() => console.log(" ++ JS.quoted "Failed" ++ "))")) None None None None None
    (Some "Race promise rejected. The .catch() handler is queued.");
    mkStep "processMicroTasks" None None (Some 11) None None None
    (Some "Processing the rejection handler.");
    mkStep "addToStack" (Some ("console.log(" ++ JS.quoted "Failed" ++ ")")) (Some true) (Some 11) None None None
    (Some "Catch handler executes. Request failed due to timeout!");
    mkStep "log" None None None (Some "Failed") None None
    (Some "Output: Failed. The slow API never got a chance to respond!");
    mkStep "removeFromStack" None None None None None None
    (Some "Done! Promise.race is perfect for implementing request timeouts.") ].

Definition promiseRace : Example :=
  mkExample "Promise.race" "Timeout pattern with race" promiseRace_code promiseRace_steps.

Definition requestAnimationFrame_code : string :=
  JS.joinLines
    [ ("console.log(" ++ JS.quoted "Animation start" ++ ");");
      EmptyString;
      "let count = 0;";
      "function animate() {";
      ("  console.log(" ++ JS.quoted "Frame " ++ " + count++);");
      "  if (count < 3) {";
      "    requestAnimationFrame(animate);";
      "  }";
      "}";
      EmptyString;
      "requestAnimationFrame(animate);";
      ("console.log(" ++ JS.quoted "Scheduled" ++ ");") ].

Definition requestAnimationFrame_steps : list Step :=
  [ mkStep "addToStack" (Some ("console.log(" ++ JS.quoted "Animation start" ++ ")")) (Some true) (Some 1) None None None
    (Some "Starting an animation using requestAnimationFrame (RAF).");
    mkStep "log" None None None (Some "Animation start") None None
    (Some "Output: Animation start");
    mkStep "removeFromStack" None None None None None None
    (Some "Console.log completes.");
    mkStep "addToStack" (Some "requestAnimationFrame(animate)") (Some false) (Some 11) None None None
    (Some "RAF schedules a callback to run before the next repaint (~60fps = every 16ms).");
    mkStep "addToWebAPI" (Some "RAF: animate (Frame 0)") None None None None (Some "animate()")
    (Some "Browser schedules animate() to run before next paint. Different queue than setTimeout!");
    mkStep "removeFromStack" None None None None None None
    (Some "RAF registration complete.");
    mkStep "addToStack" (Some ("console.log(" ++ JS.quoted "Scheduled" ++ ")")) (Some true) (Some 12) None None None
    (Some "Synchronous code continues immediately.");
    mkStep "log" None None None (Some "Scheduled") None None
    (Some "Output: Scheduled. Animation callback will run on next frame.");
    mkStep "removeFromStack" None None None None None None
    (Some "All sync code done. Browser will call our callback before painting...");
    mkStep "moveToTaskQueue" None None (Some 4) None (Some "webAPI") (Some "animate()")
    (Some "ðŸŽ¬ Browser ready to paint! RAF callback fires (typically after ~16ms for 60fps).");
    mkStep "checkEventLoop" None None None None None None
    (Some "Event Loop executes the animation frame callback.");
    mkStep "addToStack" (Some ("console.log(" ++ JS.quoted "Frame 0" ++ ")")) (Some true) (Some 5) None None None
    (Some "First frame renders. count is 0.");
    mkStep "log" None None None (Some "Frame 0") None None
    (Some "Output: Frame 0. First animation frame!");
    mkStep "removeFromStack" None None None None None None
    (Some "Console.log done.");
    mkStep "addToStack" (Some "requestAnimationFrame(animate)") (Some false) (Some 7) None None None
    (Some "Scheduling the next frame. count is now 1.");
    mkStep "addToWebAPI" (Some "RAF: animate (Frame 1)") None None None None (Some "animate()")
    (Some "Second frame scheduled.");
    mkStep "removeFromStack" None None None None None None
    (Some "RAF scheduled.");
    mkStep "moveToTaskQueue" None None (Some 4) None (Some "webAPI") (Some "animate()")
    (Some "ðŸŽ¬ ~16ms later, next frame ready!");
    mkStep "checkEventLoop" None None None None None None
    (Some "Second frame callback executes.");
    mkStep "addToStack" (Some ("console.log(" ++ JS.quoted "Frame 1" ++ ")")) (Some true) (Some 5) None None None
    (Some "Second frame renders. count is 1.");
    mkStep "log" None None None (Some "Frame 1") None None
    (Some "Output: Frame 1");
    mkStep "removeFromStack" None None None None None None
    (Some "Frame 1 done.");
    mkStep "addToStack" (Some "requestAnimationFrame(animate)") (Some false) (Some 7) None None None
    (Some "Scheduling third and final frame. count is now 2.");
    mkStep "addToWebAPI" (Some "RAF: animate (Frame 2)") None None None None (Some "animate()")
    (Some "Final frame scheduled.");
    mkStep "removeFromStack" None None None None None None
    (Some "RAF scheduled.");
    mkStep "moveToTaskQueue" None None (Some 4) None (Some "webAPI") (Some "animate()")
    (Some "ðŸŽ¬ Third frame ready!");
    mkStep "checkEventLoop" None None None None None None
    (Some "Final frame callback executes.");
    mkStep "addToStack" (Some ("console.log(" ++ JS.quoted "Frame 2" ++ ")")) (Some true) (Some 5) None None None
    (Some "Final frame renders. count is 2.");
    mkStep "log" None None None (Some "Frame 2") None None
    (Some "Output: Frame 2");
    mkStep "removeFromStack" None None None None None None
    (Some "Last frame complete.");
    mkStep "removeFromStack" None None None None None None
    (Some "Animation complete! RAF is ideal for smooth 60fps animations.") ].

Definition requestAnimationFrame : Example :=
  mkExample "Animation Frame" "RAF for smooth animations" requestAnimationFrame_code requestAnimationFrame_steps.


End Examples.

(** [examples[key]] for a static key, [customExample] for [custom]:
    the record [allExamples]. *)
Definition allExamples (customExample : Example) (key : ExampleKey)
  : Example :=
  match key with
  | basic => Examples.basic
  | promise => Examples.promise
  | advanced => Examples.advanced
  | fetch => Examples.fetch
  | asyncAwait => Examples.asyncAwait
  | multiplePromises => Examples.multiplePromises
  | eventListener => Examples.eventListener
  | apiError => Examples.apiError
  | debounce => Examples.debounce
  | promiseRace => Examples.promiseRace
  | requestAnimationFrame => Examples.requestAnimationFrame
  | custom => customExample
  end.

(** ** Vocabulary of the properties *)

(** The steps of one action, in order. *)
Definition stepsOf (a : string) (l : list Step) : list Step :=
  filter (isAction a) l.

(** Number of steps of one action. *)
Definition countOf (a : string) (l : list Step) : nat :=
  length (stepsOf a l).

(** The depth of the modeled stack after the steps of [l], started at depth
    [d]; [None] as soon as a [removeFromStack] meets an empty stack. *)
Fixpoint depthAfter (d : nat) (l : list Step) : option nat :=
  match l with
  | [] => Some d
  | s :: rest =>
      if isAction "addToStack" s then depthAfter (S d) rest
      else if isAction "removeFromStack" s then
        match d with
        | 0 => None
        | S d' => depthAfter d' rest
        end
      else depthAfter d rest
  end.

(** Pushes and pops pair up: no pop on an empty stack, and the stack is
    empty at the end. *)
Definition balanced (l : list Step) : Prop := depthAfter 0 l = Some 0.

(** The four-line snippet of the compiler coverage scenario. *)
Definition coverageSnippet : string :=
  JS.joinLines
    [ "console.log(" ++ JS.quoted "Start" ++ ");";
      "setTimeout(() => { console.log(" ++ JS.quoted "Timeout" ++ "); }, 0);";
      "Promise.resolve().then(() => { console.log(" ++ JS.quoted "Promise"
        ++ "); });";
      "console.log(" ++ JS.quoted "End" ++ ");" ].

(** The state of the line loop after the whole text ([lines] is
    [code.trim().split] at line feeds). *)
Definition scanOf (code : string) : Scan.t :=
  scanLines (JS.split JS.nl (JS.trim code)) 0 Scan.start.

(** [hasFetch]. *)
Definition hasFetch (code : string) : bool :=
  JS.includes "fetch(" (JS.trim code).

(** Registrations whose callback body is still being collected: one when
    [activeCallback] is of the kind asked for, none otherwise. *)
Definition openOf (k : ActiveCallback.kind_t) (st : Scan.t) : nat :=
  match Scan.activeCallback st with
  | Some ac =>
      match k, ActiveCallback.kind ac with
      | ActiveCallback.task, ActiveCallback.task => 1
      | ActiveCallback.microtask, ActiveCallback.microtask => 1
      | _, _ => 0
      end
  | None => 0
  end.

(** The order of the comparator: by delay, then by line. *)
Definition taskLe (a b : Task.t) : Prop :=
  (Task.delay a < Task.delay b)%N \/
  (Task.delay a = Task.delay b /\ Task.line a <= Task.line b).

(** *** Microtasks before macrotasks, as a check on a step sequence

    Both checks walk the sequence with the depth of the modeled stack. *)

(** The check of the specification: [queued] counts the microtasks enqueued
    and not yet drained, one per [processMicroTasks] step; at a
    [moveToTaskQueue] or [checkEventLoop] step met with an empty stack, none
    may be left. *)
Fixpoint drainedFirst (depth queued : nat) (l : list Step) : bool :=
  match l with
  | [] => true
  | s :: rest =>
      if isAction "addToStack" s then drainedFirst (S depth) queued rest
      else if isAction "removeFromStack" s then
        drainedFirst (pred depth) queued rest
      else if isAction "addToMicroTask" s then
        drainedFirst depth (S queued) rest
      else if isAction "processMicroTasks" s then
        drainedFirst depth (pred queued) rest
      else if isAction "moveToTaskQueue" s || isAction "checkEventLoop" s then
        (negb (Nat.eqb depth 0) || Nat.eqb queued 0)
        && drainedFirst depth queued rest
      else drainedFirst depth queued rest
  end.

(** What the compiler guarantees.  The walk keeps the stack depth and
    [waiting]: a microtask was enqueued and no [processMicroTasks] step has
    come since. *)
Definition track (dw : nat * bool) (s : Step) : nat * bool :=
  let (depth, waiting) := dw in
  if isAction "addToStack" s then (S depth, waiting)
  else if isAction "removeFromStack" s then (pred depth, waiting)
  else if isAction "addToMicroTask" s then (depth, true)
  else if isAction "processMicroTasks" s then (depth, false)
  else (depth, waiting).

Definition nextIsProcess (rest : list Step) : bool :=
  match rest with
  | p :: _ => isAction "processMicroTasks" p
  | [] => false
  end.

(** A [processMicroTasks], [moveToTaskQueue] or [checkEventLoop] step needs
    an empty stack; a [moveToTaskQueue] step needs no microtask waiting; a
    [checkEventLoop] step needs the same, unless it is the marker standing
    immediately in front of a [processMicroTasks] step. *)
Definition allowed (dw : nat * bool) (s : Step) (rest : list Step) : bool :=
  let (depth, waiting) := dw in
  if isAction "processMicroTasks" s then Nat.eqb depth 0
  else if isAction "moveToTaskQueue" s then
    Nat.eqb depth 0 && negb waiting
  else if isAction "checkEventLoop" s then
    Nat.eqb depth 0 && (negb waiting || nextIsProcess rest)
  else true.

Fixpoint ordered (dw : nat * bool) (l : list Step) : bool :=
  match l with
  | [] => true
  | s :: rest => allowed dw s rest && ordered (track dw s) rest
  end.

Definition stateAfter (dw : nat * bool) (l : list Step) : nat * bool :=
  fold_left track l dw.

(** A run of steps that leaves the stack as it found it, holds none of the
    three event-loop steps, and enqueues [n] microtasks. *)
Record quiet (n : nat) (l : list Step) : Prop := mkQuiet {
  quiet_depth : forall d, depthAfter d l = Some d;
  quiet_ordered : forall dw, ordered dw l = true;
  quiet_state :
    forall d w, stateAfter (d, w) l = (d, w || Nat.ltb 0 n);
  quiet_move : stepsOf "moveToTaskQueue" l = [];
  quiet_micro : countOf "addToMicroTask" l = n
}.

(** What holds of the state of the line loop after every line: the steps are
    quiet, and each [addToWebAPI] and [addToMicroTask] step stands for a
    registration that is in its bucket or still being collected. *)
Record scanInv (st : Scan.t) : Prop := mkScanInv {
  inv_quiet : exists n, quiet n (Scan.steps st);
  inv_tasks :
    countOf "addToWebAPI" (Scan.steps st)
    = length (Scan.pendingTasks st) + openOf ActiveCallback.task st;
  inv_microtasks :
    countOf "addToMicroTask" (Scan.steps st)
    = length (Scan.pendingMicrotasks st)
      + openOf ActiveCallback.microtask st
}.

(** The steps compiled from the snippet of the authored promise example. *)
Definition promiseCompiled : list Step :=
  Eval vm_compute in compileSteps Examples.promise_code.

(** A timer registered, cleared, and registered again under the same
    binding. *)
Definition cancelledTimerSnippet : string :=
  JS.joinLines
    [ "let timer = setTimeout(sendFirst, 300);";
      "clearTimeout(timer);";
      "timer = setTimeout(sendSecond, 300);" ].

(** ** Further handlers of the component *)

(** The steps of the selected example: [allExamples[selectedExample].steps]. *)
Definition selectedSteps (app : AppState) : list Step :=
  steps (allExamples (customExample app) (selectedExample app)).

(** [togglePlay] at time [now].  [reset] clears the start-time ref at once,
    so the test of the ref that follows sees it cleared; [isRunning] is the
    one of the render. *)
Definition togglePlay (now : N) (rendered : ModelState) (all : list Step)
  : ModelState :=
  let s1 :=
    if Nat.leb (length all) (currentStep rendered)
    then reset rendered else rendered in
  let s2 :=
    match isRunning rendered, startTimeRef s1 with
    | false, None => setStartTimeRef s1 (Some now)
    | _, _ => s1
    end in
  setIsRunning s2 (negb (isRunning rendered)).

(** The autoplay effect of a render.  While running before the end it arms a
    timer, whose callback is taken to fire at time [now] with no update in
    between: it refreshes the elapsed time when the start-time ref is
    truthy, executes the current step in the closure of the render and moves
    on.  At or past the end it stops the run and clears the highlight. *)
Definition autoplay (now : N) (rendered : ModelState) (all : list Step)
  : completion :=
  if isRunning rendered && Nat.ltb (currentStep rendered) (length all) then
    let s1 :=
      match startTimeRef rendered with
      | Some t => if N.eqb t 0 then rendered
                  else setElapsedTime rendered (now - t)%N
      | None => rendered
      end in
    match nth_error all (currentStep rendered) with
    | None => TypeError s1
    | Some step => Normal (setCurrentStep (executeStep rendered step s1) S)
    end
  else if Nat.leb (length all) (currentStep rendered) then
    Normal (setHighlightedLine (setIsRunning rendered false) None)
  else Normal rendered.

(** Pressing Next at each of [times], a render in between. *)
Fixpoint pressNext (times : list N) (rendered : ModelState)
         (all : list Step) : completion :=
  match times with
  | [] => Normal rendered
  | now :: later =>
      match nextStep now rendered all with
      | Normal s => pressNext later s all
      | TypeError s => TypeError s
      end
  end.

(** The autoplay effect render after render, its timer firing at each of
    [times]. *)
Fixpoint autoplayRun (times : list N) (rendered : ModelState)
         (all : list Step) : completion :=
  match times with
  | [] => Normal rendered
  | now :: later =>
      match autoplay now rendered all with
      | Normal s => autoplayRun later s all
      | TypeError s => TypeError s
      end
  end.

(** The speed shortcuts: [prev => Math.max(200, prev - 200)] and
    [prev => Math.min(2000, prev + 200)], in milliseconds per step. *)
Definition speedFaster (prev : Z) : Z := Z.max 200 (prev - 200).
Definition speedSlower (prev : Z) : Z := Z.min 2000 (prev + 200).

(** [Object.keys(allExamples)]: the static keys in the order of the literal,
    then [custom]. *)
Definition allKeys : list ExampleKey :=
  [ basic; promise; advanced; fetch; asyncAwait; multiplePromises;
    eventListener; apiError; debounce; promiseRace; requestAnimationFrame;
    custom ].

Definition isCustom (key : ExampleKey) : bool :=
  match key with
  | custom => true
  | _ => false
  end.

(** [Object.keys(allExamples).filter(k => k !== 'custom' ||
    allExamples.custom.steps.length > 0)]: the keys offered by the example
    selector and by the digit shortcuts. *)
Definition exampleKeys (customExample : Example) : list ExampleKey :=
  filter (fun key => negb (isCustom key)
                     || Nat.ltb 0 (length (steps customExample)))
         allKeys.

(** The name of a key, as it stands in the literal and in a shared link. *)
Definition keyName (key : ExampleKey) : string :=
  match key with
  | basic => "basic"
  | promise => "promise"
  | advanced => "advanced"
  | fetch => "fetch"
  | asyncAwait => "asyncAwait"
  | multiplePromises => "multiplePromises"
  | eventListener => "eventListener"
  | apiError => "apiError"
  | debounce => "debounce"
  | promiseRace => "promiseRace"
  | requestAnimationFrame => "requestAnimationFrame"
  | custom => "custom"
  end.

Module KeyEvent.
(** What [handleKeyDown] reads of a keyboard event; [inTextField] is
    [e.target instanceof HTMLTextAreaElement || e.target instanceof
    HTMLInputElement]. *)
Record t : Type := mk {
  code : string;
  ctrlKey : bool;
  metaKey : bool;
  altKey : bool;
  shiftKey : bool;
  inTextField : bool
}.
End KeyEvent.

(** The application state with the two pieces the shortcuts also touch. *)
Record UI : Type := mkUI {
  app : AppState;
  speed : Z;
  showHelpModal : bool
}.

Definition withModel (ui : UI) (m : ModelState) : UI :=
  mkUI (mkApp m (selectedExample (app ui)) (mode (app ui))
              (customCode (app ui)) (codeError (app ui))
              (customExample (app ui)))
       (speed ui) (showHelpModal ui).

(** [setSelectedExample(key); reset()]. *)
Definition selectExample (ui : UI) (key : ExampleKey) : UI :=
  mkUI (mkApp (reset (model (app ui))) key (mode (app ui))
              (customCode (app ui)) (codeError (app ui))
              (customExample (app ui)))
       (speed ui) (showHelpModal ui).

(** The digit of a key code among [Digit1] .. [Digit5], the cases of the
    [switch]: [parseInt(e.code.replace('Digit', ''))]. *)
Definition shortcutDigit (code : string) : option nat :=
  if String.eqb code "Digit1" then Some 1
  else if String.eqb code "Digit2" then Some 2
  else if String.eqb code "Digit3" then Some 3
  else if String.eqb code "Digit4" then Some 4
  else if String.eqb code "Digit5" then Some 5
  else None.

(** [handleKeyDown] at time [now]: the state it leaves, and whether it
    raised. *)
Definition handleKeyDown (now : N) (ui : UI) (e : KeyEvent.t) : UI * bool :=
  let m := model (app ui) in
  let all := selectedSteps (app ui) in
  let finish (c : completion) : UI * bool :=
    match c with
    | Normal s => (withModel ui s, false)
    | TypeError s => (withModel ui s, true)
    end in
  let code := KeyEvent.code e in
  if KeyEvent.inTextField e then (ui, false)
  else if String.eqb code "Space" then
    (withModel ui (togglePlay now m all), false)
  else if String.eqb code "ArrowRight" then finish (nextStep now m all)
  else if String.eqb code "ArrowLeft" then finish (prevStep m all)
  else if String.eqb code "ArrowUp" then
    (mkUI (app ui) (speedFaster (speed ui)) (showHelpModal ui), false)
  else if String.eqb code "ArrowDown" then
    (mkUI (app ui) (speedSlower (speed ui)) (showHelpModal ui), false)
  else if String.eqb code "KeyR" then
    if negb (KeyEvent.ctrlKey e) && negb (KeyEvent.metaKey e)
    then (withModel ui (reset m), false)
    else (ui, false)
  else if String.eqb code "Home" then finish (goToStep m all 0)
  else if String.eqb code "End" then finish (goToStep m all (length all))
  else if String.eqb code "Slash" || String.eqb code "Digit191" then
    if KeyEvent.shiftKey e
    then (mkUI (app ui) (speed ui) (negb (showHelpModal ui)), false)
    else (ui, false)
  else if String.eqb code "Escape" then
    (mkUI (app ui) (speed ui) false, false)
  else
    match shortcutDigit code with
    | Some digit =>
        if negb (KeyEvent.ctrlKey e) && negb (KeyEvent.metaKey e)
           && negb (KeyEvent.altKey e)
        then
          let keys := exampleKeys (customExample (app ui)) in
          let index := digit - 1 in
          if Nat.ltb index (length keys) then
            match nth_error keys index with
            | Some key => (selectExample ui key, false)
            | None => (ui, false)
            end
          else (ui, false)
        else (ui, false)
    | None => (ui, false)
    end.

(** *** Sharing a position and loading it from the URL *)

(** [parseInt(s, 10)] on any string: leading white space is skipped, a sign
    is read, then the longest run of decimal digits; [None] is [NaN]. *)
Fixpoint takeDigits (s : string) : string :=
  match s with
  | EmptyString => EmptyString
  | String c s' => if JS.isDigit c then String c (takeDigits s') else EmptyString
  end.

Definition parseIntDecimal (s : string) : option Z :=
  let s1 := JS.trimStart s in
  let signed :=
    match s1 with
    | String c rest =>
        if Ascii.eqb c "-" then (true, rest)
        else if Ascii.eqb c "+" then (false, rest)
        else (false, s1)
    | EmptyString => (false, s1)
    end in
  let digits := takeDigits (snd signed) in
  if JS.isEmpty digits then None
  else
    let n := Z.of_N (JS.parseInt digits) in
    Some (if fst signed then (- n)%Z else n).

(** The two query parameters [handleShare] writes: the selected key and
    [currentStep.toString()]. *)
Definition shareParams (app : AppState) : string * string :=
  (keyName (selectedExample app),
   JS.numberToString (N.of_nat (currentStep (model app)))).

(** [exampleParam in examples], for the names of the keys: the own
    properties of [examples] are the eleven static keys. *)
Definition staticKeyOf (exampleParam : string) : option ExampleKey :=
  find (fun key => negb (isCustom key) && String.eqb (keyName key) exampleParam)
       allKeys.

(** What the mount effect does with the query parameters. *)
Inductive urlOutcome : Type :=
| Ignored
| Selected (key : ExampleKey) (jump : option Z).

(** The mount effect.  [exampleParam] and [stepParam] are what
    [URLSearchParams.get] returns, [None] for [null].  The embedding covers
    an [exampleParam] that is absent, empty, a key name, or any text that is
    not the name of a property [examples] inherits (for such a name
    [exampleParam in examples] holds as well).  [Selected key jump]:
    [setSelectedExample(key)], and when [jump] is [Some n] a timer that calls
    [goToStep(n)], with [n] the step of the link capped at the number of
    steps of the example named. *)
Definition loadFromURL (exampleParam stepParam : option string)
  : urlOutcome :=
  match exampleParam with
  | None => Ignored
  | Some name =>
      if JS.isEmpty name then Ignored
      else
        match staticKeyOf name with
        | None => Ignored
        | Some key =>
            Selected key
              match stepParam with
              | None => None
              | Some text =>
                  if JS.isEmpty text then None
                  else
                    match parseIntDecimal text with
                    | None => None
                    | Some stepNum =>
                        Some (Z.min stepNum
                                (Z.of_nat
                                   (length
                                      (steps (allExamples emptyCustomExample
                                                          key)))))
                    end
              end
        end
  end.

(** The call [goToStep(n)] of that timer, for [n] not negative.  The mount
    effect runs once, after the first render, and its timer calls the
    [goToStep] of that render: the state it reads is the initial one and the
    example it replays is the one selected then, [basic]. *)
Definition urlJump (n : nat) : completion :=
  goToStep initialState
           (steps (allExamples emptyCustomExample basic)) n.

(** *** The code panel *)

Module Row.
(** A line of the code panel: its number, whether it is highlighted, and the
    text shown ([line || ' ']). *)
Record t : Type := mk {
  lineNumber : nat;
  isHighlighted : bool;
  text : string
}.
End Row.

Fixpoint renderRows (highlightedLine : option nat) (lines : list string)
         (index : nat) : list Row.t :=
  match lines with
  | [] => []
  | l :: rest =>
      let lineNumber := index + 1 in
      Row.mk lineNumber
             match highlightedLine with
             | Some h => Nat.eqb h lineNumber
             | None => false
             end
             (if JS.isEmpty l then " " else l)
      :: renderRows highlightedLine rest (S index)
  end.

(** [renderCodeWithHighlight], in the render where [highlightedLine] is as
    given. *)
Definition renderCodeWithHighlight (highlightedLine : option nat)
           (code : string) : list Row.t :=
  renderRows highlightedLine (JS.split JS.nl code) 0.

(** ** Vocabulary of the further properties *)

(** The steps of [l] executed in the closure of one render, one after the
    other: the loop of [goToStep] and [prevStep]. *)
Definition run (rendered : ModelState) (l : list Step)
           (pending : ModelState) : ModelState :=
  fold_left (fun p step => executeStep rendered step p) l pending.

(** The steps of [l] executed each in the closure of the state it meets:
    what stepping forward does to the containers. *)
Definition stepping (l : list Step) (s : ModelState) : ModelState :=
  fold_left (fun p step => executeStep p step p) l s.

(** Two states that show the same model: the containers, the highlighted
    line, the explanation and the cycle count agree. *)
Definition sameModel (a b : ModelState) : Prop :=
  callStack a = callStack b /\
  taskQueue a = taskQueue b /\
  microTaskQueue a = microTaskQueue b /\
  webAPIs a = webAPIs b /\
  logs a = logs b /\
  highlightedLine a = highlightedLine b /\
  currentExplanation a = currentExplanation b /\
  eventLoopCycles a = eventLoopCycles b.

(** A step that shows something and points into the text: its explanation
    is not empty, and its line, if it has one, is between 1 and [n]. *)
Definition shownStep (n : nat) (s : Step) : Prop :=
  JS.truthy (explanation s) = true /\
  forall l, line s = Some l -> 1 <= l <= n.

(** A step of none of the three event-loop actions. *)
Definition plainStep (s : Step) : Prop :=
  isAction "moveToTaskQueue" s = false /\
  isAction "checkEventLoop" s = false /\
  isAction "processMicroTasks" s = false.

(** What holds of the state of the line loop once [n] lines are read: its
    steps are plain and shown, and every registration, recorded or under
    collection, carries the number of a line read. *)
Record scanBounds (n : nat) (st : Scan.t) : Prop := mkScanBounds {
  bounds_steps : Forall (fun s => plainStep s /\ shownStep n s) (Scan.steps st);
  bounds_tasks :
    Forall (fun t => 1 <= Task.line t <= n) (Scan.pendingTasks st);
  bounds_microtasks :
    Forall (fun t => 1 <= Microtask.line t <= n) (Scan.pendingMicrotasks st);
  bounds_active :
    forall ac, Scan.activeCallback st = Some ac ->
               1 <= ActiveCallback.line ac <= n
}.

(** What a step does to the task queue and to the microtask queue when the
    drain is not guarded: the cases of [executeStep] with the head removed
    at every [checkEventLoop] and [processMicroTasks] step. *)
Definition taskQueueStep (q : list (option string)) (s : Step)
  : list (option string) :=
  if isAction "moveToTaskQueue" s then push (callback s) q
  else if isAction "checkEventLoop" s then slice1 q
  else q.

Definition microTaskQueueStep (q : list (option string)) (s : Step)
  : list (option string) :=
  if isAction "addToMicroTask" s then push (item s) q
  else if isAction "processMicroTasks" s then slice1 q
  else q.

(** Two promise registrations, each on one line without a logging call. *)
Definition twoPromisesSnippet : string :=
  JS.joinLines [ "Promise.resolve().then(first);";
                 "Promise.resolve().then(second);" ].

(** A step that says something when it logs: the message of a [log] step
    is there and is not empty. *)
Definition spokenStep (s : Step) : Prop :=
  isAction "log" s = true -> JS.truthy (message s) = true.

Definition spokenAll (messages : list string) : Prop :=
  Forall (fun m => JS.isEmpty m = false) messages.

(** What holds of the messages in the state of the line loop: no [log] step
    and no registration, recorded or under collection, carries an empty
    message. *)
Record scanSpoken (st : Scan.t) : Prop := mkScanSpoken {
  spoken_steps : Forall spokenStep (Scan.steps st);
  spoken_tasks :
    Forall (fun t => spokenAll (Task.messages t)) (Scan.pendingTasks st);
  spoken_microtasks :
    Forall (fun t => spokenAll (Microtask.messages t))
           (Scan.pendingMicrotasks st);
  spoken_active :
    forall ac, Scan.activeCallback st = Some ac ->
               spokenAll (ActiveCallback.messages ac)
}.

(** Every line number among the steps of an example is the number of a line
    of its code. *)
Definition linesWithinCode (ex : Example) : bool :=
  forallb (fun s => match line s with
                    | Some l =>
                        Nat.leb 1 l
                        && Nat.leb l (length (JS.split JS.nl (code ex)))
                    | None => true
                    end)
          (steps ex).

(** ** The interpreter: single steps *)

(** With the action of a step known, [executeStep] reduces to its case. *)
Ltac known_action H :=
  apply String.eqb_eq in H;
  unfold executeStep, isAction; rewrite H; simpl;
  repeat match goal with
         | |- context [match ?x with _ => _ end] => destruct x
         end;
  simpl.

Lemma reset_is_initial (s : ModelState) :
  reset (setIsRunning s false) = initialState.
Proof. reflexivity. Qed.

(** A replay inside the range of the steps never raises. *)
Lemma replayLoop_total (rendered : ModelState) (all : list Step) :
  forall count i pending,
    i + count <= length all ->
    exists s, replayLoop rendered all i count pending = Normal s.
Proof.
  induction count as [|count IH]; intros i pending Hle; simpl.
  - eauto.
  - destruct (nth_error all i) as [step|] eqn:Hnth.
    + apply IH. lia.
    + apply nth_error_None in Hnth. lia.
Qed.

Lemma goToStep_total (rendered : ModelState) (all : list Step) (k : nat) :
  k <= length all -> exists s, goToStep rendered all k = Normal s.
Proof.
  intros Hk. unfold goToStep.
  destruct (replayLoop_total rendered all k 0
              (reset (setIsRunning rendered false))) as [s Hs]; [lia|].
  rewrite Hs. eauto.
Qed.

(** The replay reads the rendered state through the two guards only. *)
Lemma executeStep_closure (r1 r2 : ModelState) (step : Step)
      (pending : ModelState) :
  Nat.ltb 0 (length (microTaskQueue r1)) = Nat.ltb 0 (length (microTaskQueue r2)) ->
  Nat.ltb 0 (length (taskQueue r1)) = Nat.ltb 0 (length (taskQueue r2)) ->
  executeStep r1 step pending = executeStep r2 step pending.
Proof.
  intros Hm Ht. unfold executeStep. rewrite Hm, Ht. reflexivity.
Qed.

Lemma replayLoop_closure (r1 r2 : ModelState) (all : list Step) :
  Nat.ltb 0 (length (microTaskQueue r1)) = Nat.ltb 0 (length (microTaskQueue r2)) ->
  Nat.ltb 0 (length (taskQueue r1)) = Nat.ltb 0 (length (taskQueue r2)) ->
  forall count i pending,
    replayLoop r1 all i count pending = replayLoop r2 all i count pending.
Proof.
  intros Hm Ht. induction count as [|count IH]; intros i pending; simpl.
  - reflexivity.
  - destruct (nth_error all i); [|reflexivity].
    rewrite (executeStep_closure r1 r2) by assumption. apply IH.
Qed.

(** Two replays agree as soon as the renders they start from agree on
    whether the two queues are empty. *)
Lemma goToStep_closure (r1 r2 : ModelState) (all : list Step) (k : nat) :
  Nat.ltb 0 (length (microTaskQueue r1)) = Nat.ltb 0 (length (microTaskQueue r2)) ->
  Nat.ltb 0 (length (taskQueue r1)) = Nat.ltb 0 (length (taskQueue r2)) ->
  goToStep r1 all k = goToStep r2 all k.
Proof.
  intros Hm Ht. unfold goToStep. rewrite !reset_is_initial.
  rewrite (replayLoop_closure r1 r2) by assumption. reflexivity.
Qed.

(** C10.  A [moveToTaskQueue] step applied to an empty [webAPIs] does not
    fail: the registry stays empty, the step's own [callback] field is
    appended to the task queue, which grows by one entry, and a replay made
    of this single step completes normally. *)
Theorem moveToTaskQueue_on_empty_registry
        (rendered : ModelState) (step : Step) (pending : ModelState) :
  isAction "moveToTaskQueue" step = true ->
  webAPIs pending = [] ->
  webAPIs (executeStep rendered step pending) = [] /\
  taskQueue (executeStep rendered step pending)
    = (taskQueue pending ++ [callback step])%list /\
  length (taskQueue (executeStep rendered step pending))
    = S (length (taskQueue pending)) /\
  exists s, goToStep rendered [step] 1 = Normal s /\
            webAPIs s = [] /\ taskQueue s = [callback step].
Proof.
  intros Hact Hempty.
  assert (Hweb : forall p, webAPIs p = [] ->
                           webAPIs (executeStep rendered step p) = []).
  { intros p Hp. pose proof Hact as H. known_action H; rewrite Hp; reflexivity. }
  assert (Htq : forall p, taskQueue (executeStep rendered step p)
                          = (taskQueue p ++ [callback step])%list).
  { intros p. pose proof Hact as H. known_action H; reflexivity. }
  repeat split.
  - apply Hweb, Hempty.
  - apply Htq.
  - rewrite Htq, length_app. simpl. lia.
  - unfold goToStep. simpl. rewrite reset_is_initial.
    eexists. split; [reflexivity|]. simpl. split.
    + apply Hweb. reflexivity.
    + rewrite Htq. reflexivity.
Qed.

Lemma moveToTaskQueue_on_empty_registry_witness :
  let step := moveStep "animate()" (Some 4) "frame" in
  isAction "moveToTaskQueue" step = true /\
  webAPIs initialState = [] /\
  webAPIs (executeStep initialState step initialState) = [] /\
  taskQueue (executeStep initialState step initialState)
    = [Some "animate()"].
Proof.
  intros step.
  destruct (moveToTaskQueue_on_empty_registry initialState step initialState)
    as (H1 & H2 & _); [reflexivity | reflexivity |].
  split; [reflexivity|]. split; [reflexivity|].
  split; [exact H1 | exact H2].
Defined.

(** C4, as the code has it.  A [moveToTaskQueue] step removes the first
    entry of [webAPIs] and appends the step's own [callback] field to the
    task queue; the callback stored in the removed entry is dropped, and no
    other container changes. *)
Theorem moveToTaskQueue_appends_step_callback
        (rendered : ModelState) (step : Step) (pending : ModelState) :
  isAction "moveToTaskQueue" step = true ->
  webAPIs (executeStep rendered step pending) = tl (webAPIs pending) /\
  taskQueue (executeStep rendered step pending)
    = (taskQueue pending ++ [callback step])%list /\
  callStack (executeStep rendered step pending) = callStack pending /\
  microTaskQueue (executeStep rendered step pending)
    = microTaskQueue pending /\
  logs (executeStep rendered step pending) = logs pending /\
  eventLoopCycles (executeStep rendered step pending)
    = eventLoopCycles pending.
Proof.
  intros Hact. known_action Hact; repeat split; reflexivity.
Qed.

Lemma moveToTaskQueue_appends_step_callback_witness :
  let step := moveStep "second" (Some 2) "timer done" in
  let pending :=
    setWebAPIs initialState
      (fun _ => [WebAPIItem.mk (Some "Timer: 0ms") (Some "first")]) in
  isAction "moveToTaskQueue" step = true /\
  webAPIs (executeStep initialState step pending) = [] /\
  taskQueue (executeStep initialState step pending) = [Some "second"].
Proof.
  intros step pending.
  destruct (moveToTaskQueue_appends_step_callback initialState step pending)
    as (H1 & H2 & _); [reflexivity|].
  split; [reflexivity|]. split; [exact H1 | exact H2].
Defined.

(** C4 as stated fails on the authored debounce example: its eighteenth
    step is a [moveToTaskQueue]; the entry it removes is the first timer,
    whose stored callback logs [Search: H], and the value it appends to the
    task queue is the step's own callback, which logs [Search: Hel]. *)
Lemma moveToTaskQueue_registered_callback_counterexample :
  exists (before : ModelState) (step : Step) (entry : WebAPIItem.t)
         (rest : list WebAPIItem.t),
    goToStep initialState Examples.debounce_steps 17 = Normal before /\
    nth_error Examples.debounce_steps 17 = Some step /\
    isAction "moveToTaskQueue" step = true /\
    webAPIs before = entry :: rest /\
    WebAPIItem.callback entry
      = Some ("console.log(" ++ JS.quoted "Search: H" ++ ")") /\
    webAPIs (executeStep before step before) = rest /\
    taskQueue (executeStep before step before)
      <> (taskQueue before ++ [WebAPIItem.callback entry])%list.
Proof.
  do 4 eexists.
  split; [vm_compute; reflexivity|].
  split; [vm_compute; reflexivity|].
  split; [reflexivity|].
  split; [reflexivity|].
  split; [reflexivity|].
  split; [reflexivity|].
  vm_compute. discriminate.
Qed.

(** C7, as the code has it.  A [removeFromStack] step applied to an empty
    stack is a silent no-op: the stack stays empty, the queues, the
    registry, the log and the cycle count are untouched, and a replay of
    any steps up to an index within their range completes normally. *)
Theorem removeFromStack_on_empty_stack
        (rendered : ModelState) (step : Step) (pending : ModelState) :
  isAction "removeFromStack" step = true ->
  callStack pending = [] ->
  callStack (executeStep rendered step pending) = [] /\
  taskQueue (executeStep rendered step pending) = taskQueue pending /\
  microTaskQueue (executeStep rendered step pending)
    = microTaskQueue pending /\
  webAPIs (executeStep rendered step pending) = webAPIs pending /\
  logs (executeStep rendered step pending) = logs pending /\
  eventLoopCycles (executeStep rendered step pending)
    = eventLoopCycles pending /\
  forall (all : list Step) (k : nat),
    k <= length all -> exists s, goToStep rendered all k = Normal s.
Proof.
  intros Hact Hempty.
  split; [|split; [|split; [|split; [|split; [|split]]]]];
    try (pose proof Hact as H; known_action H; try rewrite Hempty; reflexivity).
  intros all k. apply goToStep_total.
Qed.

Lemma removeFromStack_on_empty_stack_witness :
  let step := popStep "RAF scheduled." in
  isAction "removeFromStack" step = true /\
  callStack initialState = [] /\
  callStack (executeStep initialState step initialState) = [].
Proof.
  intros step.
  destruct (removeFromStack_on_empty_stack initialState step initialState)
    as (H1 & _); [reflexivity | reflexivity |].
  split; [reflexivity|]. split; [reflexivity | exact H1].
Defined.

(** C7 as stated fails: replaying the single step [removeFromStack] from the
    first render, where the stack is empty, ends normally, with the stack
    still empty; and the authored animation-frame example, whose last step
    pops an empty stack, replays to its end without an error. *)
Lemma removeFromStack_fatal_counterexample :
  (exists s, goToStep initialState [popStep "done"] 1 = Normal s /\
             callStack s = []) /\
  (exists before s,
     goToStep initialState Examples.requestAnimationFrame_steps 30
       = Normal before /\
     callStack before = [] /\
     option_map (isAction "removeFromStack")
                (nth_error Examples.requestAnimationFrame_steps 30)
       = Some true /\
     goToStep initialState Examples.requestAnimationFrame_steps 31
       = Normal s /\
     callStack s = []).
Proof.
  split.
  - eexists. split; vm_compute; reflexivity.
  - do 2 eexists.
    split; [vm_compute; reflexivity|].
    split; [reflexivity|].
    split; [reflexivity|].
    split; vm_compute; reflexivity.
Qed.

(** ** The interpreter: replays *)

(** C9 fails on the code at the authored promise example.  Replayed to its
    end from the first render, it leaves one entry in each queue, because the
    guards of [processMicroTasks] and [checkEventLoop] read the queues of
    the first render, which are empty; replayed again with the same
    arguments, from the render that the first replay produced, the guards
    see non-empty queues and both entries are removed.  The two replays
    differ in [microTaskQueue] and [taskQueue]. *)
Theorem goToStep_twice_differs :
  exists first second : ModelState,
    goToStep initialState Examples.promise_steps 21 = Normal first /\
    goToStep first Examples.promise_steps 21 = Normal second /\
    microTaskQueue first
      = [Some ("console.log(" ++ JS.quoted "Promise" ++ ")")] /\
    taskQueue first
      = [Some ("console.log(" ++ JS.quoted "Timeout" ++ ")")] /\
    microTaskQueue second = [] /\
    taskQueue second = [] /\
    first <> second.
Proof.
  do 2 eexists.
  split; [vm_compute; reflexivity|].
  split; [vm_compute; reflexivity|].
  split; [reflexivity|].
  split; [reflexivity|].
  split; [reflexivity|].
  split; [reflexivity|].
  discriminate.
Qed.

(** The log of a replay does not depend on the render it starts from: no
    guard stands in front of a [log] step. *)
Lemma executeStep_logs (r1 r2 : ModelState) (step : Step)
      (p1 p2 : ModelState) :
  logs p1 = logs p2 ->
  logs (executeStep r1 step p1) = logs (executeStep r2 step p2).
Proof.
  intros H. unfold executeStep.
  destruct (line step); destruct (explanation step) as [e|];
    try destruct (JS.isEmpty e);
    repeat match goal with
           | |- context [if ?b then _ else _] => destruct b
           end; simpl; try rewrite H; reflexivity.
Qed.

Lemma replayLoop_logs (r1 r2 : ModelState) (all : list Step) :
  forall count i p1 p2,
    logs p1 = logs p2 ->
    logs (stateOf (replayLoop r1 all i count p1))
    = logs (stateOf (replayLoop r2 all i count p2)).
Proof.
  induction count as [|count IH]; intros i p1 p2 H; simpl.
  - exact H.
  - destruct (nth_error all i); simpl; [|exact H].
    apply IH. apply executeStep_logs. exact H.
Qed.

Lemma goToStep_logs (r1 r2 : ModelState) (all : list Step) (k : nat) :
  logs (stateOf (goToStep r1 all k)) = logs (stateOf (goToStep r2 all k)).
Proof.
  unfold goToStep. rewrite !reset_is_initial.
  pose proof (replayLoop_logs r1 r2 all k 0 initialState initialState
                              eq_refl) as H.
  destruct (replayLoop r1 all 0 k initialState),
           (replayLoop r2 all 0 k initialState); simpl in *; exact H.
Qed.

(** ** The compiler on the scenarios of the specification *)

(** A top-level line with a logging call is a synchronous log, whatever else
    the line holds: the test for a logging call comes first, so the
    [setTimeout] and [Promise] branches never see such a line. *)
Lemma scanTopLine_log_call_first (st : Scan.t) (trimmedLine : string)
      (lineNum : nat) :
  hasLogCall trimmedLine = true ->
  JS.startsWith "//" trimmedLine = false ->
  Scan.steps (scanTopLine st trimmedLine lineNum)
  = (Scan.steps st ++ logLineSteps trimmedLine lineNum)%list /\
  Scan.pendingTasks (scanTopLine st trimmedLine lineNum)
  = Scan.pendingTasks st /\
  Scan.pendingMicrotasks (scanTopLine st trimmedLine lineNum)
  = Scan.pendingMicrotasks st.
Proof.
  intros Hlog Hcomment. unfold scanTopLine.
  rewrite Hlog, Hcomment.
  destruct trimmedLine; [discriminate|]. simpl. auto.
Qed.

(** A match of a pattern that opens with a literal needs the literal in the
    text. *)
Lemma prefix_app (a b s : string) :
  String.prefix (a ++ b) s = true -> String.prefix a s = true.
Proof.
  revert s. induction a as [|c a IH]; intros s H.
  - destruct s; reflexivity.
  - destruct s as [|c' s]; [discriminate|]. simpl in *.
    destruct (ascii_dec c c'); [apply IH, H|discriminate].
Qed.

Lemma matchHere_lit (p : string) (r : Regex.pattern) :
  forall cap s c,
    Regex.matchHere (Regex.lit p ++ r)%list cap s = Some c ->
    String.prefix p s = true.
Proof.
  induction p as [|a p IH]; intros cap s c H.
  - destruct s; reflexivity.
  - simpl in H. destruct s as [|b s]; [discriminate|].
    unfold Regex.exactly in H. destruct (Ascii.eqb_spec a b) as [->|Hne];
      [|discriminate].
    simpl. destruct (ascii_dec b b); [|congruence].
    eapply IH. exact H.
Qed.

Lemma search_lit (p : string) (r : Regex.pattern) (s : string) :
  forall c,
    Regex.search (Regex.lit p ++ r)%list s = Some c -> JS.includes p s = true.
Proof.
  induction s as [|b s IH]; intros c H; simpl in H.
  - destruct (Regex.matchHere (Regex.lit p ++ r)%list None EmptyString) eqn:Hm;
      [|discriminate].
    apply matchHere_lit in Hm.
    change (JS.includes p EmptyString)
      with (String.prefix p EmptyString || false).
    rewrite Hm. reflexivity.
  - destruct (Regex.matchHere (Regex.lit p ++ r)%list None (String b s)) eqn:Hm.
    + apply matchHere_lit in Hm.
      change (JS.includes p (String b s))
        with (String.prefix p (String b s) || JS.includes p s).
      rewrite Hm. reflexivity.
    + change (JS.includes p (String b s))
        with (String.prefix p (String b s) || JS.includes p s).
      rewrite (IH _ H). apply orb_true_r.
Qed.

Lemma includes_app (a b s : string) :
  JS.includes (a ++ b) s = true -> JS.includes a s = true.
Proof.
  induction s as [|c s IH]; intros H.
  - change (JS.includes a EmptyString)
      with (String.prefix a EmptyString || false).
    change (JS.includes (a ++ b) EmptyString)
      with (String.prefix (a ++ b) EmptyString || false) in H.
    rewrite orb_false_r in *. apply (prefix_app a b), H.
  - change (JS.includes a (String c s))
      with (String.prefix a (String c s) || JS.includes a s).
    change (JS.includes (a ++ b) (String c s))
      with (String.prefix (a ++ b) (String c s) || JS.includes (a ++ b) s) in H.
    apply orb_true_iff in H. apply orb_true_iff. destruct H as [H|H].
    + left. apply (prefix_app a b), H.
    + right. apply IH, H.
Qed.

(** The inline-callback pattern starts with the text of a logging call: past
    the test for one it cannot match. *)
Lemma inlineLog_needs_log_call (trimmedLine : string) :
  hasLogCall trimmedLine = false ->
  Regex.group1 Regex.inlineLog trimmedLine = None.
Proof.
  intros H. unfold Regex.group1.
  destruct (Regex.search Regex.inlineLog trimmedLine) as [c|] eqn:Hs;
    [|reflexivity].
  unfold Regex.inlineLog in Hs. apply search_lit in Hs.
  apply (includes_app "console.log" "(") in Hs.
  unfold hasLogCall in H. rewrite Hs in H. discriminate.
Qed.

(** So the [setTimeout] branch never captures an inline logging callback:
    every timer registration of a line carries the callback text
    [setTimeout callback] and no message of its own. *)
Lemma scanTopLine_timer_callback_not_captured
      (st : Scan.t) (trimmedLine : string) (lineNum : nat) :
  JS.isEmpty trimmedLine || JS.startsWith "//" trimmedLine = false ->
  hasLogCall trimmedLine = false ->
  JS.includes "setTimeout" trimmedLine = true ->
  exists delay : N,
    scanTopLine st trimmedLine lineNum
    = register ActiveCallback.task st
               (timeoutLineSteps delay "setTimeout callback" lineNum)
               trimmedLine lineNum delay "setTimeout callback" None.
Proof.
  intros Hskip Hlog Hset. unfold scanTopLine.
  rewrite Hskip, Hlog, Hset, (inlineLog_needs_log_call _ Hlog).
  eexists. reflexivity.
Qed.

(** C1 on the code.  The four-line snippet compiles to an example, and the
    full replay of its steps, from any render, logs
    [Start, Timeout, Promise, End]: the two one-line registrations contain a
    logging call and are compiled as synchronous logs.  The expected order
    [Start, End, Promise, Timeout] is not produced. *)
Theorem coverageSnippet_log_order :
  exists ex : Example,
    parseCustomCode coverageSnippet = (Some ex, EmptyString) /\
    countOf "addToWebAPI" (steps ex) = 0 /\
    countOf "addToMicroTask" (steps ex) = 0 /\
    forall rendered : ModelState,
      exists s,
        goToStep rendered (steps ex) (length (steps ex)) = Normal s /\
        logs s = [Some "Start"; Some "Timeout"; Some "Promise"; Some "End"] /\
        logs s <> [Some "Start"; Some "End"; Some "Promise"; Some "Timeout"].
Proof.
  exists (mkExample "Custom Code" "Your custom example" coverageSnippet
                    (compileSteps coverageSnippet)).
  split; [vm_compute; reflexivity|].
  split; [vm_compute; reflexivity|].
  split; [vm_compute; reflexivity|].
  intros rendered. cbn [steps].
  destruct (goToStep_total rendered (compileSteps coverageSnippet)
              (length (compileSteps coverageSnippet)) (Nat.le_refl _))
    as [s Hs].
  exists s. split; [exact Hs|].
  assert (Hl : logs s
               = logs (stateOf (goToStep initialState
                                  (compileSteps coverageSnippet)
                                  (length (compileSteps coverageSnippet))))).
  { rewrite <- (goToStep_logs rendered initialState), Hs. reflexivity. }
  rewrite Hl. split; [vm_compute; reflexivity | vm_compute; discriminate].
Qed.

(** The same program written over several lines, the snippet of the authored
    promise example, compiles to the expected order. *)
Lemma promise_code_log_order :
  map message (stepsOf "log" (compileSteps Examples.promise_code))
  = [Some "Start"; Some "End"; Some "Promise"; Some "Timeout"].
Proof. vm_compute. reflexivity. Qed.

(** C8.  When no step is produced for the text in the editor,
    [parseCustomCode] returns no example and leaves the reason
    [noValidJavaScript] in [codeError]; [runCustomCode] then ends with a
    non-empty [codeError] and leaves the stored custom example, the selected
    example and the model state as they were.  No text at all compiles to an
    example without steps. *)
Theorem no_steps_is_a_compile_error (app : AppState) :
  compileSteps (customCode app) = [] ->
  parseCustomCode (customCode app) = (None, noValidJavaScript) /\
  codeError (runCustomCode app) <> EmptyString /\
  customExample (runCustomCode app) = customExample app /\
  selectedExample (runCustomCode app) = selectedExample app /\
  model (runCustomCode app) = model app /\
  forall (code : string) (ex : Example) (err : string),
    parseCustomCode code = (Some ex, err) -> steps ex <> [].
Proof.
  intros Hnone.
  assert (Hparse : parseCustomCode (customCode app) = (None, noValidJavaScript)).
  { unfold parseCustomCode. rewrite Hnone. reflexivity. }
  split; [exact Hparse|].
  unfold runCustomCode. rewrite Hparse.
  destruct (JS.isEmpty (JS.trim (customCode app))); simpl;
    (split; [discriminate|]); (split; [reflexivity|]);
    (split; [reflexivity|]); (split; [reflexivity|]);
    intros code ex err; unfold parseCustomCode;
    destruct (compileSteps code) eqn:Hsteps; intros H; inversion H;
    simpl; discriminate.
Qed.

Lemma no_steps_is_a_compile_error_witness :
  let app := mkApp initialState basic customMode "// only a comment"
                   EmptyString Examples.basic in
  compileSteps (customCode app) = [] /\
  parseCustomCode (customCode app) = (None, noValidJavaScript) /\
  customExample (runCustomCode app) = Examples.basic.
Proof.
  intros app.
  destruct (no_steps_is_a_compile_error app) as (H1 & _ & H3 & _);
    [vm_compute; reflexivity|].
  split; [vm_compute; reflexivity|]. split; [exact H1 | exact H3].
Defined.

(** ** The shape of the compiled steps *)

Lemma stepsOf_app (a : string) (l1 l2 : list Step) :
  stepsOf a (l1 ++ l2) = (stepsOf a l1 ++ stepsOf a l2)%list.
Proof. apply filter_app. Qed.

Lemma countOf_app (a : string) (l1 l2 : list Step) :
  countOf a (l1 ++ l2) = countOf a l1 + countOf a l2.
Proof. unfold countOf. rewrite stepsOf_app. apply length_app. Qed.

Lemma depthAfter_app (l1 l2 : list Step) :
  forall d,
    depthAfter d (l1 ++ l2)
    = match depthAfter d l1 with
      | Some d' => depthAfter d' l2
      | None => None
      end.
Proof.
  induction l1 as [|s l1 IH]; intros d; simpl.
  - reflexivity.
  - destruct (isAction "addToStack" s); [apply IH|].
    destruct (isAction "removeFromStack" s); [|apply IH].
    destruct d; [reflexivity|apply IH].
Qed.

Lemma stateAfter_app (dw : nat * bool) (l1 l2 : list Step) :
  stateAfter dw (l1 ++ l2) = stateAfter (stateAfter dw l1) l2.
Proof. apply fold_left_app. Qed.

Lemma nextIsProcess_app (l1 l2 : list Step) :
  nextIsProcess l1 = true -> nextIsProcess (l1 ++ l2) = true.
Proof. destruct l1; simpl; [discriminate|auto]. Qed.

Lemma allowed_app (dw : nat * bool) (s : Step) (l1 l2 : list Step) :
  allowed dw s l1 = true -> allowed dw s (l1 ++ l2) = true.
Proof.
  unfold allowed. destruct dw as [depth waiting].
  destruct (isAction "processMicroTasks" s); [auto|].
  destruct (isAction "moveToTaskQueue" s); [auto|].
  destruct (isAction "checkEventLoop" s); [|auto].
  intros H. apply andb_true_iff in H. destruct H as [Hd Hw].
  rewrite Hd. simpl. apply orb_true_iff in Hw. apply orb_true_iff.
  destruct Hw as [Hw|Hw]; [left; exact Hw|right].
  apply nextIsProcess_app. exact Hw.
Qed.

Lemma ordered_app (l1 l2 : list Step) :
  forall dw,
    ordered dw l1 = true ->
    ordered (stateAfter dw l1) l2 = true ->
    ordered dw (l1 ++ l2) = true.
Proof.
  induction l1 as [|s l1 IH]; intros dw H1 H2; simpl in *.
  - exact H2.
  - apply andb_true_iff in H1. destruct H1 as [Ha Ho].
    apply andb_true_iff. split.
    + apply allowed_app. exact Ha.
    + apply IH; assumption.
Qed.

Lemma quiet_nil : quiet 0 [].
Proof.
  constructor; intros; try reflexivity.
  simpl. rewrite orb_false_r. reflexivity.
Qed.

Lemma quiet_app (n1 n2 : nat) (l1 l2 : list Step) :
  quiet n1 l1 -> quiet n2 l2 -> quiet (n1 + n2) (l1 ++ l2).
Proof.
  intros [D1 O1 S1 M1 C1] [D2 O2 S2 M2 C2]. constructor.
  - intros d. rewrite depthAfter_app, D1. apply D2.
  - intros dw. apply ordered_app; [apply O1 | apply O2].
  - intros d w. rewrite stateAfter_app, S1, S2.
    rewrite <- orb_assoc. f_equal.
    destruct n1, n2; reflexivity.
  - rewrite stepsOf_app, M1, M2. reflexivity.
  - rewrite countOf_app, C1, C2. reflexivity.
Qed.

Lemma quiet_flat_map {A : Type} (f : A -> list Step) (l : list A) :
  (forall x, quiet 0 (f x)) -> quiet 0 (flat_map f l).
Proof.
  intros H. induction l as [|x l IH]; simpl.
  - apply quiet_nil.
  - apply (quiet_app 0 0); [apply H | exact IH].
Qed.

(** The groups of steps the compiler emits outside the event-loop steps. *)
Ltac quiet_group :=
  constructor;
  [ intros ?; reflexivity
  | intros [? ?]; reflexivity
  | intros ? ?; simpl; rewrite ?orb_false_r, ?orb_true_r; reflexivity
  | reflexivity
  | reflexivity ].

Lemma quiet_logLineSteps (t : string) (n : nat) : quiet 0 (logLineSteps t n).
Proof. quiet_group. Qed.

Lemma quiet_timeoutLineSteps (d : N) (c : string) (n : nat) :
  quiet 0 (timeoutLineSteps d c n).
Proof. quiet_group. Qed.

Lemma quiet_promiseLineSteps (c : string) (n : nat) :
  quiet 1 (promiseLineSteps c n).
Proof. quiet_group. Qed.

Lemma quiet_syncLogSteps (l : SyncLog.t) : quiet 0 (syncLogSteps l).
Proof. quiet_group. Qed.

Lemma quiet_callbackSteps (what done callback : string) (n : nat)
      (messages : list string) :
  quiet 0 (callbackSteps what done callback n messages).
Proof.
  unfold callbackSteps. destruct messages as [|m ms].
  - quiet_group.
  - apply quiet_flat_map. intros x. quiet_group.
Qed.

(** *** The line loop *)

Lemma length_push {A : Type} (x : A) (l : list A) :
  length (push x l) = S (length l).
Proof. unfold push. rewrite length_app. simpl. lia. Qed.

Lemma scanInv_start : scanInv Scan.start.
Proof.
  constructor; try reflexivity. exists 0. apply quiet_nil.
Qed.

Lemma scanBodyLine_inv (st : Scan.t) (ac : ActiveCallback.t)
      (trimmedLine : string) :
  Scan.activeCallback st = Some ac ->
  scanInv st -> scanInv (scanBodyLine st ac trimmedLine).
Proof.
  intros Hac [Hq Ht Hm]. unfold openOf in Ht, Hm. rewrite Hac in Ht, Hm.
  unfold scanBodyLine, closeCallback, pushPending.
  destruct (hasLogCall trimmedLine);
    destruct (Scan.callbackDepth st + JS.countChar trimmedLine "{"
              - JS.countChar trimmedLine "}" <=? 0)%Z;
    destruct ac as [k l d ms cb]; destruct k; simpl in *;
    constructor; unfold openOf; simpl; rewrite ?length_push;
    try assumption; lia.
Qed.

Lemma register_inv (k : ActiveCallback.kind_t) (st : Scan.t)
      (newSteps : list Step) (trimmedLine : string) (lineNum : nat)
      (delay : N) (callback : string) (callbackMatch : option string) :
  Scan.activeCallback st = None ->
  scanInv st ->
  quiet (match k with
         | ActiveCallback.task => 0
         | ActiveCallback.microtask => 1
         end) newSteps ->
  countOf "addToWebAPI" newSteps
  = match k with
    | ActiveCallback.task => 1
    | ActiveCallback.microtask => 0
    end ->
  scanInv (register k st newSteps trimmedLine lineNum delay callback
                    callbackMatch).
Proof.
  intros Hac [[n Hq] Ht Hm] Hnew Hweb.
  unfold openOf in Ht, Hm. rewrite Hac in Ht, Hm.
  pose proof (quiet_micro _ _ Hq) as Hn.
  pose proof (quiet_micro _ _ Hnew) as Hn'.
  pose proof (quiet_app _ _ _ _ Hq Hnew) as Hq'.
  unfold register, closeCallback, pushPending.
  destruct (JS.includes "{" trimmedLine);
    try destruct (JS.countChar trimmedLine "{"
                  - JS.countChar trimmedLine "}" <=? 0)%Z;
    destruct k; simpl in *;
    constructor; unfold openOf; simpl;
    rewrite ?length_push, ?countOf_app, ?Hac; simpl;
    try (eexists; exact Hq'); lia.
Qed.

Lemma scanTopLine_inv (st : Scan.t) (trimmedLine : string) (lineNum : nat) :
  Scan.activeCallback st = None ->
  scanInv st -> scanInv (scanTopLine st trimmedLine lineNum).
Proof.
  intros Hac Hinv. unfold scanTopLine.
  destruct (JS.isEmpty trimmedLine || JS.startsWith "//" trimmedLine);
    [exact Hinv|].
  destruct (hasLogCall trimmedLine).
  { destruct Hinv as [[n Hq] Ht Hm].
    constructor; simpl; unfold openOf in *; simpl.
    - exists (n + 0).
      apply quiet_app; [exact Hq | apply quiet_logLineSteps].
    - rewrite countOf_app, Ht.
      change (countOf "addToWebAPI" (logLineSteps trimmedLine lineNum))
        with 0. lia.
    - rewrite countOf_app, Hm.
      change (countOf "addToMicroTask" (logLineSteps trimmedLine lineNum))
        with 0. lia. }
  destruct (JS.includes "setTimeout" trimmedLine).
  { apply register_inv; try assumption.
    - apply quiet_timeoutLineSteps.
    - reflexivity. }
  destruct (JS.includes "Promise.resolve()" trimmedLine
            && JS.includes ".then" trimmedLine); [|exact Hinv].
  apply register_inv; try assumption.
  - apply quiet_promiseLineSteps.
  - reflexivity.
Qed.

Lemma scanLine_inv (st : Scan.t) (index : nat) (l : string) :
  scanInv st -> scanInv (scanLine st index l).
Proof.
  intros Hinv. unfold scanLine.
  destruct (Scan.activeCallback st) as [ac|] eqn:Hac.
  - apply scanBodyLine_inv; assumption.
  - apply scanTopLine_inv; assumption.
Qed.

Lemma scanLines_inv (lines : list string) :
  forall index st, scanInv st -> scanInv (scanLines lines index st).
Proof.
  induction lines as [|l lines IH]; intros index st Hinv; simpl.
  - exact Hinv.
  - apply IH. apply scanLine_inv. exact Hinv.
Qed.

Lemma scanOf_inv (code : string) : scanInv (scanOf code).
Proof. apply scanLines_inv, scanInv_start. Qed.

(** *** The two phases after the line loop *)

Lemma countOf_flat_map_zero {A : Type} (a : string) (f : A -> list Step)
      (l : list A) :
  (forall x, countOf a (f x) = 0) -> countOf a (flat_map f l) = 0.
Proof.
  intros H. induction l as [|x l IH]; cbn [flat_map]; [reflexivity|].
  rewrite countOf_app, H, IH. reflexivity.
Qed.

Lemma callbackSteps_no_registration (what done callback : string) (n : nat)
      (messages : list string) :
  countOf "addToWebAPI" (callbackSteps what done callback n messages) = 0.
Proof.
  unfold callbackSteps. destruct messages as [|m ms]; [reflexivity|].
  apply countOf_flat_map_zero. intros x. reflexivity.
Qed.

Lemma quiet_microtaskSteps (t : Microtask.t) : quiet 0 (microtaskSteps t).
Proof. apply quiet_callbackSteps. Qed.

Lemma microtaskPhase_depth (pm : list Microtask.t) (d : nat) :
  depthAfter d (microtaskPhase pm) = Some d.
Proof.
  destruct pm as [|t pm]; [reflexivity|].
  unfold microtaskPhase.
  change (depthAfter d (flat_map microtaskSteps (t :: pm)) = Some d).
  apply (quiet_depth 0), quiet_flat_map, quiet_microtaskSteps.
Qed.

Lemma microtaskPhase_no_move (pm : list Microtask.t) :
  stepsOf "moveToTaskQueue" (microtaskPhase pm) = [].
Proof.
  destruct pm as [|t pm]; [reflexivity|].
  unfold microtaskPhase.
  change (stepsOf "moveToTaskQueue" (flat_map microtaskSteps (t :: pm)) = []).
  apply (quiet_move 0), quiet_flat_map, quiet_microtaskSteps.
Qed.

Lemma microtaskPhase_no_registration (pm : list Microtask.t) :
  countOf "addToWebAPI" (microtaskPhase pm) = 0.
Proof.
  destruct pm as [|t pm]; [reflexivity|].
  unfold microtaskPhase.
  change (countOf "addToWebAPI" (flat_map microtaskSteps (t :: pm)) = 0).
  apply countOf_flat_map_zero. intros x.
  apply callbackSteps_no_registration.
Qed.

(** With a registration in the bucket, the phase opens with the marker and
    the [processMicroTasks] step: it is in order whatever was waiting, and
    nothing waits after it. *)
Lemma microtaskPhase_ordered (pm : list Microtask.t) (w : bool) :
  pm <> [] ->
  ordered (0, w) (microtaskPhase pm) = true /\
  stateAfter (0, w) (microtaskPhase pm) = (0, false).
Proof.
  intros Hne. destruct pm as [|t pm]; [contradiction|].
  pose proof (quiet_flat_map microtaskSteps (t :: pm) quiet_microtaskSteps)
    as Hq.
  unfold microtaskPhase. split.
  - change (Nat.eqb 0 0 && (negb w || true)
            && (true && ordered (0, false)
                          (flat_map microtaskSteps (t :: pm))) = true).
    rewrite (quiet_ordered _ _ Hq). destruct w; reflexivity.
  - change (stateAfter (0, false) (flat_map microtaskSteps (t :: pm))
            = (0, false)).
    rewrite (quiet_state _ _ Hq). reflexivity.
Qed.

Lemma taskSteps_depth (t : Task.t) (d : nat) :
  depthAfter d (taskSteps t) = Some d.
Proof.
  unfold taskSteps. simpl. apply (quiet_depth 0), quiet_callbackSteps.
Qed.

Lemma taskSteps_ordered (t : Task.t) :
  ordered (0, false) (taskSteps t) = true /\
  stateAfter (0, false) (taskSteps t) = (0, false).
Proof.
  pose proof (quiet_callbackSteps "Executing callback: " "Callback complete"
                (Task.callback t) (Task.line t) (Task.messages t)) as Hq.
  unfold taskSteps. split.
  - simpl. rewrite (quiet_ordered _ _ Hq). reflexivity.
  - change (stateAfter (0, false)
              (callbackSteps "Executing callback: " "Callback complete"
                 (Task.callback t) (Task.line t) (Task.messages t))
            = (0, false)).
    rewrite (quiet_state _ _ Hq). reflexivity.
Qed.

Lemma taskSteps_move (t : Task.t) :
  stepsOf "moveToTaskQueue" (taskSteps t) = [promoteStep t].
Proof.
  unfold taskSteps. simpl. f_equal.
  apply (quiet_move 0), quiet_callbackSteps.
Qed.

Lemma taskSteps_no_registration (t : Task.t) :
  countOf "addToWebAPI" (taskSteps t) = 0.
Proof.
  unfold taskSteps. rewrite countOf_app.
  rewrite callbackSteps_no_registration. reflexivity.
Qed.

Lemma flat_map_taskSteps_depth (l : list Task.t) :
  forall d, depthAfter d (flat_map taskSteps l) = Some d.
Proof.
  induction l as [|t l IH]; intros d; cbn [flat_map]; [reflexivity|].
  rewrite depthAfter_app, taskSteps_depth. apply IH.
Qed.

Lemma flat_map_taskSteps_ordered (l : list Task.t) :
  ordered (0, false) (flat_map taskSteps l) = true /\
  stateAfter (0, false) (flat_map taskSteps l) = (0, false).
Proof.
  induction l as [|t l [IHo IHs]]; cbn [flat_map]; [auto|].
  destruct (taskSteps_ordered t) as [Ho Hs]. split.
  - apply ordered_app; [exact Ho | rewrite Hs; exact IHo].
  - rewrite stateAfter_app, Hs. exact IHs.
Qed.

Lemma flat_map_taskSteps_move (l : list Task.t) :
  stepsOf "moveToTaskQueue" (flat_map taskSteps l) = map promoteStep l.
Proof.
  induction l as [|t l IH]; cbn [flat_map map]; [reflexivity|].
  rewrite stepsOf_app, taskSteps_move, IH. reflexivity.
Qed.

(** *** The sort *)

Lemma compareTasks_le (a b : Task.t) :
  (compareTasks a b <=? 0)%Z = true <-> taskLe a b.
Proof.
  unfold compareTasks, taskLe. rewrite Z.leb_le.
  destruct (Z.eqb_spec (Z.of_N (Task.delay a) - Z.of_N (Task.delay b)) 0);
    lia.
Qed.

Lemma taskLe_total (a b : Task.t) : taskLe a b \/ taskLe b a.
Proof. unfold taskLe. lia. Qed.

Lemma taskLe_trans (a b c : Task.t) : taskLe a b -> taskLe b c -> taskLe a c.
Proof. unfold taskLe. lia. Qed.

Lemma insertTask_perm (x : Task.t) (l : list Task.t) :
  Permutation (insertTask x l) (x :: l).
Proof.
  induction l as [|h t IH]; simpl; [reflexivity|].
  destruct (compareTasks x h <=? 0)%Z; [reflexivity|].
  rewrite IH. apply perm_swap.
Qed.

Lemma sortTasks_perm (l : list Task.t) : Permutation (sortTasks l) l.
Proof.
  induction l as [|x l IH]; simpl; [reflexivity|].
  rewrite insertTask_perm. constructor. exact IH.
Qed.

Lemma insertTask_sorted (x : Task.t) (l : list Task.t) :
  StronglySorted taskLe l -> StronglySorted taskLe (insertTask x l).
Proof.
  induction 1 as [|h t Hs IH Hall]; simpl.
  - repeat constructor.
  - destruct (compareTasks x h <=? 0)%Z eqn:Hc.
    + apply compareTasks_le in Hc. constructor.
      * constructor; assumption.
      * constructor; [exact Hc|].
        eapply Forall_impl; [|exact Hall].
        intros y Hy. eapply taskLe_trans; eassumption.
    + assert (Hhx : taskLe h x).
      { destruct (taskLe_total x h) as [Hxh|Hhx]; [|exact Hhx].
        apply compareTasks_le in Hxh. congruence. }
      constructor; [exact IH|].
      eapply Permutation_Forall.
      * apply Permutation_sym, insertTask_perm.
      * constructor; assumption.
Qed.

Lemma sortTasks_sorted (l : list Task.t) : StronglySorted taskLe (sortTasks l).
Proof.
  induction l as [|x l IH]; simpl.
  - constructor.
  - apply insertTask_sorted. exact IH.
Qed.

(** ** The compiler on every text *)

Lemma compileSteps_lineScan (code : string) :
  hasFetch code = false ->
  compileSteps code
  = (Scan.steps (scanOf code)
     ++ microtaskPhase (Scan.pendingMicrotasks (scanOf code))
     ++ taskPhase (Scan.pendingTasks (scanOf code)))%list.
Proof.
  unfold hasFetch, compileSteps. intros H. rewrite H. reflexivity.
Qed.

Lemma compileSteps_fetch (code : string) :
  hasFetch code = true ->
  compileSteps code
  = fetchSteps (JS.trim code) (JS.split JS.nl (JS.trim code)).
Proof.
  unfold hasFetch, compileSteps. intros H. rewrite H. reflexivity.
Qed.

(** The part of [fetchSteps] that depends on the text is quiet. *)
Lemma quiet_collectedLogs (lines : list string) (index : nat) :
  quiet 0 (flat_map syncLogSteps (collectSyncLogs lines index)).
Proof. apply quiet_flat_map, quiet_syncLogSteps. Qed.

(** Every text compiles to steps whose pushes and pops pair up: no
    [removeFromStack] meets an empty stack, and the stack is empty at the
    end. *)
Lemma compileSteps_balanced (code : string) : balanced (compileSteps code).
Proof.
  unfold balanced. destruct (hasFetch code) eqn:Hf.
  - rewrite (compileSteps_fetch code Hf). unfold fetchSteps.
    rewrite depthAfter_app.
    change (depthAfter 0 [_; _; _]) with (Some 0). cbv iota beta.
    rewrite depthAfter_app.
    rewrite (quiet_depth _ _ (quiet_collectedLogs _ _)). reflexivity.
  - rewrite (compileSteps_lineScan code Hf).
    destruct (scanOf_inv code) as [[n Hq] _ _].
    rewrite depthAfter_app, (quiet_depth _ _ Hq).
    rewrite depthAfter_app, microtaskPhase_depth.
    apply flat_map_taskSteps_depth.
Qed.

(** The compiled steps pass the walk of [ordered]. *)
Lemma compileSteps_ordered (code : string) :
  hasFetch code = true \/ openOf ActiveCallback.microtask (scanOf code) = 0 ->
  ordered (0, false) (compileSteps code) = true.
Proof.
  intros Hyp. destruct (hasFetch code) eqn:Hf.
  - rewrite (compileSteps_fetch code Hf). unfold fetchSteps.
    pose proof (quiet_collectedLogs (JS.split JS.nl (JS.trim code)) 0) as Hq.
    apply ordered_app; [reflexivity|].
    change (stateAfter (0, false) [_; _; _]) with (0, false).
    apply ordered_app; [apply (quiet_ordered _ _ Hq)|].
    rewrite (quiet_state _ _ Hq). reflexivity.
  - destruct Hyp as [Hyp|Hopen]; [discriminate|].
    rewrite (compileSteps_lineScan code Hf).
    destruct (scanOf_inv code) as [[n Hq] _ Hm].
    rewrite (quiet_micro _ _ Hq), Hopen, Nat.add_0_r in Hm.
    apply ordered_app; [apply (quiet_ordered _ _ Hq)|].
    rewrite (quiet_state _ _ Hq). simpl orb.
    destruct (Scan.pendingMicrotasks (scanOf code)) as [|t pm] eqn:Hpm.
    + simpl in Hm. subst n. simpl.
      apply flat_map_taskSteps_ordered.
    + destruct (microtaskPhase_ordered (t :: pm) (Nat.ltb 0 n)) as [Ho Hs];
        [discriminate|].
      apply ordered_app; [exact Ho|]. rewrite Hs.
      apply flat_map_taskSteps_ordered.
Qed.

(** *** What the walk of [ordered] means *)

Lemma ordered_suffix (pre rest : list Step) :
  forall dw,
    ordered dw (pre ++ rest) = true ->
    ordered (stateAfter dw pre) rest = true.
Proof.
  induction pre as [|x pre IH]; intros dw H; simpl in *.
  - exact H.
  - apply andb_true_iff in H. apply IH, H.
Qed.

Lemma track_depth (d d' : nat) (w : bool) (pre : list Step) :
  depthAfter d pre = Some d' -> fst (stateAfter (d, w) pre) = d'.
Proof.
  revert d w. induction pre as [|x pre IH]; intros d w H; simpl in *.
  - congruence.
  - destruct (isAction "addToStack" x); [apply IH, H|].
    destruct (isAction "removeFromStack" x).
    + destruct d; [discriminate|]. apply IH, H.
    + destruct (isAction "addToMicroTask" x); [apply IH, H|].
      destruct (isAction "processMicroTasks" x); apply IH, H.
Qed.

Lemma depthAfter_prefix (pre rest : list Step) (d d' : nat) :
  depthAfter d (pre ++ rest) = Some d' -> exists e, depthAfter d pre = Some e.
Proof.
  rewrite depthAfter_app. destruct (depthAfter d pre); [eauto|discriminate].
Qed.

(** While a microtask waits, the walk reaches a [moveToTaskQueue] step
    only past a [processMicroTasks] step, and a [checkEventLoop] step only
    past one or immediately in front of one. *)
Lemma ordered_waiting (mid : list Step) (s : Step) (post : list Step) :
  forall d,
    ordered (d, true) (mid ++ s :: post) = true ->
    (isAction "moveToTaskQueue" s = true ->
     exists p, In p mid /\ isAction "processMicroTasks" p = true) /\
    (isAction "checkEventLoop" s = true ->
     (exists p, In p mid /\ isAction "processMicroTasks" p = true)
     \/ nextIsProcess post = true).
Proof.
  induction mid as [|x mid IH]; intros d H; cbn [app ordered] in H;
    apply andb_true_iff in H; destruct H as [Ha Ho].
  - unfold allowed in Ha. split; intros Hs.
    + apply String.eqb_eq in Hs. unfold isAction in Ha. rewrite Hs in Ha.
      simpl in Ha. rewrite andb_false_r in Ha. discriminate.
    + right. apply String.eqb_eq in Hs. unfold isAction in Ha.
      rewrite Hs in Ha. simpl in Ha.
      apply andb_true_iff in Ha. apply Ha.
  - destruct (isAction "processMicroTasks" x) eqn:Hx.
    + split; intros _; [|left]; exists x; simpl; auto.
    + assert (Ht : exists d', track (d, true) x = (d', true)).
      { unfold track. rewrite Hx.
        destruct (isAction "addToStack" x); [eauto|].
        destruct (isAction "removeFromStack" x); [eauto|].
        destruct (isAction "addToMicroTask" x); eauto. }
      destruct Ht as [d' Ht]. rewrite Ht in Ho.
      destruct (IH d' Ho) as [Hmove Hcheck]. split; intros Hs.
      * destruct (Hmove Hs) as [p [Hin Hp]]. exists p. simpl. auto.
      * destruct (Hcheck Hs) as [[p [Hin Hp]]|Hn]; [left|right; exact Hn].
        exists p. simpl. auto.
Qed.

Lemma track_enqueue (dw : nat * bool) (m : Step) :
  isAction "addToMicroTask" m = true -> track dw m = (fst dw, true).
Proof.
  intros H. apply String.eqb_eq in H. destruct dw as [d w].
  unfold track, isAction. rewrite H. reflexivity.
Qed.

Lemma ordered_empty_stack (dw : nat * bool) (s : Step) (post : list Step) :
  ordered dw (s :: post) = true ->
  isAction "processMicroTasks" s
  || isAction "moveToTaskQueue" s
  || isAction "checkEventLoop" s = true ->
  fst dw = 0.
Proof.
  simpl. intros H Hs. apply andb_true_iff in H. destruct H as [Ha _].
  destruct dw as [d w]. unfold allowed in Ha. simpl.
  destruct (isAction "processMicroTasks" s).
  - apply Nat.eqb_eq, Ha.
  - destruct (isAction "moveToTaskQueue" s).
    + apply andb_true_iff in Ha. apply Nat.eqb_eq, Ha.
    + destruct (isAction "checkEventLoop" s); [|discriminate].
      apply andb_true_iff in Ha. apply Nat.eqb_eq, Ha.
Qed.

(** C2, as the code has it.  Take a text in fetch mode, or one in line-scan
    mode that leaves no [.then] callback body open at its end, and any step
    [s] of its compiled steps, [pre] in front of it and [post] behind it.
    If [s] is a [processMicroTasks], [moveToTaskQueue] or [checkEventLoop]
    step, the modeled stack is empty when it is reached.  If an
    [addToMicroTask] step [m] comes before [s], with [mid] between them:
    when [s] is a [moveToTaskQueue] step, a [processMicroTasks] step lies in
    [mid]; when [s] is a [checkEventLoop] step, a [processMicroTasks] step
    lies in [mid] or is the step right after [s] (the queue-check
    marker). *)
Theorem compiled_microtasks_processed_first
        (code : string) (pre : list Step) (s : Step) (post : list Step) :
  hasFetch code = true \/ openOf ActiveCallback.microtask (scanOf code) = 0 ->
  compileSteps code = (pre ++ s :: post)%list ->
  (isAction "processMicroTasks" s
   || isAction "moveToTaskQueue" s
   || isAction "checkEventLoop" s = true ->
   depthAfter 0 pre = Some 0) /\
  (forall (pre' : list Step) (m : Step) (mid : list Step),
      pre = (pre' ++ m :: mid)%list ->
      isAction "addToMicroTask" m = true ->
      (isAction "moveToTaskQueue" s = true ->
       exists p, In p mid /\ isAction "processMicroTasks" p = true) /\
      (isAction "checkEventLoop" s = true ->
       (exists p, In p mid /\ isAction "processMicroTasks" p = true)
       \/ nextIsProcess post = true)).
Proof.
  intros Hyp Hsplit.
  pose proof (compileSteps_ordered code Hyp) as Hord.
  pose proof (compileSteps_balanced code) as Hbal.
  unfold balanced in Hbal. rewrite Hsplit in Hord, Hbal. split.
  - intros Hs.
    destruct (depthAfter_prefix _ _ _ _ Hbal) as [e He].
    pose proof (track_depth 0 e false pre He) as Hd.
    apply ordered_suffix in Hord.
    pose proof (ordered_empty_stack _ _ _ Hord Hs) as H0.
    rewrite He. f_equal. congruence.
  - intros pre' m mid Hpre Hm. subst pre.
    rewrite <- app_assoc in Hord. apply ordered_suffix in Hord.
    simpl in Hord. apply andb_true_iff in Hord. destruct Hord as [_ Hord].
    rewrite (track_enqueue _ _ Hm) in Hord.
    apply (ordered_waiting mid s post _ Hord).
Qed.

Lemma compiled_microtasks_processed_first_witness :
  openOf ActiveCallback.microtask (scanOf Examples.promise_code) = 0 /\
  compileSteps Examples.promise_code
  = (firstn 17 promiseCompiled ++ nth 17 promiseCompiled (popStep EmptyString)
            :: skipn 18 promiseCompiled)%list /\
  isAction "moveToTaskQueue" (nth 17 promiseCompiled (popStep EmptyString))
  = true /\
  firstn 17 promiseCompiled
  = (firstn 7 promiseCompiled ++ nth 7 promiseCompiled (popStep EmptyString)
            :: firstn 9 (skipn 8 promiseCompiled))%list /\
  isAction "addToMicroTask" (nth 7 promiseCompiled (popStep EmptyString))
  = true /\
  depthAfter 0 (firstn 17 promiseCompiled) = Some 0 /\
  exists p, In p (firstn 9 (skipn 8 promiseCompiled))
            /\ isAction "processMicroTasks" p = true.
Proof.
  assert (Hopen : openOf ActiveCallback.microtask
                         (scanOf Examples.promise_code) = 0)
    by (vm_compute; reflexivity).
  assert (Hsplit : compileSteps Examples.promise_code
                   = (firstn 17 promiseCompiled
                      ++ nth 17 promiseCompiled (popStep EmptyString)
                      :: skipn 18 promiseCompiled)%list)
    by (vm_compute; reflexivity).
  assert (Hmove : isAction "moveToTaskQueue"
                           (nth 17 promiseCompiled (popStep EmptyString))
                  = true)
    by (vm_compute; reflexivity).
  assert (Hpre : firstn 17 promiseCompiled
                 = (firstn 7 promiseCompiled
                    ++ nth 7 promiseCompiled (popStep EmptyString)
                    :: firstn 9 (skipn 8 promiseCompiled))%list)
    by (vm_compute; reflexivity).
  assert (Hm : isAction "addToMicroTask"
                        (nth 7 promiseCompiled (popStep EmptyString)) = true)
    by (vm_compute; reflexivity).
  destruct (compiled_microtasks_processed_first
              Examples.promise_code (firstn 17 promiseCompiled)
              (nth 17 promiseCompiled (popStep EmptyString))
              (skipn 18 promiseCompiled)
              (or_intror Hopen) Hsplit) as [Hdepth Hbetween].
  destruct (Hbetween _ _ _ Hpre Hm) as [Hfound _].
  split; [exact Hopen|]. split; [exact Hsplit|]. split; [exact Hmove|].
  split; [exact Hpre|]. split; [exact Hm|].
  split.
  - apply Hdepth. vm_compute. reflexivity.
  - apply Hfound, Hmove.
Defined.

(** C2 as stated fails.  In line-scan mode the compiled steps of the
    authored promise snippet enqueue the microtask at index 7 and reach the
    [checkEventLoop] step of index 12, the stack being empty, before the
    [processMicroTasks] step of index 13; in fetch mode the same holds, here
    for the authored fetch snippet. *)
Lemma microtasks_drained_first_counterexample :
  hasFetch Examples.promise_code = false /\
  map action (compileSteps Examples.promise_code)
  = [ "addToStack"; "log"; "removeFromStack";
      "addToStack"; "addToWebAPI"; "removeFromStack";
      "addToStack"; "addToMicroTask"; "removeFromStack";
      "addToStack"; "log"; "removeFromStack";
      "checkEventLoop"; "processMicroTasks";
      "addToStack"; "log"; "removeFromStack";
      "moveToTaskQueue"; "checkEventLoop";
      "addToStack"; "log"; "removeFromStack" ] /\
  depthAfter 0 (firstn 12 (compileSteps Examples.promise_code)) = Some 0 /\
  drainedFirst 0 0 (compileSteps Examples.promise_code) = false /\
  hasFetch Examples.fetch_code = true /\
  drainedFirst 0 0 (compileSteps Examples.fetch_code) = false.
Proof. repeat split; vm_compute; reflexivity. Qed.

(** *** Promotions *)

(** In line-scan mode the [moveToTaskQueue] steps are those of the
    registrations in [pendingTasks], one each, in the order of the sort. *)
Lemma lineScan_promotions (code : string) :
  hasFetch code = false ->
  stepsOf "moveToTaskQueue" (compileSteps code)
  = map promoteStep (sortTasks (Scan.pendingTasks (scanOf code))).
Proof.
  intros Hf. rewrite (compileSteps_lineScan code Hf).
  destruct (scanOf_inv code) as [[n Hq] _ _].
  rewrite !stepsOf_app, (quiet_move _ _ Hq), microtaskPhase_no_move.
  apply flat_map_taskSteps_move.
Qed.

(** The promotions come by ascending parsed delay, ties by ascending line. *)
Lemma lineScan_promotions_sorted (code : string) :
  StronglySorted taskLe (sortTasks (Scan.pendingTasks (scanOf code))) /\
  Permutation (sortTasks (Scan.pendingTasks (scanOf code)))
              (Scan.pendingTasks (scanOf code)).
Proof. split; [apply sortTasks_sorted | apply sortTasks_perm]. Qed.

(** C6, as the code has it.  The compiler has no notion of cancellation.  In
    line-scan mode every registration in [pendingTasks] has its
    [moveToTaskQueue] step, carrying its line and its callback, whatever the
    lines after it say; and the [moveToTaskQueue] steps are as many as the
    [addToWebAPI] steps, less the one registration whose callback body the
    text may leave open at its end. *)
Theorem every_registration_is_promoted (code : string) :
  hasFetch code = false ->
  (forall t : Task.t,
      In t (Scan.pendingTasks (scanOf code)) ->
      In (promoteStep t) (compileSteps code)) /\
  countOf "moveToTaskQueue" (compileSteps code)
  = length (Scan.pendingTasks (scanOf code)) /\
  countOf "moveToTaskQueue" (compileSteps code)
  + openOf ActiveCallback.task (scanOf code)
  = countOf "addToWebAPI" (compileSteps code).
Proof.
  intros Hf.
  pose proof (lineScan_promotions code Hf) as Hmoves.
  assert (Hcount : countOf "moveToTaskQueue" (compileSteps code)
                   = length (Scan.pendingTasks (scanOf code))).
  { unfold countOf. rewrite Hmoves, length_map.
    apply Permutation_length, sortTasks_perm. }
  split; [|split].
  - intros t Hin.
    assert (Hin' : In (promoteStep t)
                      (stepsOf "moveToTaskQueue" (compileSteps code))).
    { rewrite Hmoves. apply in_map.
      apply (Permutation_in t (Permutation_sym (sortTasks_perm _))).
      exact Hin. }
    apply filter_In in Hin'. apply Hin'.
  - exact Hcount.
  - rewrite Hcount.
    destruct (scanOf_inv code) as [_ Ht _].
    rewrite (compileSteps_lineScan code Hf), !countOf_app.
    rewrite microtaskPhase_no_registration.
    unfold taskPhase.
    rewrite (countOf_flat_map_zero "addToWebAPI" taskSteps)
      by apply taskSteps_no_registration.
    lia.
Qed.


(** C6 as stated fails: the first timer of [cancelledTimerSnippet] is
    cleared on the next line and its binding is registered again, yet
    the compiled steps promote both registrations, the one of line 1 and the
    one of line 3. *)
Lemma cancelled_registration_counterexample :
  hasFetch cancelledTimerSnippet = false /\
  map line (stepsOf "moveToTaskQueue" (compileSteps cancelledTimerSnippet))
  = [Some 1; Some 3] /\
  map line (stepsOf "moveToTaskQueue" (compileSteps cancelledTimerSnippet))
  <> [Some 3].
Proof.
  split; [vm_compute; reflexivity|].
  split; [vm_compute; reflexivity | vm_compute; discriminate].
Qed.

Lemma every_registration_is_promoted_witness :
  hasFetch cancelledTimerSnippet = false /\
  countOf "moveToTaskQueue" (compileSteps cancelledTimerSnippet)
  = length (Scan.pendingTasks (scanOf cancelledTimerSnippet)) /\
  length (Scan.pendingTasks (scanOf cancelledTimerSnippet)) = 2.
Proof.
  assert (Hf : hasFetch cancelledTimerSnippet = false)
    by (vm_compute; reflexivity).
  destruct (every_registration_is_promoted cancelledTimerSnippet Hf)
    as (_ & Hcount & _).
  split; [exact Hf|]. split; [exact Hcount | vm_compute; reflexivity].
Defined.

(** C5 on the code, at the snippet of the authored advanced example: two
    timers with brace-delimited callbacks, of 100 ms on line 3 and of 0 ms
    on line 7.  The delay of such a callback stands on its closing line and
    is never read: both registrations are recorded with delay 0, line order
    decides, and the 100 ms timer is promoted first, so that the compiled log
    is [1, 5, 4, 2, 3].  The authored steps of the same snippet promote the
    0 ms timer first and log [1, 5, 4, 3, 2]. *)
Theorem advanced_code_promotion_order :
  hasFetch Examples.advanced_code = false /\
  map Task.delay (Scan.pendingTasks (scanOf Examples.advanced_code))
  = [0%N; 0%N] /\
  map item (stepsOf "addToWebAPI" (compileSteps Examples.advanced_code))
  = [Some "Timer: 0ms"; Some "Timer: 0ms"] /\
  map line (stepsOf "moveToTaskQueue" (compileSteps Examples.advanced_code))
  = [Some 3; Some 7] /\
  map message (stepsOf "log" (compileSteps Examples.advanced_code))
  = [Some "1"; Some "5"; Some "4"; Some "2"; Some "3"] /\
  map item (stepsOf "addToWebAPI" Examples.advanced_steps)
  = [Some "Timer: 100ms"; Some "Timer: 0ms"] /\
  map message (stepsOf "log" Examples.advanced_steps)
  = [Some "1"; Some "5"; Some "4"; Some "3"; Some "2"].
Proof. repeat split; vm_compute; reflexivity. Qed.

(** Where the delay stands on the line of the call and the line holds no
    logging call, it is read, and the sort puts the shorter delay first. *)
Lemma one_line_timers_promotion_order :
  map line
      (stepsOf "moveToTaskQueue"
         (compileSteps (JS.joinLines [ "setTimeout(slow, 100);";
                                       "setTimeout(fast, 0);" ])))
  = [Some 2; Some 1].
Proof. vm_compute. reflexivity. Qed.

(** ** Stack balance *)

Lemma isAction_exclusive (a b : string) (s : Step) :
  a <> b -> isAction a s = true -> isAction b s = false.
Proof.
  unfold isAction. intros Hab Ha. apply String.eqb_eq in Ha.
  apply String.eqb_neq. congruence.
Qed.

Lemma countOf_cons (a : string) (s : Step) (l : list Step) :
  countOf a (s :: l) = (if isAction a s then 1 else 0) + countOf a l.
Proof.
  unfold countOf, stepsOf. simpl. destruct (isAction a s); reflexivity.
Qed.

(** The depth of the stack is the pushes less the pops. *)
Lemma depthAfter_counts (l : list Step) :
  forall d d',
    depthAfter d l = Some d' ->
    d + countOf "addToStack" l = d' + countOf "removeFromStack" l.
Proof.
  induction l as [|s l IH]; intros d d' H; simpl in H.
  - inversion H. reflexivity.
  - rewrite !countOf_cons.
    destruct (isAction "addToStack" s) eqn:Hpush.
    + rewrite (isAction_exclusive "addToStack" "removeFromStack" s)
        by (discriminate || assumption).
      apply IH in H. lia.
    + destruct (isAction "removeFromStack" s).
      * destruct d; [discriminate|]. apply IH in H. lia.
      * apply IH in H. lia.
Qed.

(** Balanced steps have as many pushes as pops, and no prefix of them has
    more pops than pushes. *)
Lemma balanced_counts (l : list Step) :
  balanced l ->
  countOf "addToStack" l = countOf "removeFromStack" l /\
  forall pre post,
    l = (pre ++ post)%list ->
    countOf "removeFromStack" pre <= countOf "addToStack" pre.
Proof.
  unfold balanced. intros H. split.
  - apply depthAfter_counts in H. lia.
  - intros pre post Hsplit. rewrite Hsplit in H.
    destruct (depthAfter_prefix _ _ _ _ H) as [e He].
    apply depthAfter_counts in He. lia.
Qed.

(** The compiler side of C3: every compiled example is balanced. *)
Lemma compiled_stack_balance (code : string) :
  countOf "addToStack" (compileSteps code)
  = countOf "removeFromStack" (compileSteps code) /\
  forall pre post,
    compileSteps code = (pre ++ post)%list ->
    countOf "removeFromStack" pre <= countOf "addToStack" pre.
Proof. apply balanced_counts, compileSteps_balanced. Qed.

(** Nine of the eleven authored examples are balanced. *)
Lemma authored_stack_balance :
  Forall (fun key => balanced (steps (allExamples emptyCustomExample key)))
         [ basic; promise; advanced; fetch; asyncAwait; multiplePromises;
           apiError; debounce; promiseRace ].
Proof. repeat constructor; vm_compute; reflexivity. Qed.

(** C3 on the code.  Two authored examples are not balanced.  The
    animation-frame example has 8 [addToStack] steps and 9
    [removeFromStack] steps: its first 30 steps are balanced and the last
    one pops an empty stack.  The event-listener example has 6 and 7: its
    first 17 steps are balanced and the next one pops an empty stack. *)
Theorem authored_examples_unbalanced :
  countOf "addToStack" Examples.requestAnimationFrame_steps = 8 /\
  countOf "removeFromStack" Examples.requestAnimationFrame_steps = 9 /\
  balanced (firstn 30 Examples.requestAnimationFrame_steps) /\
  option_map (isAction "removeFromStack")
             (nth_error Examples.requestAnimationFrame_steps 30)
  = Some true /\
  depthAfter 0 Examples.requestAnimationFrame_steps = None /\
  countOf "addToStack" Examples.eventListener_steps = 6 /\
  countOf "removeFromStack" Examples.eventListener_steps = 7 /\
  balanced (firstn 17 Examples.eventListener_steps) /\
  option_map (isAction "removeFromStack")
             (nth_error Examples.eventListener_steps 17)
  = Some true /\
  depthAfter 0 Examples.eventListener_steps = None.
Proof. repeat split; vm_compute; reflexivity. Qed.

(** * Further properties *)

(** ** What one step does to each container *)

Ltac other_action :=
  unfold executeStep;
  repeat match goal with
         | H : isAction _ _ = false |- _ => rewrite H; clear H
         end;
  cbn [andb];
  repeat match goal with
         | |- context [if isAction ?a ?s then _ else _] =>
             destruct (isAction a s)
         end;
  repeat match goal with
         | |- context [match ?x with _ => _ end] => destruct x
         end;
  reflexivity.

Lemma executeStep_logs_effect (r : ModelState) (step : Step) (p : ModelState) :
  logs (executeStep r step p)
  = if isAction "log" step then push (message step) (logs p) else logs p.
Proof.
  destruct (isAction "log" step) eqn:H.
  - known_action H; reflexivity.
  - other_action.
Qed.

Lemma executeStep_cycles_effect (r : ModelState) (step : Step)
      (p : ModelState) :
  eventLoopCycles (executeStep r step p)
  = if isAction "checkEventLoop" step then S (eventLoopCycles p)
    else eventLoopCycles p.
Proof.
  destruct (isAction "checkEventLoop" step) eqn:H.
  - known_action H; reflexivity.
  - other_action.
Qed.

Lemma executeStep_callStack_effect (r : ModelState) (step : Step)
      (p : ModelState) :
  callStack (executeStep r step p)
  = if isAction "addToStack" step then push (item step) (callStack p)
    else if isAction "removeFromStack" step then sliceInit (callStack p)
    else callStack p.
Proof.
  destruct (isAction "addToStack" step) eqn:H1.
  - known_action H1; reflexivity.
  - destruct (isAction "removeFromStack" step) eqn:H2.
    + known_action H2; reflexivity.
    + other_action.
Qed.

Lemma executeStep_taskQueue_effect (r : ModelState) (step : Step)
      (p : ModelState) :
  taskQueue (executeStep r step p)
  = if isAction "moveToTaskQueue" step then push (callback step) (taskQueue p)
    else if isAction "checkEventLoop" step
            && Nat.ltb 0 (length (taskQueue r))
         then slice1 (taskQueue p)
         else taskQueue p.
Proof.
  destruct (isAction "moveToTaskQueue" step) eqn:H1.
  - known_action H1; reflexivity.
  - destruct (isAction "checkEventLoop" step) eqn:H2.
    + known_action H2; reflexivity.
    + other_action.
Qed.

Lemma executeStep_microTaskQueue_effect (r : ModelState) (step : Step)
      (p : ModelState) :
  microTaskQueue (executeStep r step p)
  = if isAction "addToMicroTask" step
    then push (item step) (microTaskQueue p)
    else if isAction "processMicroTasks" step
            && Nat.ltb 0 (length (microTaskQueue r))
         then slice1 (microTaskQueue p)
         else microTaskQueue p.
Proof.
  destruct (isAction "addToMicroTask" step) eqn:H1.
  - known_action H1; reflexivity.
  - destruct (isAction "processMicroTasks" step) eqn:H2.
    + known_action H2; reflexivity.
    + other_action.
Qed.

Lemma executeStep_webAPIs_effect (r : ModelState) (step : Step)
      (p : ModelState) :
  webAPIs (executeStep r step p)
  = if isAction "addToWebAPI" step
    then push (WebAPIItem.mk (item step) (callback step)) (webAPIs p)
    else if isAction "moveToTaskQueue" step then slice1 (webAPIs p)
         else webAPIs p.
Proof.
  destruct (isAction "addToWebAPI" step) eqn:H1.
  - known_action H1; reflexivity.
  - destruct (isAction "moveToTaskQueue" step) eqn:H2.
    + known_action H2; reflexivity.
    + other_action.
Qed.

Lemma executeStep_highlight_effect (r : ModelState) (step : Step)
      (p : ModelState) :
  highlightedLine (executeStep r step p)
  = match line step with
    | Some l => Some l
    | None => highlightedLine p
    end.
Proof. other_action. Qed.

Lemma executeStep_explanation_effect (r : ModelState) (step : Step)
      (p : ModelState) :
  currentExplanation (executeStep r step p)
  = match explanation step with
    | Some e => if JS.isEmpty e then currentExplanation p else e
    | None => currentExplanation p
    end.
Proof. other_action. Qed.

(** The fields a step never touches. *)
Lemma executeStep_frame (r : ModelState) (step : Step) (p : ModelState) :
  isRunning (executeStep r step p) = isRunning p /\
  currentStep (executeStep r step p) = currentStep p /\
  elapsedTime (executeStep r step p) = elapsedTime p /\
  startTimeRef (executeStep r step p) = startTimeRef p.
Proof. repeat split; other_action. Qed.

(** ** A replay is a fold *)

Lemma skipn_nth_error {A : Type} (l : list A) :
  forall i x, nth_error l i = Some x -> skipn i l = x :: skipn (S i) l.
Proof.
  induction l as [|a l IH]; intros [|i] x H; simpl in *; try discriminate.
  - inversion H. reflexivity.
  - apply IH. exact H.
Qed.

Lemma replayLoop_run (r : ModelState) (all : list Step) :
  forall count i p,
    i + count <= length all ->
    replayLoop r all i count p
    = Normal (run r (firstn count (skipn i all)) p).
Proof.
  induction count as [|count IH]; intros i p Hle; simpl.
  - reflexivity.
  - destruct (nth_error all i) as [step|] eqn:Hnth.
    + rewrite (skipn_nth_error _ _ _ Hnth). simpl.
      rewrite IH by lia. reflexivity.
    + apply nth_error_None in Hnth. lia.
Qed.

Lemma replayLoop_past_the_end (r : ModelState) (all : list Step) :
  forall count i p,
    i <= length all -> length all < i + count ->
    replayLoop r all i count p = TypeError (run r (skipn i all) p).
Proof.
  induction count as [|count IH]; intros i p Hi Hlt; simpl.
  - lia.
  - destruct (nth_error all i) as [step|] eqn:Hnth.
    + rewrite (skipn_nth_error _ _ _ Hnth). simpl.
      assert (i < length all) by (apply nth_error_Some; congruence).
      apply IH; lia.
    + apply nth_error_None in Hnth.
      rewrite skipn_all2 by exact Hnth. reflexivity.
Qed.

(** A jump within the range of the steps is the fold of its first [k]
    steps; past the range it is the fold of all of them, and raises. *)
Lemma goToStep_as_run (rendered : ModelState) (all : list Step) (k : nat) :
  (k <= length all ->
   goToStep rendered all k
   = Normal (setCurrentStep (run rendered (firstn k all) initialState)
                            (fun _ => k))) /\
  (length all < k ->
   goToStep rendered all k = TypeError (run rendered all initialState)).
Proof.
  unfold goToStep. rewrite reset_is_initial. split; intros H.
  - rewrite replayLoop_run by lia. reflexivity.
  - rewrite replayLoop_past_the_end by lia. reflexivity.
Qed.

(** X1.  [goToStep(k)] completes exactly when [k] is at most the number of
    steps: it then leaves the first [k] steps executed from the reset state,
    in the closure of the render, and [currentStep = k].  For a larger [k]
    it executes every step and raises on the step that is missing, before
    [currentStep] is set. *)
Theorem goToStep_within_and_past_the_end
        (rendered : ModelState) (all : list Step) (k : nat) :
  (k <= length all ->
   goToStep rendered all k
   = Normal (setCurrentStep (run rendered (firstn k all) initialState)
                            (fun _ => k))) /\
  (length all < k ->
   goToStep rendered all k = TypeError (run rendered all initialState)).
Proof. apply goToStep_as_run. Qed.

Lemma goToStep_within_and_past_the_end_witness :
  3 <= length Examples.basic_steps /\
  length Examples.basic_steps < 20 /\
  (exists s, goToStep initialState Examples.basic_steps 3 = Normal s) /\
  (exists s, goToStep initialState Examples.basic_steps 20 = TypeError s).
Proof.
  assert (Hin : 3 <= length Examples.basic_steps) by (vm_compute; lia).
  assert (Hout : length Examples.basic_steps < 20) by (vm_compute; lia).
  split; [exact Hin|]. split; [exact Hout|]. split.
  - eexists.
    exact (proj1 (goToStep_within_and_past_the_end
                    initialState Examples.basic_steps 3) Hin).
  - eexists.
    exact (proj2 (goToStep_within_and_past_the_end
                    initialState Examples.basic_steps 20) Hout).
Defined.

Lemma run_cons (r : ModelState) (s : Step) (l : list Step) (p : ModelState) :
  run r (s :: l) p = run r l (executeStep r s p).
Proof. reflexivity. Qed.

Lemma run_app (r : ModelState) (l1 l2 : list Step) (p : ModelState) :
  run r (l1 ++ l2) p = run r l2 (run r l1 p).
Proof. apply fold_left_app. Qed.

Lemma stepsOf_cons (a : string) (s : Step) (l : list Step) :
  stepsOf a (s :: l) = if isAction a s then s :: stepsOf a l else stepsOf a l.
Proof. reflexivity. Qed.

Lemma run_logs (r : ModelState) (l : list Step) :
  forall p,
    logs (run r l p) = (logs p ++ map message (stepsOf "log" l))%list.
Proof.
  induction l as [|s l IH]; intros p.
  - simpl. rewrite app_nil_r. reflexivity.
  - rewrite run_cons.
    rewrite IH, executeStep_logs_effect, stepsOf_cons.
    destruct (isAction "log" s); simpl; [|reflexivity].
    unfold push. rewrite <- app_assoc. reflexivity.
Qed.

Lemma run_cycles (r : ModelState) (l : list Step) :
  forall p,
    eventLoopCycles (run r l p)
    = eventLoopCycles p + countOf "checkEventLoop" l.
Proof.
  induction l as [|s l IH]; intros p.
  - unfold countOf. simpl. lia.
  - rewrite run_cons.
    rewrite IH, executeStep_cycles_effect, countOf_cons.
    destruct (isAction "checkEventLoop" s); lia.
Qed.

(** From a render whose two queues are empty nothing leaves a queue. *)
Lemma run_queues_stale (r : ModelState) (l : list Step) :
  taskQueue r = [] -> microTaskQueue r = [] ->
  forall p,
    taskQueue (run r l p)
    = (taskQueue p ++ map callback (stepsOf "moveToTaskQueue" l))%list /\
    microTaskQueue (run r l p)
    = (microTaskQueue p ++ map item (stepsOf "addToMicroTask" l))%list.
Proof.
  intros Ht Hm. induction l as [|s l IH]; intros p.
  - simpl. rewrite !app_nil_r. auto.
  - rewrite run_cons.
    destruct (IH (executeStep r s p)) as [IHt IHm].
    rewrite IHt, IHm, executeStep_taskQueue_effect,
      executeStep_microTaskQueue_effect, !stepsOf_cons, Ht, Hm.
    simpl length. cbn [Nat.ltb Nat.leb]. rewrite !andb_false_r.
    destruct (isAction "moveToTaskQueue" s),
             (isAction "addToMicroTask" s); simpl; unfold push;
      rewrite <- ?app_assoc; auto.
Qed.


Lemma goToStep_shows (rendered : ModelState) (all : list Step) (k : nat) :
  logs (stateOf (goToStep rendered all k))
  = map message (stepsOf "log" (firstn k all)) /\
  eventLoopCycles (stateOf (goToStep rendered all k))
  = countOf "checkEventLoop" (firstn k all).
Proof.
  destruct (goToStep_as_run rendered all k) as [Hin Hout].
  destruct (Nat.le_gt_cases k (length all)) as [Hk|Hk].
  - rewrite (Hin Hk). simpl. rewrite run_logs, run_cycles. auto.
  - rewrite (Hout Hk). simpl. rewrite run_logs, run_cycles.
    rewrite firstn_all2 by lia. auto.
Qed.

(** X2.  Whatever the render a jump starts from, and whether or not it
    raises, the console shows the messages of the [log] steps among the
    first [k] steps, in order, and the cycle counter their number of
    [checkEventLoop] steps. *)
Theorem goToStep_logs_and_cycles
        (rendered : ModelState) (all : list Step) (k : nat) :
  logs (stateOf (goToStep rendered all k))
  = map message (stepsOf "log" (firstn k all)) /\
  eventLoopCycles (stateOf (goToStep rendered all k))
  = countOf "checkEventLoop" (firstn k all).
Proof. apply goToStep_shows. Qed.

(** X3.  A jump made from a render whose task queue and microtask queue are
    empty, as the first render is, removes nothing from either queue: after
    it the task queue holds the callback of every [moveToTaskQueue] step
    among the first [k] steps and the microtask queue the item of every
    [addToMicroTask] step, the [checkEventLoop] and [processMicroTasks]
    steps in between notwithstanding. *)
Theorem goToStep_from_empty_queues_drains_nothing
        (rendered : ModelState) (all : list Step) (k : nat) :
  taskQueue rendered = [] ->
  microTaskQueue rendered = [] ->
  taskQueue (stateOf (goToStep rendered all k))
  = map callback (stepsOf "moveToTaskQueue" (firstn k all)) /\
  microTaskQueue (stateOf (goToStep rendered all k))
  = map item (stepsOf "addToMicroTask" (firstn k all)).
Proof.
  intros Ht Hm.
  destruct (goToStep_as_run rendered all k) as [Hin Hout].
  destruct (Nat.le_gt_cases k (length all)) as [Hk|Hk].
  - rewrite (Hin Hk). simpl.
    apply (run_queues_stale rendered (firstn k all) Ht Hm initialState).
  - rewrite (Hout Hk). simpl. rewrite firstn_all2 by lia.
    apply (run_queues_stale rendered all Ht Hm initialState).
Qed.

Lemma goToStep_from_empty_queues_drains_nothing_witness :
  taskQueue initialState = [] /\
  microTaskQueue initialState = [] /\
  taskQueue (stateOf (goToStep initialState Examples.promise_steps 21))
  = map callback (stepsOf "moveToTaskQueue"
                          (firstn 21 Examples.promise_steps)).
Proof.
  split; [reflexivity|]. split; [reflexivity|].
  apply (goToStep_from_empty_queues_drains_nothing
           initialState Examples.promise_steps 21 eq_refl eq_refl).
Defined.



(** ** Stepping forward *)

Lemma sameModel_refl (a : ModelState) : sameModel a a.
Proof. repeat split. Qed.

Lemma sameModel_trans (a b c : ModelState) :
  sameModel a b -> sameModel b c -> sameModel a c.
Proof.
  unfold sameModel. intros (A1 & A2 & A3 & A4 & A5 & A6 & A7 & A8)
                           (B1 & B2 & B3 & B4 & B5 & B6 & B7 & B8).
  repeat split; congruence.
Qed.

Lemma executeStep_sameModel (r r' : ModelState) (step : Step)
      (a b : ModelState) :
  sameModel r r' -> sameModel a b ->
  sameModel (executeStep r step a) (executeStep r' step b).
Proof.
  intros (_ & R2 & R3 & _) (A1 & A2 & A3 & A4 & A5 & A6 & A7 & A8).
  unfold sameModel.
  rewrite !executeStep_callStack_effect, !executeStep_taskQueue_effect,
    !executeStep_microTaskQueue_effect, !executeStep_webAPIs_effect,
    !executeStep_logs_effect, !executeStep_highlight_effect,
    !executeStep_explanation_effect, !executeStep_cycles_effect.
  rewrite R2, R3, A1, A2, A3, A4, A5, A6, A7, A8.
  repeat split.
Qed.

Lemma stepping_cons (s : Step) (l : list Step) (p : ModelState) :
  stepping (s :: l) p = stepping l (executeStep p s p).
Proof. reflexivity. Qed.

Lemma stepping_app (l1 l2 : list Step) (p : ModelState) :
  stepping (l1 ++ l2) p = stepping l2 (stepping l1 p).
Proof. apply fold_left_app. Qed.

Lemma stepping_sameModel (l : list Step) :
  forall a b, sameModel a b -> sameModel (stepping l a) (stepping l b).
Proof.
  induction l as [|s l IH]; intros a b H.
  - exact H.
  - rewrite !stepping_cons. apply IH.
    apply executeStep_sameModel; exact H.
Qed.

Lemma nextStep_executes (now : N) (s : ModelState) (all : list Step)
      (step : Step) :
  nth_error all (currentStep s) = Some step ->
  exists s',
    nextStep now s all = Normal s' /\
    currentStep s' = S (currentStep s) /\
    sameModel s' (executeStep s step s).
Proof.
  intros Hnth. unfold nextStep.
  assert (Hlt : currentStep s < length all)
    by (apply nth_error_Some; congruence).
  apply Nat.ltb_lt in Hlt. rewrite Hlt, Hnth.
  eexists. split; [reflexivity|].
  destruct (executeStep_frame s step
              (setElapsedTime
                 (setStartTimeRef (setIsRunning s false)
                    (Some match startTimeRef s with
                          | Some t => t
                          | None => now
                          end))
                 (now - match startTimeRef s with
                        | Some t => t
                        | None => now
                        end)%N)) as (_ & Hc & _).
  split.
  - simpl. rewrite Hc. reflexivity.
  - apply (sameModel_trans _
             (executeStep s step
                (setElapsedTime
                   (setStartTimeRef (setIsRunning s false)
                      (Some match startTimeRef s with
                            | Some t => t
                            | None => now
                            end))
                   (now - match startTimeRef s with
                          | Some t => t
                          | None => now
                          end)%N))).
    + repeat split.
    + apply executeStep_sameModel; repeat split.
Qed.

Lemma pressNext_as_stepping
      (times : list N) (s : ModelState) (all : list Step) :
  currentStep s + length times <= length all ->
  exists s',
    pressNext times s all = Normal s' /\
    currentStep s' = currentStep s + length times /\
    sameModel s'
      (stepping (firstn (length times) (skipn (currentStep s) all)) s).
Proof.
  revert s. induction times as [|now times IH]; intros s Hle.
  - exists s. simpl. rewrite Nat.add_0_r.
    split; [reflexivity|]. split; [reflexivity|apply sameModel_refl].
  - simpl length in *.
    destruct (nth_error all (currentStep s)) as [step|] eqn:Hnth;
      [|apply nth_error_None in Hnth; lia].
    destruct (nextStep_executes now s all step Hnth) as (s1 & H1 & Hc1 & Hm1).
    destruct (IH s1) as (s' & H' & Hc' & Hm'); [lia|].
    exists s'. cbn [pressNext]. rewrite H1.
    split; [exact H'|]. split; [lia|].
    rewrite (skipn_nth_error _ _ _ Hnth). cbn [firstn].
    rewrite stepping_cons, Hc1 in *.
    eapply sameModel_trans; [exact Hm'|].
    apply stepping_sameModel. exact Hm1.
Qed.


(** X5.  Pressing Next [k] times from step [i], with [i + k] at most the
    number of steps, completes, moves to step [i + k], and shows the model
    that the [k] steps give when each is executed in the closure of the
    state it meets. *)
Theorem pressNext_steps_forward
        (times : list N) (s : ModelState) (all : list Step) :
  currentStep s + length times <= length all ->
  exists s',
    pressNext times s all = Normal s' /\
    currentStep s' = currentStep s + length times /\
    sameModel s'
      (stepping (firstn (length times) (skipn (currentStep s) all)) s).
Proof. apply pressNext_as_stepping. Qed.

Lemma pressNext_steps_forward_witness :
  currentStep initialState + length [5%N; 9%N] <= length Examples.basic_steps /\
  exists s',
    pressNext [5%N; 9%N] initialState Examples.basic_steps = Normal s' /\
    currentStep s' = 2.
Proof.
  assert (H : currentStep initialState + length [5%N; 9%N]
              <= length Examples.basic_steps) by (vm_compute; lia).
  split; [exact H|].
  destruct (pressNext_steps_forward [5%N; 9%N] initialState
              Examples.basic_steps H) as (s' & H1 & H2 & _).
  exists s'. split; [exact H1 | exact H2].
Defined.

(** Stepping removes the head of a queue at every drain step: the guard
    reads the queue being changed. *)
Lemma stepping_queue_effects (step : Step) (p : ModelState) :
  taskQueue (executeStep p step p)
  = (if isAction "moveToTaskQueue" step then push (callback step) (taskQueue p)
     else if isAction "checkEventLoop" step then slice1 (taskQueue p)
          else taskQueue p) /\
  microTaskQueue (executeStep p step p)
  = (if isAction "addToMicroTask" step
     then push (item step) (microTaskQueue p)
     else if isAction "processMicroTasks" step
          then slice1 (microTaskQueue p)
          else microTaskQueue p).
Proof.
  rewrite executeStep_taskQueue_effect, executeStep_microTaskQueue_effect.
  split.
  - destruct (isAction "moveToTaskQueue" step); [reflexivity|].
    destruct (isAction "checkEventLoop" step); [|reflexivity].
    destruct (taskQueue p); reflexivity.
  - destruct (isAction "addToMicroTask" step); [reflexivity|].
    destruct (isAction "processMicroTasks" step); [|reflexivity].
    destruct (microTaskQueue p); reflexivity.
Qed.

(** ** The line loop, once more *)

Lemma shownStep_mono (n m : nat) (s : Step) :
  n <= m -> shownStep n s -> shownStep m s.
Proof.
  intros Hle [He Hl]. split; [exact He|].
  intros l H. specialize (Hl l H). lia.
Qed.

Ltac plain_shown :=
  repeat constructor;
  try match goal with
      | Hline : line _ = Some _ |- _ =>
          simpl in Hline; inversion Hline; subst; lia
      end.

Lemma bounds_logLineSteps (t : string) (n m : nat) :
  1 <= n <= m ->
  Forall (fun s => plainStep s /\ shownStep m s) (logLineSteps t n).
Proof. intros H. plain_shown. Qed.

Lemma bounds_timeoutLineSteps (d : N) (c : string) (n m : nat) :
  1 <= n <= m ->
  Forall (fun s => plainStep s /\ shownStep m s) (timeoutLineSteps d c n).
Proof. intros H. plain_shown. Qed.

Lemma bounds_promiseLineSteps (c : string) (n m : nat) :
  1 <= n <= m ->
  Forall (fun s => plainStep s /\ shownStep m s) (promiseLineSteps c n).
Proof. intros H. plain_shown. Qed.

Lemma scanBounds_start : scanBounds 0 Scan.start.
Proof.
  constructor; [constructor | constructor | constructor |].
  intros ac H. discriminate.
Qed.

Lemma scanBounds_mono (n m : nat) (st : Scan.t) :
  n <= m -> scanBounds n st -> scanBounds m st.
Proof.
  intros Hle [Hs Ht Hm Ha]. constructor.
  - eapply Forall_impl; [|exact Hs]. intros s [Hp Hsh].
    split; [exact Hp|]. eapply shownStep_mono; eassumption.
  - eapply Forall_impl; [|exact Ht]. intros t H. simpl in H. lia.
  - eapply Forall_impl; [|exact Hm]. intros t H. simpl in H. lia.
  - intros ac H. specialize (Ha ac H). lia.
Qed.

Lemma Forall_push {A : Type} (P : A -> Prop) (x : A) (l : list A) :
  Forall P l -> P x -> Forall P (push x l).
Proof.
  intros Hl Hx. unfold push. apply Forall_app. split; [exact Hl|].
  constructor; [exact Hx|constructor].
Qed.

Lemma pushPending_bounds (n : nat) (st : Scan.t) (ac : ActiveCallback.t) :
  scanBounds n st -> 1 <= ActiveCallback.line ac <= n ->
  scanBounds n (pushPending st ac).
Proof.
  intros [Hs Ht Hm Ha] Hac. unfold pushPending.
  destruct (ActiveCallback.kind ac); constructor; simpl;
    try assumption; apply Forall_push; assumption.
Qed.

Lemma closeCallback_bounds (n : nat) (st : Scan.t) (ac : ActiveCallback.t) :
  scanBounds n st -> 1 <= ActiveCallback.line ac <= n ->
  scanBounds n (closeCallback st ac).
Proof.
  intros Hb Hac.
  destruct (pushPending_bounds n st ac Hb Hac) as [Hs Ht Hm Ha].
  unfold closeCallback. constructor; simpl; try assumption.
  intros ac' H. discriminate.
Qed.

Lemma scanBodyLine_bounds (n : nat) (st : Scan.t) (ac : ActiveCallback.t)
      (trimmedLine : string) :
  Scan.activeCallback st = Some ac ->
  scanBounds n st -> scanBounds n (scanBodyLine st ac trimmedLine).
Proof.
  intros Hac Hb. pose proof (bounds_active n st Hb ac Hac) as Hline.
  unfold scanBodyLine.
  destruct (hasLogCall trimmedLine);
    destruct (Scan.callbackDepth st + JS.countChar trimmedLine "{"
              - JS.countChar trimmedLine "}" <=? 0)%Z;
    try (apply closeCallback_bounds; [exact Hb | exact Hline]);
    destruct Hb as [Hs Ht Hm Ha]; constructor; simpl; try assumption;
    intros ac' H; inversion H; subst; exact Hline.
Qed.

Lemma register_bounds (k : ActiveCallback.kind_t) (n : nat) (st : Scan.t)
      (newSteps : list Step) (trimmedLine : string) (lineNum : nat)
      (delay : N) (callback : string) (callbackMatch : option string) :
  scanBounds n st ->
  Scan.activeCallback st = None ->
  1 <= lineNum <= n ->
  Forall (fun s => plainStep s /\ shownStep n s) newSteps ->
  scanBounds n (register k st newSteps trimmedLine lineNum delay callback
                         callbackMatch).
Proof.
  intros [Hs Ht Hm Ha] Hnone Hline Hnew.
  assert (Hb1 : scanBounds n
                  (Scan.mk (Scan.steps st ++ newSteps)%list
                           (Scan.pendingTasks st) (Scan.pendingMicrotasks st)
                           (Scan.activeCallback st) (Scan.callbackDepth st))).
  { constructor; simpl; try assumption.
    apply Forall_app. split; assumption. }
  unfold register.
  destruct (JS.includes "{" trimmedLine).
  - destruct (JS.countChar trimmedLine "{" - JS.countChar trimmedLine "}"
              <=? 0)%Z.
    + apply closeCallback_bounds; [exact Hb1 | exact Hline].
    + destruct Hb1 as [Hs1 Ht1 Hm1 Ha1]. constructor; simpl; try assumption.
      intros ac' H. inversion H; subst. exact Hline.
  - apply pushPending_bounds; [exact Hb1 | exact Hline].
Qed.

Lemma scanTopLine_bounds (n : nat) (st : Scan.t) (trimmedLine : string) :
  Scan.activeCallback st = None ->
  scanBounds n st -> scanBounds (S n) (scanTopLine st trimmedLine (n + 1)).
Proof.
  intros Hnone Hb.
  apply (scanBounds_mono n (S n)) in Hb; [|lia].
  unfold scanTopLine.
  destruct (JS.isEmpty trimmedLine || JS.startsWith "//" trimmedLine);
    [exact Hb|].
  destruct (hasLogCall trimmedLine).
  { destruct Hb as [Hs Ht Hm Ha]. constructor; simpl; try assumption.
    apply Forall_app. split; [exact Hs|].
    apply bounds_logLineSteps. lia. }
  destruct (JS.includes "setTimeout" trimmedLine).
  { apply register_bounds; try assumption; [lia|].
    apply bounds_timeoutLineSteps. lia. }
  destruct (JS.includes "Promise.resolve()" trimmedLine
            && JS.includes ".then" trimmedLine); [|exact Hb].
  apply register_bounds; try assumption; [lia|].
  apply bounds_promiseLineSteps. lia.
Qed.

Lemma scanLine_bounds (n : nat) (st : Scan.t) (l : string) :
  scanBounds n st -> scanBounds (S n) (scanLine st n l).
Proof.
  intros Hb. unfold scanLine.
  destruct (Scan.activeCallback st) as [ac|] eqn:Hac.
  - apply (scanBounds_mono n (S n)); [lia|].
    apply scanBodyLine_bounds; assumption.
  - apply scanTopLine_bounds; assumption.
Qed.

Lemma scanLines_bounds (lines : list string) :
  forall n st,
    scanBounds n st -> scanBounds (n + length lines) (scanLines lines n st).
Proof.
  induction lines as [|l lines IH]; intros n st Hb; simpl.
  - rewrite Nat.add_0_r. exact Hb.
  - replace (n + S (length lines)) with (S n + length lines) by lia.
    apply IH. apply scanLine_bounds. exact Hb.
Qed.

Lemma scanOf_bounds (code : string) :
  scanBounds (length (JS.split JS.nl (JS.trim code))) (scanOf code).
Proof. apply (scanLines_bounds _ 0), scanBounds_start. Qed.

(** ** Every compiled step is explained and points into the text *)

Lemma truthy_append (a b : string) :
  JS.isEmpty a = false -> JS.truthy (Some (a ++ b)) = true.
Proof. destruct a; [discriminate|reflexivity]. Qed.

Lemma bounds_callbackSteps (what done callback : string) (n m : nat)
      (messages : list string) :
  JS.isEmpty what = false -> JS.isEmpty done = false -> 1 <= n <= m ->
  Forall (fun s => plainStep s /\ shownStep m s)
         (callbackSteps what done callback n messages).
Proof.
  intros Hw Hd Hn.
  assert (Hdone : JS.truthy (Some done) = true)
    by (destruct done; [discriminate|reflexivity]).
  unfold callbackSteps. destruct messages as [|x ms].
  - repeat constructor; simpl;
      try (apply truthy_append; exact Hw); try exact Hdone;
      try match goal with
          | Hline : line _ = Some _ |- _ =>
              simpl in Hline; inversion Hline; subst; lia
          end.
  - apply Forall_flat_map. apply Forall_forall. intros y _.
    repeat constructor; simpl;
      try (apply truthy_append; exact Hw); try exact Hdone;
      try match goal with
          | Hline : line _ = Some _ |- _ =>
              simpl in Hline; inversion Hline; subst; lia
          end.
Qed.

Lemma shown_microtaskPhase (m : nat) (pm : list Microtask.t) :
  Forall (fun t => 1 <= Microtask.line t <= m) pm ->
  Forall (shownStep m) (microtaskPhase pm).
Proof.
  intros Hpm. destruct pm as [|t pm]; [constructor|].
  unfold microtaskPhase.
  constructor; [split; [reflexivity | intros l H; discriminate]|].
  constructor; [split; [reflexivity | intros l H; discriminate]|].
  apply Forall_flat_map.
  eapply Forall_impl; [|exact Hpm]. intros u Hu.
  eapply Forall_impl;
    [|apply (bounds_callbackSteps "Executing microtask: "
               "Microtask complete" _ _ m _ eq_refl eq_refl Hu)].
  intros s [_ Hs]. exact Hs.
Qed.

Lemma shown_taskPhase (m : nat) (pt : list Task.t) :
  Forall (fun t => 1 <= Task.line t <= m) pt ->
  Forall (shownStep m) (taskPhase pt).
Proof.
  intros Hpt. unfold taskPhase. apply Forall_flat_map.
  assert (Hsorted : Forall (fun t => 1 <= Task.line t <= m) (sortTasks pt)).
  { eapply Permutation_Forall; [|exact Hpt].
    apply Permutation_sym, sortTasks_perm. }
  eapply Forall_impl; [|exact Hsorted]. intros u Hu. simpl in Hu.
  unfold taskSteps.
  constructor.
  { split; [reflexivity|]. intros l H. simpl in H. inversion H; subst. lia. }
  constructor; [split; [reflexivity | intros l H; discriminate]|].
  eapply Forall_impl;
    [|apply (bounds_callbackSteps "Executing callback: "
               "Callback complete" _ _ m _ eq_refl eq_refl Hu)].
  intros s [_ Hs]. exact Hs.
Qed.

Lemma lineScan_steps_shown (code : string) :
  hasFetch code = false ->
  Forall (shownStep (length (JS.split JS.nl (JS.trim code))))
         (compileSteps code).
Proof.
  intros Hf. rewrite (compileSteps_lineScan code Hf).
  destruct (scanOf_bounds code) as [Hs Ht Hm _].
  apply Forall_app. split.
  - eapply Forall_impl; [|exact Hs]. intros s [_ H]. exact H.
  - apply Forall_app. split.
    + apply shown_microtaskPhase. exact Hm.
    + apply shown_taskPhase. exact Ht.
Qed.

Lemma fetch_steps_explained (code : string) :
  hasFetch code = true ->
  Forall (fun s => JS.truthy (explanation s) = true) (compileSteps code).
Proof.
  intros Hf. rewrite (compileSteps_fetch code Hf). unfold fetchSteps.
  apply Forall_app. split; [repeat constructor|].
  apply Forall_app. split; [|repeat constructor].
  apply Forall_flat_map. apply Forall_forall. intros l _.
  repeat constructor.
Qed.

(** X6.  Every step the compiler emits, in either mode and for any text,
    carries an explanation that is not empty. *)
Theorem compiled_steps_are_explained (code : string) :
  Forall (fun s => JS.truthy (explanation s) = true) (compileSteps code).
Proof.
  destruct (hasFetch code) eqn:Hf.
  - apply fetch_steps_explained. exact Hf.
  - eapply Forall_impl; [|apply (lineScan_steps_shown code Hf)].
    intros s [H _]. exact H.
Qed.

(** X7.  In line-scan mode every line number a compiled step carries is the
    number of a line of the trimmed text: at least 1 and at most the number
    of its lines. *)
Theorem lineScan_lines_within_the_text
        (code : string) (s : Step) (l : nat) :
  hasFetch code = false ->
  In s (compileSteps code) ->
  line s = Some l ->
  1 <= l <= length (JS.split JS.nl (JS.trim code)).
Proof.
  intros Hf Hin Hl.
  pose proof (lineScan_steps_shown code Hf) as Hall.
  rewrite Forall_forall in Hall. destruct (Hall s Hin) as [_ H].
  apply H. exact Hl.
Qed.

Lemma lineScan_lines_within_the_text_witness :
  hasFetch Examples.promise_code = false /\
  In (nth 17 promiseCompiled (popStep EmptyString))
     (compileSteps Examples.promise_code) /\
  line (nth 17 promiseCompiled (popStep EmptyString)) = Some 3 /\
  1 <= 3 <= length (JS.split JS.nl (JS.trim Examples.promise_code)).
Proof.
  assert (Hf : hasFetch Examples.promise_code = false)
    by (vm_compute; reflexivity).
  assert (Hin : In (nth 17 promiseCompiled (popStep EmptyString))
                   (compileSteps Examples.promise_code)).
  { replace (compileSteps Examples.promise_code) with promiseCompiled
      by (vm_compute; reflexivity).
    apply nth_In. unfold promiseCompiled. cbn [length]. lia. }
  assert (Hl : line (nth 17 promiseCompiled (popStep EmptyString)) = Some 3)
    by (vm_compute; reflexivity).
  split; [exact Hf|]. split; [exact Hin|]. split; [exact Hl|].
  exact (lineScan_lines_within_the_text Examples.promise_code _ 3 Hf Hin Hl).
Defined.

(** ** Stepping through a compiled example *)

Lemma stepping_logs (l : list Step) :
  forall p,
    logs (stepping l p) = (logs p ++ map message (stepsOf "log" l))%list.
Proof.
  induction l as [|s l IH]; intros p.
  - simpl. rewrite app_nil_r. reflexivity.
  - rewrite stepping_cons, IH, executeStep_logs_effect, stepsOf_cons.
    destruct (isAction "log" s); simpl; [|reflexivity].
    unfold push. rewrite <- app_assoc. reflexivity.
Qed.

Lemma stepping_callStack_depth (l : list Step) :
  forall p d,
    depthAfter (length (callStack p)) l = Some d ->
    length (callStack (stepping l p)) = d.
Proof.
  induction l as [|s l IH]; intros p d H.
  - simpl in *. congruence.
  - rewrite stepping_cons. cbn [depthAfter] in H.
    apply IH. rewrite executeStep_callStack_effect.
    destruct (isAction "addToStack" s).
    + rewrite length_push. exact H.
    + destruct (isAction "removeFromStack" s); [|exact H].
      destruct (callStack p) as [|x st] eqn:Hst; [discriminate|].
      simpl length in H. unfold sliceInit.
      assert (Hlen : length (removelast (x :: st)) = length st).
      { clear. revert x. induction st as [|y st IHst]; intros x;
          [reflexivity|].
        change (removelast (x :: y :: st)) with (x :: removelast (y :: st)).
        cbn [length]. rewrite IHst. reflexivity. }
      rewrite Hlen. exact H.
Qed.

(** Stepping does to the two queues what the unguarded cases say. *)
Lemma stepping_queues (l : list Step) :
  forall p,
    taskQueue (stepping l p) = fold_left taskQueueStep l (taskQueue p) /\
    microTaskQueue (stepping l p)
    = fold_left microTaskQueueStep l (microTaskQueue p).
Proof.
  induction l as [|s l IH]; intros p.
  - split; reflexivity.
  - rewrite stepping_cons. destruct (IH (executeStep p s p)) as [Ht Hm].
    destruct (stepping_queue_effects s p) as [Et Em].
    rewrite Ht, Hm, Et, Em. split; reflexivity.
Qed.

Lemma plain_taskQueue (l : list Step) :
  Forall plainStep l -> forall q, fold_left taskQueueStep l q = q.
Proof.
  induction 1 as [|s l [Hmove [Hcheck _]] _ IH]; intros q; simpl.
  - reflexivity.
  - unfold taskQueueStep at 2. rewrite Hmove, Hcheck. apply IH.
Qed.

Lemma plain_microTaskQueue (l : list Step) :
  Forall plainStep l ->
  forall q,
    fold_left microTaskQueueStep l q
    = (q ++ map item (stepsOf "addToMicroTask" l))%list.
Proof.
  induction 1 as [|s l [_ [_ Hprocess]] _ IH]; intros q.
  - simpl. rewrite app_nil_r. reflexivity.
  - cbn [fold_left]. rewrite IH, stepsOf_cons.
    unfold microTaskQueueStep. rewrite Hprocess.
    destruct (isAction "addToMicroTask" s); [|reflexivity].
    unfold push. simpl. rewrite <- app_assoc. reflexivity.
Qed.

Lemma plain_of_bounds (m : nat) (l : list Step) :
  Forall (fun s => plainStep s /\ shownStep m s) l -> Forall plainStep l.
Proof.
  intros H. eapply Forall_impl; [|exact H]. intros s [Hp _]. exact Hp.
Qed.

Lemma plain_callbackSteps (what done callback : string) (n : nat)
      (messages : list string) :
  Forall plainStep (callbackSteps what done callback n messages).
Proof.
  unfold callbackSteps. destruct messages as [|x ms].
  - repeat constructor.
  - apply Forall_flat_map. apply Forall_forall. intros y _.
    repeat constructor.
Qed.

Lemma no_enqueue_in_callbackSteps (what done callback : string) (n : nat)
      (messages : list string) :
  stepsOf "addToMicroTask" (callbackSteps what done callback n messages) = [].
Proof.
  pose proof (quiet_micro _ _
                (quiet_callbackSteps what done callback n messages)) as H.
  unfold countOf in H. apply length_zero_iff_nil. exact H.
Qed.

Lemma callbackSteps_keep_queues (what done callback : string) (n : nat)
      (messages : list string) (q : list (option string)) :
  fold_left taskQueueStep (callbackSteps what done callback n messages) q = q
  /\ fold_left microTaskQueueStep
               (callbackSteps what done callback n messages) q = q.
Proof.
  split.
  - apply plain_taskQueue, plain_callbackSteps.
  - rewrite plain_microTaskQueue by apply plain_callbackSteps.
    rewrite no_enqueue_in_callbackSteps. apply app_nil_r.
Qed.

Lemma flat_map_keep_queues {A : Type} (f : A -> list Step) (l : list A) :
  (forall x q, fold_left taskQueueStep (f x) q = q
               /\ fold_left microTaskQueueStep (f x) q = q) ->
  forall q,
    fold_left taskQueueStep (flat_map f l) q = q /\
    fold_left microTaskQueueStep (flat_map f l) q = q.
Proof.
  intros H. induction l as [|x l IH]; intros q; cbn [flat_map].
  - split; reflexivity.
  - rewrite !fold_left_app. destruct (H x q) as [Ht Hm].
    rewrite Ht, Hm. apply IH.
Qed.

Lemma microtaskPhase_queues (pm : list Microtask.t)
      (q : list (option string)) :
  fold_left taskQueueStep (microtaskPhase pm) [] = [] /\
  fold_left microTaskQueueStep (microtaskPhase pm) q
  = match pm with
    | [] => q
    | _ => slice1 q
    end.
Proof.
  destruct pm as [|t pm]; [split; reflexivity|].
  unfold microtaskPhase.
  change (fold_left taskQueueStep (flat_map microtaskSteps (t :: pm)) [] = []
          /\ fold_left microTaskQueueStep
                       (flat_map microtaskSteps (t :: pm)) (slice1 q)
             = slice1 q).
  split; apply (flat_map_keep_queues microtaskSteps);
    intros x q'; apply callbackSteps_keep_queues.
Qed.

Lemma taskSteps_queues (t : Task.t) (q : list (option string)) :
  fold_left taskQueueStep (taskSteps t) [] = [] /\
  fold_left microTaskQueueStep (taskSteps t) q = q.
Proof.
  unfold taskSteps.
  change (fold_left taskQueueStep
            (callbackSteps "Executing callback: " "Callback complete"
               (Task.callback t) (Task.line t) (Task.messages t)) [] = []
          /\ fold_left microTaskQueueStep
               (callbackSteps "Executing callback: " "Callback complete"
                  (Task.callback t) (Task.line t) (Task.messages t)) q = q).
  split; apply callbackSteps_keep_queues.
Qed.

Lemma taskPhase_queues (l : list Task.t) (q : list (option string)) :
  fold_left taskQueueStep (flat_map taskSteps l) [] = [] /\
  fold_left microTaskQueueStep (flat_map taskSteps l) q = q.
Proof.
  induction l as [|t l [IHt IHm]]; cbn [flat_map].
  - split; reflexivity.
  - rewrite !fold_left_app.
    destruct (taskSteps_queues t q) as [Ht Hm]. rewrite Ht, Hm. auto.
Qed.

(** The queues after the whole of a compiled example, stepped through. *)
Lemma compiled_queues_when_stepping (code : string) :
  fold_left taskQueueStep (compileSteps code) [] = [] /\
  (hasFetch code = true ->
   fold_left microTaskQueueStep (compileSteps code) [] = []) /\
  (hasFetch code = false ->
   openOf ActiveCallback.microtask (scanOf code) = 0 ->
   fold_left microTaskQueueStep (compileSteps code) []
   = slice1 (map item (stepsOf "addToMicroTask" (compileSteps code)))).
Proof.
  destruct (hasFetch code) eqn:Hf.
  - rewrite (compileSteps_fetch code Hf). unfold fetchSteps.
    rewrite !fold_left_app.
    assert (K : forall q,
               fold_left taskQueueStep
                 (flat_map syncLogSteps
                    (collectSyncLogs (JS.split JS.nl (JS.trim code)) 0)) q = q
               /\ fold_left microTaskQueueStep
                    (flat_map syncLogSteps
                       (collectSyncLogs (JS.split JS.nl (JS.trim code)) 0)) q
                  = q).
    { apply flat_map_keep_queues. intros x q. split.
      - apply plain_taskQueue. repeat constructor.
      - rewrite plain_microTaskQueue by repeat constructor. apply app_nil_r. }
    destruct (K []) as [Kt Km].
    split; [|split; [intros _|discriminate]].
    + change (fold_left taskQueueStep [_; _; _] []) with (@nil (option string)).
      rewrite Kt. reflexivity.
    + change (fold_left microTaskQueueStep [_; _; _] [])
        with (@nil (option string)).
      rewrite Km. reflexivity.
  - rewrite (compileSteps_lineScan code Hf).
    destruct (scanOf_bounds code) as [Hs _ _ _].
    apply plain_of_bounds in Hs.
    destruct (scanOf_inv code) as [[n Hq] _ Hmicro].
    rewrite !fold_left_app.
    rewrite (plain_taskQueue _ Hs), (plain_microTaskQueue _ Hs).
    rewrite app_nil_l.
    destruct (microtaskPhase_queues (Scan.pendingMicrotasks (scanOf code))
                (map item (stepsOf "addToMicroTask"
                                   (Scan.steps (scanOf code)))))
      as [Pt Pm].
    destruct (taskPhase_queues (sortTasks (Scan.pendingTasks (scanOf code)))
                (fold_left microTaskQueueStep
                   (microtaskPhase (Scan.pendingMicrotasks (scanOf code)))
                   (map item (stepsOf "addToMicroTask"
                                      (Scan.steps (scanOf code))))))
      as [Tt Tm].
    split; [|split; [discriminate|intros _ Hopen]].
    + rewrite Pt. unfold taskPhase. exact Tt.
    + unfold taskPhase. rewrite Tm, Pm.
      rewrite !stepsOf_app.
      assert (Hphase : stepsOf "addToMicroTask"
                         (microtaskPhase
                            (Scan.pendingMicrotasks (scanOf code))) = []).
      { destruct (Scan.pendingMicrotasks (scanOf code)) as [|t pm];
          [reflexivity|].
        unfold microtaskPhase.
        change (stepsOf "addToMicroTask"
                        (flat_map microtaskSteps (t :: pm)) = []).
        apply length_zero_iff_nil.
        apply (quiet_micro 0), quiet_flat_map, quiet_microtaskSteps. }
      assert (Htasks : stepsOf "addToMicroTask"
                         (flat_map taskSteps
                            (sortTasks (Scan.pendingTasks (scanOf code))))
                       = []).
      { apply length_zero_iff_nil.
        change (countOf "addToMicroTask"
                  (flat_map taskSteps
                     (sortTasks (Scan.pendingTasks (scanOf code)))) = 0).
        apply countOf_flat_map_zero. intros t. unfold taskSteps.
        rewrite countOf_app.
        rewrite (quiet_micro _ _ (quiet_callbackSteps _ _ _ _ _)).
        reflexivity. }
      rewrite Hphase, Htasks, !app_nil_r.
      rewrite Hopen, Nat.add_0_r in Hmicro.
      destruct (Scan.pendingMicrotasks (scanOf code)) as [|t pm];
        [|reflexivity].
      simpl in Hmicro. unfold countOf in Hmicro.
      apply length_zero_iff_nil in Hmicro. rewrite Hmicro. reflexivity.
Qed.

(** X8.  Stepping through the whole of any compiled example with Next, from
    the first render, completes and ends with the call stack empty, the task
    queue empty, and the console holding the messages of its [log] steps in
    order. *)
Theorem stepping_through_a_compiled_example
        (code : string) (times : list N) :
  length times = length (compileSteps code) ->
  exists s',
    pressNext times initialState (compileSteps code) = Normal s' /\
    currentStep s' = length (compileSteps code) /\
    callStack s' = [] /\
    taskQueue s' = [] /\
    logs s' = map message (stepsOf "log" (compileSteps code)).
Proof.
  intros Hlen.
  destruct (pressNext_as_stepping times initialState (compileSteps code))
    as (s' & Hrun & Hstep & Hsame); [simpl; lia|].
  simpl currentStep in Hstep, Hsame. rewrite Hlen in Hstep, Hsame.
  cbn [skipn] in Hsame. rewrite firstn_all in Hsame.
  destruct Hsame as (Hstack & Htask & _ & _ & Hlogs & _).
  exists s'. split; [exact Hrun|]. split; [exact Hstep|].
  split; [|split].
  - rewrite Hstack. apply length_zero_iff_nil.
    apply stepping_callStack_depth. apply compileSteps_balanced.
  - rewrite Htask.
    destruct (stepping_queues (compileSteps code) initialState) as [Ht _].
    rewrite Ht. apply compiled_queues_when_stepping.
  - rewrite Hlogs, stepping_logs. reflexivity.
Qed.

Lemma stepping_through_a_compiled_example_witness :
  length [1%N; 2%N; 3%N] = length (compileSteps "console.log('hi')") /\
  exists s',
    pressNext [1%N; 2%N; 3%N] initialState (compileSteps "console.log('hi')")
    = Normal s' /\
    callStack s' = [] /\ taskQueue s' = [].
Proof.
  assert (H : length [1%N; 2%N; 3%N]
              = length (compileSteps "console.log('hi')"))
    by (vm_compute; reflexivity).
  split; [exact H|].
  destruct (stepping_through_a_compiled_example "console.log('hi')"
              [1%N; 2%N; 3%N] H) as (s' & H1 & _ & H3 & H4 & _).
  exists s'. split; [exact H1|]. split; [exact H3 | exact H4].
Defined.

(** X9.  In line-scan mode, for a text that leaves no [.then] callback
    body open, stepping through the whole compiled example removes one
    entry from the microtask queue: at the end the queue holds the items of
    all the [addToMicroTask] steps but the first. *)
Theorem microtasks_left_after_stepping (code : string) (times : list N) :
  hasFetch code = false ->
  openOf ActiveCallback.microtask (scanOf code) = 0 ->
  length times = length (compileSteps code) ->
  exists s',
    pressNext times initialState (compileSteps code) = Normal s' /\
    microTaskQueue s'
    = tl (map item (stepsOf "addToMicroTask" (compileSteps code))).
Proof.
  intros Hf Hopen Hlen.
  destruct (pressNext_as_stepping times initialState (compileSteps code))
    as (s' & Hrun & _ & Hsame); [simpl; lia|].
  simpl currentStep in Hsame. rewrite Hlen in Hsame.
  cbn [skipn] in Hsame. rewrite firstn_all in Hsame.
  destruct Hsame as (_ & _ & Hmicro & _).
  exists s'. split; [exact Hrun|].
  rewrite Hmicro.
  destruct (stepping_queues (compileSteps code) initialState) as [_ Hm].
  rewrite Hm.
  destruct (compiled_queues_when_stepping code) as (_ & _ & H).
  apply (H Hf Hopen).
Qed.

Lemma microtasks_left_after_stepping_witness :
  hasFetch twoPromisesSnippet = false /\
  openOf ActiveCallback.microtask (scanOf twoPromisesSnippet) = 0 /\
  length (repeat 0%N 12) = length (compileSteps twoPromisesSnippet) /\
  exists s',
    pressNext (repeat 0%N 12) initialState (compileSteps twoPromisesSnippet)
    = Normal s' /\
    microTaskQueue s' = [Some "promise callback"].
Proof.
  assert (Hf : hasFetch twoPromisesSnippet = false)
    by (vm_compute; reflexivity).
  assert (Hopen : openOf ActiveCallback.microtask (scanOf twoPromisesSnippet)
                  = 0) by (vm_compute; reflexivity).
  assert (Hlen : length (repeat 0%N 12)
                 = length (compileSteps twoPromisesSnippet))
    by (vm_compute; reflexivity).
  split; [exact Hf|]. split; [exact Hopen|]. split; [exact Hlen|].
  destruct (microtasks_left_after_stepping twoPromisesSnippet
              (repeat 0%N 12) Hf Hopen Hlen) as (s' & H1 & H2).
  exists s'. split; [exact H1|].
  rewrite H2. vm_compute. reflexivity.
Defined.

(** ** The order of the compiled output *)









(** ** Fetch mode *)

(** X12.  A text that contains [fetch(] always compiles: to the three
    steps of the request, three steps for each line that starts with
    [console.log] and holds neither [.then] nor an arrow, and the eleven
    steps of the fixed two-stage chain.  Whatever else the text holds, the
    steps register once, promote once, enqueue and process two microtasks,
    and the console ends with the messages of those lines followed by the
    placeholder of the fetched data. *)
Theorem fetch_mode_shape (code : string) :
  hasFetch code = true ->
  let synchronous :=
    collectSyncLogs (JS.split JS.nl (JS.trim code)) 0 in
  fst (parseCustomCode code)
  = Some (mkExample "Custom Code" "Your custom example" code
                    (compileSteps code)) /\
  length (compileSteps code) = 14 + 3 * length synchronous /\
  countOf "addToWebAPI" (compileSteps code) = 1 /\
  countOf "moveToTaskQueue" (compileSteps code) = 1 /\
  countOf "addToMicroTask" (compileSteps code) = 2 /\
  countOf "processMicroTasks" (compileSteps code) = 2 /\
  map message (stepsOf "log" (compileSteps code))
  = (map (fun l => Some (SyncLog.message l)) synchronous
     ++ [Some ("Data received: { userId: 1, id: 1, title: "
               ++ JS.quoted "..." ++ ", completed: false }")%string])%list.
Proof.
  intros Hf synchronous.
  assert (Hsteps : compileSteps code
                   = fetchSteps (JS.trim code) (JS.split JS.nl (JS.trim code)))
    by (apply compileSteps_fetch; exact Hf).
  split.
  { unfold parseCustomCode. rewrite Hsteps. reflexivity. }
  rewrite Hsteps. unfold fetchSteps. fold synchronous.
  assert (Hlen : length (flat_map syncLogSteps synchronous)
                 = 3 * length synchronous).
  { clear. induction synchronous as [|l ls IH]; [reflexivity|].
    cbn [flat_map]. rewrite length_app, IH. simpl. lia. }
  split; [rewrite !length_app, Hlen; simpl; lia|].
  split.
  { rewrite !countOf_app.
    rewrite (countOf_flat_map_zero "addToWebAPI" syncLogSteps)
      by (intros x; reflexivity). reflexivity. }
  split.
  { rewrite !countOf_app.
    rewrite (countOf_flat_map_zero "moveToTaskQueue" syncLogSteps)
      by (intros x; reflexivity). reflexivity. }
  split.
  { rewrite !countOf_app.
    rewrite (countOf_flat_map_zero "addToMicroTask" syncLogSteps)
      by (intros x; reflexivity). reflexivity. }
  split.
  { rewrite !countOf_app.
    rewrite (countOf_flat_map_zero "processMicroTasks" syncLogSteps)
      by (intros x; reflexivity). reflexivity. }
  rewrite !stepsOf_app, !map_app.
  assert (Hsync : map message (stepsOf "log" (flat_map syncLogSteps synchronous))
                  = map (fun l => Some (SyncLog.message l)) synchronous).
  { clear. induction synchronous as [|l ls IH]; [reflexivity|].
    cbn [flat_map]. rewrite stepsOf_app, map_app, IH. reflexivity. }
  rewrite Hsync. reflexivity.
Qed.

Lemma fetch_mode_shape_witness :
  hasFetch Examples.fetch_code = true /\
  length (compileSteps Examples.fetch_code) = 14 + 3 * 3 /\
  countOf "moveToTaskQueue" (compileSteps Examples.fetch_code) = 1.
Proof.
  assert (Hf : hasFetch Examples.fetch_code = true)
    by (vm_compute; reflexivity).
  destruct (fetch_mode_shape Examples.fetch_code Hf)
    as (_ & Hlen & _ & Hmove & _).
  split; [exact Hf|]. split; [|exact Hmove].
  rewrite Hlen. vm_compute. reflexivity.
Defined.

(** ** Sharing a position and loading it *)

Lemma of_uint_acc_value (u : Decimal.uint) :
  forall p : positive,
    N.pos (Pos.of_uint_acc u p)
    = fold_left (fun acc c => (10 * acc + N.of_nat (nat_of_ascii c - 48))%N)
                (list_ascii_of_string (NilEmpty.string_of_uint u))
                (N.pos p).
Proof.
  induction u as [|u IH|u IH|u IH|u IH|u IH|u IH|u IH|u IH|u IH|u IH];
    intros p; cbn [Pos.of_uint_acc NilEmpty.string_of_uint
                   list_ascii_of_string fold_left];
    [reflexivity|..]; rewrite IH; f_equal;
    match goal with
    | |- context [N.of_nat ?t] =>
        let v := eval vm_compute in (N.of_nat t) in
        change (N.of_nat t) with v
    end;
    lia.
Qed.

Lemma parseInt_string_of_uint (u : Decimal.uint) :
  JS.parseInt (NilEmpty.string_of_uint u) = N.of_uint u.
Proof.
  unfold JS.parseInt, N.of_uint.
  induction u as [|u IH|u IH|u IH|u IH|u IH|u IH|u IH|u IH|u IH|u IH];
    cbn [Pos.of_uint NilEmpty.string_of_uint list_ascii_of_string fold_left];
    [reflexivity | exact IH | ..];
    rewrite of_uint_acc_value; reflexivity.
Qed.

Lemma takeDigits_string_of_uint (u : Decimal.uint) :
  takeDigits (NilEmpty.string_of_uint u) = NilEmpty.string_of_uint u.
Proof.
  induction u as [|u IH|u IH|u IH|u IH|u IH|u IH|u IH|u IH|u IH|u IH];
    cbn [NilEmpty.string_of_uint takeDigits]; [reflexivity|..];
    simpl JS.isDigit; cbn iota; rewrite IH; reflexivity.
Qed.

Lemma parseIntDecimal_digit_first (c : ascii) (r : string) :
  JS.isDigit c = true ->
  parseIntDecimal (String c r)
  = Some (Z.of_N (JS.parseInt (takeDigits (String c r)))).
Proof.
  intros Hd. unfold parseIntDecimal.
  assert (Hw : JS.isWhiteSpace c = false /\ Ascii.eqb c "-" = false
               /\ Ascii.eqb c "+" = false).
  { destruct c as [[|] [|] [|] [|] [|] [|] [|] [|]];
      try discriminate Hd; repeat split. }
  destruct Hw as (Hw & Hminus & Hplus).
  cbn [JS.trimStart]. rewrite Hw, Hminus, Hplus. cbn [fst snd takeDigits].
  rewrite Hd. reflexivity.
Qed.

(** The decimal text of a number reads back as the number. *)
Lemma parseIntDecimal_numberToString (n : N) :
  parseIntDecimal (JS.numberToString n) = Some (Z.of_N n).
Proof.
  unfold JS.numberToString, NilZero.string_of_uint.
  rewrite <- (DecimalN.Unsigned.of_to n) at 2.
  destruct (N.to_uint n) as [|u|u|u|u|u|u|u|u|u|u] eqn:Hu;
    [reflexivity|..];
    rewrite <- parseInt_string_of_uint;
    match goal with
    | |- parseIntDecimal ?s = _ =>
        rewrite <- (takeDigits_string_of_uint _) at 2;
        apply parseIntDecimal_digit_first; reflexivity
    end.
Qed.

Lemma numberToString_not_empty (n : N) :
  JS.isEmpty (JS.numberToString n) = false.
Proof.
  unfold JS.numberToString, NilZero.string_of_uint.
  destruct (N.to_uint n); reflexivity.
Qed.

(** X13.  The two parameters [handleShare] writes are read back by the
    mount effect as the same example and the same step, capped at the
    number of steps of that example; a link to the custom example is
    ignored. *)
Theorem shared_link_is_read_back (app : AppState) :
  loadFromURL (Some (fst (shareParams app))) (Some (snd (shareParams app)))
  = if isCustom (selectedExample app) then Ignored
    else Selected (selectedExample app)
           (Some (Z.min (Z.of_nat (currentStep (model app)))
                        (Z.of_nat
                           (length
                              (steps (allExamples emptyCustomExample
                                                  (selectedExample app))))))).
Proof.
  unfold shareParams, loadFromURL. cbn [fst snd].
  rewrite numberToString_not_empty, parseIntDecimal_numberToString, nat_N_Z.
  destruct (selectedExample app); reflexivity.
Qed.

(** X14.  The jump of a link is replayed over the steps of the basic
    example, whatever example the link names: a link past step 14 into any
    example that has that many steps is read back as written, and its jump
    raises after the fourteen steps of the basic example, whose three
    messages are left in the console. *)
Theorem linked_jump_replays_the_basic_example (key : ExampleKey) (n : nat) :
  isCustom key = false ->
  14 < n <= length (steps (allExamples emptyCustomExample key)) ->
  loadFromURL (Some (keyName key)) (Some (JS.numberToString (N.of_nat n)))
  = Selected key (Some (Z.of_nat n)) /\
  exists s,
    urlJump n = TypeError s /\
    logs s = [Some "Start"; Some "End"; Some "Timeout"] /\
    currentStep s = 0.
Proof.
  intros Hcustom [Hlow Hhigh]. split.
  - assert (Hkey : staticKeyOf (keyName key) = Some key)
      by (destruct key; try discriminate Hcustom; reflexivity).
    assert (Hname : JS.isEmpty (keyName key) = false)
      by (destruct key; reflexivity).
    unfold loadFromURL.
    rewrite Hname, Hkey, numberToString_not_empty,
      parseIntDecimal_numberToString, nat_N_Z.
    rewrite Z.min_l by lia. reflexivity.
  - unfold urlJump.
    destruct (goToStep_as_run initialState
                (steps (allExamples emptyCustomExample basic)) n)
      as [_ Hout].
    rewrite Hout by (vm_compute; lia).
    eexists. split; [reflexivity|].
    split; vm_compute; reflexivity.
Qed.

Lemma linked_jump_replays_the_basic_example_witness :
  isCustom promise = false /\
  14 < 21 <= length (steps (allExamples emptyCustomExample promise)) /\
  loadFromURL (Some "promise") (Some "21") = Selected promise (Some 21%Z) /\
  exists s, urlJump 21 = TypeError s.
Proof.
  assert (H : 14 < 21 <= length (steps (allExamples emptyCustomExample
                                                    promise)))
    by (vm_compute; lia).
  destruct (linked_jump_replays_the_basic_example promise 21 eq_refl H)
    as (Hload & s & Hjump & _).
  split; [reflexivity|]. split; [exact H|].
  split; [exact Hload|]. exists s. exact Hjump.
Defined.

(** ** The shortcuts *)

(** X15.  From a speed that the slider can show, a multiple of 200 between
    200 and 2000, either speed shortcut gives such a speed again: the faster
    one 200 less, stopping at 200, the slower one 200 more, stopping at
    2000. *)
Theorem speed_shortcuts_stay_on_the_slider (prev : Z) :
  (200 <= prev <= 2000)%Z ->
  (exists k, prev = 200 * k)%Z ->
  ((200 <= speedFaster prev <= 2000)%Z /\
   (exists k, speedFaster prev = 200 * k)%Z /\
   speedFaster prev = (if (prev =? 200)%Z then 200 else prev - 200)%Z) /\
  ((200 <= speedSlower prev <= 2000)%Z /\
   (exists k, speedSlower prev = 200 * k)%Z /\
   speedSlower prev = (if (prev =? 2000)%Z then 2000 else prev + 200)%Z).
Proof.
  intros Hrange [k Hk]. unfold speedFaster, speedSlower.
  destruct (Z.eqb_spec prev 200) as [H200|H200];
    destruct (Z.eqb_spec prev 2000) as [H2000|H2000];
    repeat split; try lia;
    try (exists 1%Z; lia); try (exists 10%Z; lia);
    try (exists (k - 1)%Z; lia); try (exists (k + 1)%Z; lia).
Qed.

Lemma speed_shortcuts_stay_on_the_slider_witness :
  (200 <= 1000 <= 2000)%Z /\
  (exists k, 1000 = 200 * k)%Z /\
  speedFaster 1000 = 800%Z /\ speedSlower 1000 = 1200%Z.
Proof.
  assert (Hr : (200 <= 1000 <= 2000)%Z) by lia.
  assert (Hk : (exists k, 1000 = 200 * k)%Z) by (exists 5%Z; reflexivity).
  destruct (speed_shortcuts_stay_on_the_slider 1000 Hr Hk)
    as ((_ & _ & Hf) & (_ & _ & Hs)).
  split; [exact Hr|]. split; [exact Hk|]. split; [exact Hf | exact Hs].
Defined.

(** ** The code panel *)

Lemma split_not_nil (sep : ascii) (s : string) : JS.split sep s <> [].
Proof.
  induction s as [|c s IH]; simpl; [discriminate|].
  destruct (Ascii.eqb c sep); [discriminate|].
  destruct (JS.split sep s); [contradiction|discriminate].
Qed.

Lemma split_cons_length (sep c : ascii) (s : string) :
  length (JS.split sep (String c s))
  = (if Ascii.eqb c sep then 1 else 0) + length (JS.split sep s).
Proof.
  pose proof (split_not_nil sep s) as Hne. simpl.
  destruct (Ascii.eqb c sep); [reflexivity|].
  destruct (JS.split sep s); [contradiction|reflexivity].
Qed.

Lemma split_length_pos (sep : ascii) (s : string) :
  1 <= length (JS.split sep s).
Proof.
  pose proof (split_not_nil sep s). destruct (JS.split sep s); simpl;
    [contradiction|lia].
Qed.

Lemma split_length_countChar (sep : ascii) (s : string) :
  Z.of_nat (length (JS.split sep s)) = (1 + JS.countChar s sep)%Z.
Proof.
  induction s as [|c s IH]; [reflexivity|].
  rewrite split_cons_length. cbn [JS.countChar].
  destruct (Ascii.eqb c sep); lia.
Qed.

Lemma split_trimStart_length (sep : ascii) (s : string) :
  length (JS.split sep (JS.trimStart s)) <= length (JS.split sep s).
Proof.
  induction s as [|c s IH]; [apply Nat.le_refl|].
  cbn [JS.trimStart]. destruct (JS.isWhiteSpace c); [|apply Nat.le_refl].
  rewrite split_cons_length. lia.
Qed.

Lemma split_trimEnd_length (sep : ascii) (s : string) :
  length (JS.split sep (JS.trimEnd s)) <= length (JS.split sep s).
Proof.
  induction s as [|c s IH]; [apply Nat.le_refl|].
  cbn [JS.trimEnd].
  destruct (JS.isWhiteSpace c && JS.isEmpty (JS.trimEnd s)).
  - apply split_length_pos.
  - rewrite !split_cons_length. lia.
Qed.

Lemma split_trim_length (sep : ascii) (s : string) :
  length (JS.split sep (JS.trim s)) <= length (JS.split sep s).
Proof.
  unfold JS.trim.
  eapply Nat.le_trans; [apply split_trimEnd_length|].
  apply split_trimStart_length.
Qed.

Lemma renderRows_numbers (h : option nat) (lines : list string) :
  forall index,
    map Row.lineNumber (renderRows h lines index)
    = seq (index + 1) (length lines).
Proof.
  induction lines as [|l lines IH]; intros index; [reflexivity|].
  cbn [renderRows map length seq Row.lineNumber]. f_equal.
  rewrite IH. reflexivity.
Qed.

Lemma renderRows_texts (h : option nat) (lines : list string) :
  forall index,
    Forall (fun r => JS.isEmpty (Row.text r) = false)
           (renderRows h lines index).
Proof.
  induction lines as [|l lines IH]; intros index; constructor.
  - cbn [Row.text]. destruct l; reflexivity.
  - apply IH.
Qed.

Lemma renderRows_plain (lines : list string) :
  forall index,
    filter Row.isHighlighted (renderRows None lines index) = [].
Proof.
  induction lines as [|l lines IH]; intros index; [reflexivity|].
  cbn [renderRows filter Row.isHighlighted]. apply IH.
Qed.

Lemma renderRows_highlighted (h : nat) (lines : list string) :
  forall index,
    map Row.lineNumber
        (filter Row.isHighlighted (renderRows (Some h) lines index))
    = if Nat.leb (index + 1) h && Nat.leb h (index + length lines)
      then [h] else [].
Proof.
  induction lines as [|l lines IH]; intros index.
  - cbn [renderRows filter map length].
    destruct (Nat.leb (index + 1) h) eqn:E1; [|reflexivity].
    destruct (Nat.leb h (index + 0)) eqn:E2; [|reflexivity].
    apply Nat.leb_le in E1, E2. lia.
  - cbn [renderRows filter Row.isHighlighted length].
    destruct (Nat.eqb h (index + 1)) eqn:E;
      cbn [map Row.lineNumber]; rewrite (IH (S index)).
    + apply Nat.eqb_eq in E. subst h.
      replace (Nat.leb (S index + 1) (index + 1)) with false
        by (symmetry; apply Nat.leb_gt; lia).
      replace (Nat.leb (index + 1) (index + 1)) with true
        by (symmetry; apply Nat.leb_le; lia).
      replace (Nat.leb (index + 1) (index + S (length lines))) with true
        by (symmetry; apply Nat.leb_le; lia).
      reflexivity.
    + apply Nat.eqb_neq in E.
      destruct (Nat.leb (S index + 1) h) eqn:E1.
      * apply Nat.leb_le in E1.
        replace (Nat.leb (index + 1) h) with true
          by (symmetry; apply Nat.leb_le; lia).
        replace (index + S (length lines)) with (S index + length lines)
          by lia.
        reflexivity.
      * apply Nat.leb_gt in E1.
        replace (Nat.leb (index + 1) h) with false
          by (symmetry; apply Nat.leb_gt; lia).
        reflexivity.
Qed.

Lemma renderCode_length (h : option nat) (code : string) :
  length (renderCodeWithHighlight h code) = length (JS.split JS.nl code).
Proof.
  unfold renderCodeWithHighlight.
  rewrite <- (length_map Row.lineNumber), renderRows_numbers.
  apply length_seq.
Qed.

(** X16.  The code panel has one row per line of the code, one more than
    the code has line feeds; the rows are numbered from 1, none shows an
    empty text, and the highlighted rows are the row whose number is the
    highlighted line, if there is one: a line below 1 or past the last row
    highlights nothing. *)
Theorem code_panel_rows (highlightedLine : option nat) (code : string) :
  let rows := renderCodeWithHighlight highlightedLine code in
  Z.of_nat (length rows) = (1 + JS.countChar code JS.nl)%Z /\
  map Row.lineNumber rows = seq 1 (length rows) /\
  Forall (fun r => JS.isEmpty (Row.text r) = false) rows /\
  map Row.lineNumber (filter Row.isHighlighted rows)
  = match highlightedLine with
    | Some h => if Nat.leb 1 h && Nat.leb h (length rows) then [h] else []
    | None => []
    end.
Proof.
  cbv zeta. rewrite renderCode_length. unfold renderCodeWithHighlight.
  split; [apply split_length_countChar|].
  split; [apply (renderRows_numbers _ _ 0)|].
  split; [apply renderRows_texts|].
  destruct highlightedLine as [h|].
  - apply (renderRows_highlighted h _ 0).
  - rewrite renderRows_plain. reflexivity.
Qed.

Lemma run_highlight (r : ModelState) (l : list Step) :
  forall p h,
    highlightedLine (run r l p) = Some h ->
    highlightedLine p = Some h \/ exists s, In s l /\ line s = Some h.
Proof.
  induction l as [|s l IH]; intros p h H.
  - left. exact H.
  - rewrite run_cons in H. destruct (IH _ _ H) as [Hp|(s' & Hin & Hl)].
    + rewrite executeStep_highlight_effect in Hp.
      destruct (line s) as [n|] eqn:E.
      * right. exists s. split; [left; reflexivity|congruence].
      * left. exact Hp.
    + right. exists s'. split; [right; exact Hin|exact Hl].
Qed.

Lemma goToStep_highlight (rendered : ModelState) (all : list Step)
      (k h : nat) :
  highlightedLine (stateOf (goToStep rendered all k)) = Some h ->
  exists s, In s all /\ line s = Some h.
Proof.
  destruct (goToStep_as_run rendered all k) as [Hin Hout].
  destruct (Nat.le_gt_cases k (length all)) as [Hk|Hk].
  - rewrite (Hin Hk). simpl. intros H.
    destruct (run_highlight _ _ _ _ H) as [Hp|(s & Hs & Hl)];
      [discriminate|].
    exists s. split; [|exact Hl].
    rewrite <- (firstn_skipn k all). apply in_or_app. left. exact Hs.
  - rewrite (Hout Hk). simpl. intros H.
    destruct (run_highlight _ _ _ _ H) as [Hp|(s & Hs & Hl)];
      [discriminate|].
    exists s. split; assumption.
Qed.

(** X17.  In line-scan mode, wherever a jump into the compiled example
    stops, the line it leaves highlighted is a row of the code panel, which
    shows the text as it was entered: exactly that row is highlighted. *)
Theorem highlighted_line_is_a_row
        (code : string) (rendered : ModelState) (k h : nat) :
  hasFetch code = false ->
  highlightedLine (stateOf (goToStep rendered (compileSteps code) k))
  = Some h ->
  map Row.lineNumber
      (filter Row.isHighlighted (renderCodeWithHighlight (Some h) code))
  = [h].
Proof.
  intros Hf H.
  destruct (goToStep_highlight _ _ _ _ H) as (s & Hin & Hl).
  pose proof (lineScan_steps_shown code Hf) as Hall.
  rewrite Forall_forall in Hall. destruct (Hall s Hin) as [_ Hb].
  specialize (Hb h Hl).
  pose proof (split_trim_length JS.nl code) as Hle.
  unfold renderCodeWithHighlight.
  rewrite (renderRows_highlighted h _ 0).
  replace (Nat.leb (0 + 1) h) with true by (symmetry; apply Nat.leb_le; lia).
  replace (Nat.leb h (0 + length (JS.split JS.nl code))) with true
    by (symmetry; apply Nat.leb_le; lia).
  reflexivity.
Qed.

Lemma highlighted_line_is_a_row_witness :
  hasFetch Examples.basic_code = false /\
  highlightedLine
    (stateOf (goToStep initialState (compileSteps Examples.basic_code) 4))
  = Some 3 /\
  map Row.lineNumber
      (filter Row.isHighlighted
              (renderCodeWithHighlight (Some 3) Examples.basic_code))
  = [3].
Proof.
  assert (Hf : hasFetch Examples.basic_code = false)
    by (vm_compute; reflexivity).
  assert (H : highlightedLine
                (stateOf (goToStep initialState
                                   (compileSteps Examples.basic_code) 4))
              = Some 3) by (vm_compute; reflexivity).
  split; [exact Hf|]. split; [exact H|].
  exact (highlighted_line_is_a_row Examples.basic_code initialState 4 3 Hf H).
Defined.

Lemma run_highlight_fold (r : ModelState) (l : list Step) :
  forall p,
    highlightedLine (run r l p)
    = fold_left (fun (h : option nat) (s : Step) =>
                   match line s with
                   | Some n => Some n
                   | None => h
                   end)
                l (highlightedLine p).
Proof.
  induction l as [|s l IH]; intros p; [reflexivity|].
  rewrite run_cons, IH, executeStep_highlight_effect. reflexivity.
Qed.

(** X18.  In fetch mode the steps of the fixed chain carry the lines 1, 2
    and 3 whatever the text: after a full replay of a text of fewer than
    three lines the highlighted line is 3, and the code panel, which has no
    such row, highlights nothing. *)
Theorem fetch_mode_highlight_misses_short_texts
        (code : string) (rendered : ModelState) :
  hasFetch code = true ->
  length (JS.split JS.nl code) < 3 ->
  highlightedLine
    (stateOf (goToStep rendered (compileSteps code)
                       (length (compileSteps code))))
  = Some 3 /\
  filter Row.isHighlighted (renderCodeWithHighlight (Some 3) code) = [].
Proof.
  intros Hf Hshort. split.
  - destruct (goToStep_as_run rendered (compileSteps code)
                (length (compileSteps code))) as [Hin _].
    rewrite (Hin (Nat.le_refl _)), firstn_all.
    rewrite (compileSteps_fetch code Hf). unfold fetchSteps.
    cbn [stateOf]. unfold setCurrentStep. cbn [highlightedLine].
    rewrite run_highlight_fold, app_assoc, fold_left_app.
    match goal with
    | |- fold_left ?f _ (fold_left ?f ?head ?init) = _ =>
        generalize (fold_left f head init)
    end.
    intros h. reflexivity.
  - apply (map_eq_nil Row.lineNumber).
    unfold renderCodeWithHighlight.
    rewrite (renderRows_highlighted 3 _ 0).
    replace (Nat.leb 3 (0 + length (JS.split JS.nl code))) with false
      by (symmetry; apply Nat.leb_gt; lia).
    rewrite andb_false_r. reflexivity.
Qed.

Lemma fetch_mode_highlight_misses_short_texts_witness :
  let code := "fetch('/api/user').then(r => r.json());" in
  hasFetch code = true /\
  length (JS.split JS.nl code) < 3 /\
  highlightedLine
    (stateOf (goToStep initialState (compileSteps code)
                       (length (compileSteps code))))
  = Some 3 /\
  filter Row.isHighlighted (renderCodeWithHighlight (Some 3) code) = [].
Proof.
  cbv zeta.
  assert (Hf : hasFetch "fetch('/api/user').then(r => r.json());" = true)
    by (vm_compute; reflexivity).
  assert (Hs : length (JS.split JS.nl
                         "fetch('/api/user').then(r => r.json());") < 3)
    by (vm_compute; lia).
  split; [exact Hf|]. split; [exact Hs|].
  exact (fetch_mode_highlight_misses_short_texts _ initialState Hf Hs).
Defined.

(** ** Autoplay *)

Lemma autoplay_executes (now : N) (s : ModelState) (all : list Step)
      (step : Step) :
  isRunning s = true ->
  nth_error all (currentStep s) = Some step ->
  exists s',
    autoplay now s all = Normal s' /\
    isRunning s' = true /\
    currentStep s' = S (currentStep s) /\
    sameModel s' (executeStep s step s).
Proof.
  intros Hrun Hnth. unfold autoplay.
  assert (Hlt : currentStep s < length all)
    by (apply nth_error_Some; congruence).
  apply Nat.ltb_lt in Hlt. rewrite Hrun, Hlt, Hnth. cbn [andb].
  set (s1 := match startTimeRef s with
             | Some t => if N.eqb t 0 then s else setElapsedTime s (now - t)%N
             | None => s
             end).
  assert (Hs1 : isRunning s1 = true /\ currentStep s1 = currentStep s /\
                sameModel s1 s).
  { unfold s1. destruct (startTimeRef s) as [t|];
      [destruct (N.eqb t 0)|]; (split; [exact Hrun|]);
      (split; [reflexivity|]); repeat split. }
  destruct Hs1 as (Hr1 & Hc1 & Hm1).
  destruct (executeStep_frame s step s1) as (Hr & Hc & _).
  eexists. split; [reflexivity|].
  split; [cbn [setCurrentStep isRunning]; congruence|].
  split; [cbn [setCurrentStep currentStep]; congruence|].
  apply (sameModel_trans _ (executeStep s step s1)).
  - repeat split.
  - apply executeStep_sameModel; [apply sameModel_refl|exact Hm1].
Qed.

Lemma autoplayRun_as_stepping (times : list N) (all : list Step) :
  forall s,
    isRunning s = true ->
    currentStep s + length times <= length all ->
    exists s',
      autoplayRun times s all = Normal s' /\
      isRunning s' = true /\
      currentStep s' = currentStep s + length times /\
      sameModel s'
        (stepping (firstn (length times) (skipn (currentStep s) all)) s).
Proof.
  induction times as [|now times IH]; intros s Hrun Hle.
  - exists s. simpl. rewrite Nat.add_0_r.
    split; [reflexivity|]. split; [exact Hrun|].
    split; [reflexivity|apply sameModel_refl].
  - simpl length in *.
    destruct (nth_error all (currentStep s)) as [step|] eqn:Hnth;
      [|apply nth_error_None in Hnth; lia].
    destruct (autoplay_executes now s all step Hrun Hnth)
      as (s1 & H1 & Hr1 & Hc1 & Hm1).
    destruct (IH s1 Hr1) as (s' & H' & Hr' & Hc' & Hm'); [lia|].
    exists s'. cbn [autoplayRun]. rewrite H1.
    split; [exact H'|]. split; [exact Hr'|]. split; [lia|].
    rewrite (skipn_nth_error _ _ _ Hnth). cbn [firstn].
    rewrite stepping_cons, Hc1 in *.
    eapply sameModel_trans; [exact Hm'|].
    apply stepping_sameModel. exact Hm1.
Qed.

Lemma autoplayRun_app (times more : list N) (all : list Step) :
  forall s s',
    autoplayRun times s all = Normal s' ->
    autoplayRun (times ++ more) s all = autoplayRun more s' all.
Proof.
  induction times as [|now times IH]; intros s s' H.
  - simpl in H. inversion H. reflexivity.
  - rewrite <- app_comm_cons. cbn [autoplayRun] in H |- *.
    destruct (autoplay now s all) as [s1|s1]; [|discriminate].
    apply IH. exact H.
Qed.

Lemma autoplay_stopped (s : ModelState) (all : list Step) :
  length all <= currentStep s ->
  forall more,
    autoplayRun more (setHighlightedLine (setIsRunning s false) None) all
    = Normal (setHighlightedLine (setIsRunning s false) None).
Proof.
  intros Hend. apply Nat.leb_le in Hend.
  induction more as [|now more IH]; [reflexivity|].
  cbn [autoplayRun]. unfold autoplay at 1.
  cbn [isRunning setHighlightedLine setIsRunning currentStep andb].
  rewrite Hend. exact IH.
Qed.

Lemma autoplayRun_to_the_end
      (times : list N) (now : N) (s : ModelState) (all : list Step) :
  isRunning s = true ->
  currentStep s + length times = length all ->
  exists s',
    autoplayRun (times ++ [now]) s all = Normal s' /\
    isRunning s' = false /\
    currentStep s' = length all /\
    sameModel s'
      (setHighlightedLine (stepping (skipn (currentStep s) all) s) None) /\
    forall more, autoplayRun (times ++ now :: more) s all = Normal s'.
Proof.
  intros Hrun Hlen.
  destruct (autoplayRun_as_stepping times all s Hrun)
    as (s1 & H1 & Hr1 & Hc1 & Hm1); [lia|].
  assert (Hend : length all <= currentStep s1) by lia.
  assert (Hstop : autoplay now s1 all
                  = Normal (setHighlightedLine (setIsRunning s1 false) None)).
  { unfold autoplay.
    replace (Nat.ltb (currentStep s1) (length all)) with false
      by (symmetry; apply Nat.ltb_ge; lia).
    rewrite andb_false_r.
    replace (Nat.leb (length all) (currentStep s1)) with true
      by (symmetry; apply Nat.leb_le; lia).
    reflexivity. }
  exists (setHighlightedLine (setIsRunning s1 false) None).
  split.
  { rewrite (autoplayRun_app times [now] all s s1 H1).
    cbn [autoplayRun]. rewrite Hstop. reflexivity. }
  split; [reflexivity|].
  split; [cbn [setHighlightedLine setIsRunning currentStep]; lia|].
  split.
  - rewrite firstn_all2 in Hm1
      by (rewrite length_skipn; lia).
    destruct Hm1 as (A1 & A2 & A3 & A4 & A5 & _ & A7 & A8).
    repeat split; assumption.
  - intros more.
    rewrite (autoplayRun_app times (now :: more) all s s1 H1).
    cbn [autoplayRun]. rewrite Hstop.
    apply autoplay_stopped. exact Hend.
Qed.

(** X19.  Autoplay, started while running at a step within the example,
    takes one timer per remaining step and one more render to stop: it then
    is at the end, no longer running, with no line highlighted and otherwise
    the model that stepping through the remaining steps gives; and it stays
    as it is however many more times the effect runs. *)
Theorem autoplay_runs_to_the_end_and_stops
        (times : list N) (now : N) (s : ModelState) (all : list Step) :
  isRunning s = true ->
  currentStep s + length times = length all ->
  exists s',
    autoplayRun (times ++ [now]) s all = Normal s' /\
    isRunning s' = false /\
    currentStep s' = length all /\
    sameModel s'
      (setHighlightedLine (stepping (skipn (currentStep s) all) s) None) /\
    forall more, autoplayRun (times ++ now :: more) s all = Normal s'.
Proof. apply autoplayRun_to_the_end. Qed.

Lemma autoplay_runs_to_the_end_and_stops_witness :
  let s := setCurrentStep (setIsRunning initialState true) (fun _ => 12) in
  isRunning s = true /\
  currentStep s + length [3%N; 4%N] = length Examples.basic_steps /\
  exists s',
    autoplayRun ([3%N; 4%N] ++ [5%N]) s Examples.basic_steps = Normal s' /\
    isRunning s' = false /\
    currentStep s' = length Examples.basic_steps.
Proof.
  cbv zeta.
  assert (Hr : isRunning (setCurrentStep (setIsRunning initialState true)
                                         (fun _ => 12)) = true)
    by reflexivity.
  assert (Hl : currentStep (setCurrentStep (setIsRunning initialState true)
                                           (fun _ => 12))
               + length [3%N; 4%N] = length Examples.basic_steps)
    by (vm_compute; reflexivity).
  split; [exact Hr|]. split; [exact Hl|].
  destruct (autoplay_runs_to_the_end_and_stops [3%N; 4%N] 5%N _
              Examples.basic_steps Hr Hl) as (s' & H1 & H2 & H3 & _).
  exists s'. split; [exact H1|]. split; [exact H2|exact H3].
Defined.

(** ** The keyboard shortcuts *)

Lemma exampleKeys_static (customExample : Example) :
  exampleKeys customExample
  = ([ basic; promise; advanced; fetch; asyncAwait; multiplePromises;
       eventListener; apiError; debounce; promiseRace;
       requestAnimationFrame ]
     ++ if Nat.ltb 0 (length (steps customExample)) then [custom] else [])%list.
Proof.
  unfold exampleKeys, allKeys. cbn [filter isCustom negb orb].
  destruct (Nat.ltb 0 (length (steps customExample))); reflexivity.
Qed.

Lemma togglePlay_currentStep (now : N) (s : ModelState) (all : list Step) :
  currentStep (togglePlay now s all) <= currentStep s.
Proof.
  unfold togglePlay.
  destruct (Nat.leb (length all) (currentStep s));
    destruct (isRunning s); cbn [startTimeRef reset setStartTimeRef];
    try (destruct (startTimeRef s)); cbn; lia.
Qed.

Lemma nextStep_in_range (now : N) (s : ModelState) (all : list Step) :
  currentStep s <= length all ->
  exists s',
    nextStep now s all = Normal s' /\ currentStep s' <= length all.
Proof.
  intros Hle. unfold nextStep.
  destruct (Nat.ltb (currentStep s) (length all)) eqn:Hlt.
  - apply Nat.ltb_lt in Hlt.
    destruct (nth_error all (currentStep s)) as [step|] eqn:Hnth;
      [|apply nth_error_None in Hnth; lia].
    eexists. split; [reflexivity|].
    cbn [setCurrentStep currentStep].
    match goal with
    | |- S (currentStep (executeStep ?r ?st ?p)) <= _ =>
        destruct (executeStep_frame r st p) as (_ & Hc & _); rewrite Hc
    end.
    cbn. lia.
  - exists s. split; [reflexivity|exact Hle].
Qed.

Lemma prevStep_in_range (s : ModelState) (all : list Step) :
  currentStep s <= length all ->
  exists s',
    prevStep s all = Normal s' /\ currentStep s' <= length all.
Proof.
  intros Hle. unfold prevStep.
  destruct (Nat.ltb 0 (currentStep s)) eqn:Hpos.
  - destruct (replayLoop_total s all (currentStep s - 1) 0
                (reset (setIsRunning s false))) as [s1 H1]; [lia|].
    rewrite H1. eexists. split; [reflexivity|].
    cbn [setCurrentStep currentStep]. lia.
  - exists s. split; [reflexivity|exact Hle].
Qed.

Lemma goToStep_in_range (s : ModelState) (all : list Step) (k : nat) :
  k <= length all ->
  exists s',
    goToStep s all k = Normal s' /\ currentStep s' = k.
Proof.
  intros Hk. destruct (goToStep_as_run s all k) as [Hin _].
  rewrite (Hin Hk). eexists. split; reflexivity.
Qed.

(** X20.  While the current step is within the selected example, no
    keyboard shortcut raises, and every shortcut leaves the current step
    within the example then selected.  A shortcut selects the custom
    example only if it was selected already: the digits reach the first
    five keys. *)
Theorem shortcuts_keep_the_step_in_range
        (now : N) (ui : UI) (e : KeyEvent.t) :
  currentStep (model (app ui)) <= length (selectedSteps (app ui)) ->
  let after := handleKeyDown now ui e in
  snd after = false /\
  currentStep (model (app (fst after)))
  <= length (selectedSteps (app (fst after))) /\
  (selectedExample (app (fst after)) = custom ->
   selectedExample (app ui) = custom).
Proof.
  intros Hle. cbv zeta. unfold handleKeyDown.
  destruct (KeyEvent.inTextField e); [auto|].
  destruct (String.eqb (KeyEvent.code e) "Space").
  { cbn [fst snd]. split; [reflexivity|]. split; [|auto].
    pose proof (togglePlay_currentStep now (model (app ui))
                  (selectedSteps (app ui))) as Ht.
    unfold withModel, selectedSteps in *. cbn in *. lia. }
  destruct (String.eqb (KeyEvent.code e) "ArrowRight").
  { destruct (nextStep_in_range now _ _ Hle) as (s' & H1 & H2).
    rewrite H1. cbn [fst snd]. auto. }
  destruct (String.eqb (KeyEvent.code e) "ArrowLeft").
  { destruct (prevStep_in_range _ _ Hle) as (s' & H1 & H2).
    rewrite H1. cbn [fst snd]. auto. }
  destruct (String.eqb (KeyEvent.code e) "ArrowUp"); [auto|].
  destruct (String.eqb (KeyEvent.code e) "ArrowDown"); [auto|].
  destruct (String.eqb (KeyEvent.code e) "KeyR").
  { destruct (negb (KeyEvent.ctrlKey e) && negb (KeyEvent.metaKey e));
      [|auto].
    cbn [fst snd]. split; [reflexivity|]. split; [|auto].
    unfold withModel, selectedSteps. cbn. lia. }
  destruct (String.eqb (KeyEvent.code e) "Home").
  { destruct (goToStep_in_range (model (app ui)) (selectedSteps (app ui)) 0)
      as (s' & H1 & H2); [lia|].
    rewrite H1. cbn [fst snd]. split; [reflexivity|]. split; [|auto].
    unfold withModel, selectedSteps in *. cbn in *. lia. }
  destruct (String.eqb (KeyEvent.code e) "End").
  { destruct (goToStep_in_range (model (app ui)) (selectedSteps (app ui))
                (length (selectedSteps (app ui))))
      as (s' & H1 & H2); [lia|].
    rewrite H1. cbn [fst snd]. split; [reflexivity|]. split; [|auto].
    unfold withModel, selectedSteps in *. cbn in *. lia. }
  destruct (String.eqb (KeyEvent.code e) "Slash"
            || String.eqb (KeyEvent.code e) "Digit191").
  { destruct (KeyEvent.shiftKey e); auto. }
  destruct (String.eqb (KeyEvent.code e) "Escape"); [auto|].
  destruct (shortcutDigit (KeyEvent.code e)) as [digit|] eqn:Hd; [|auto].
  destruct (negb (KeyEvent.ctrlKey e) && negb (KeyEvent.metaKey e)
            && negb (KeyEvent.altKey e)); [|auto].
  destruct (Nat.ltb (digit - 1)
              (length (exampleKeys (customExample (app ui))))); [|auto].
  destruct (nth_error (exampleKeys (customExample (app ui))) (digit - 1))
    as [key|] eqn:Hkey; [|auto].
  cbn [fst snd]. split; [reflexivity|].
  split.
  { unfold selectExample, selectedSteps. cbn. lia. }
  unfold selectExample. cbn [app selectedExample]. intros ->.
  exfalso. rewrite exampleKeys_static in Hkey.
  unfold shortcutDigit in Hd.
  repeat match type of Hd with
         | (if ?b then _ else _) = _ => destruct b
         end;
    inversion Hd; subst digit; discriminate Hkey.
Qed.

Lemma shortcuts_keep_the_step_in_range_witness :
  let ui := mkUI initialApp 1000%Z false in
  let e := KeyEvent.mk "Digit3" false false false false false in
  currentStep (model (app ui)) <= length (selectedSteps (app ui)) /\
  snd (handleKeyDown 7%N ui e) = false /\
  selectedExample (app (fst (handleKeyDown 7%N ui e))) = advanced.
Proof.
  cbv zeta.
  assert (H : currentStep (model (app (mkUI initialApp 1000%Z false)))
              <= length (selectedSteps (app (mkUI initialApp 1000%Z false))))
    by (vm_compute; lia).
  split; [exact H|].
  destruct (shortcuts_keep_the_step_in_range 7%N
              (mkUI initialApp 1000%Z false)
              (KeyEvent.mk "Digit3" false false false false false) H)
    as (H1 & _ & _).
  split; [exact H1|]. vm_compute. reflexivity.
Defined.

(** ** Running the text of the editor *)

Lemma blank_text_compiles_to_nothing (code : string) :
  JS.trim code = EmptyString -> compileSteps code = [].
Proof.
  intros H. unfold compileSteps. rewrite H. vm_compute. reflexivity.
Qed.

(** X21.  When the text of the editor compiles to at least one step, Run
    installs it: the error is cleared, the custom example holds the text as
    entered with the compiled steps, it is selected and offered by the
    selector, the model is reset to the state of the first render, and the
    editor gives way to the presets. *)
Theorem runCustomCode_installs_the_example (app : AppState) :
  compileSteps (customCode app) <> [] ->
  codeError (runCustomCode app) = EmptyString /\
  code (customExample (runCustomCode app)) = customCode app /\
  selectedExample (runCustomCode app) = custom /\
  selectedSteps (runCustomCode app) = compileSteps (customCode app) /\
  In custom (exampleKeys (customExample (runCustomCode app))) /\
  model (runCustomCode app) = initialState /\
  mode (runCustomCode app) = preset.
Proof.
  intros Hsteps. unfold runCustomCode.
  destruct (JS.isEmpty (JS.trim (customCode app))) eqn:Hblank.
  { destruct (JS.trim (customCode app)) eqn:Ht; [|discriminate].
    elim Hsteps. apply blank_text_compiles_to_nothing. exact Ht. }
  unfold parseCustomCode.
  destruct (compileSteps (customCode app)) as [|s l] eqn:Hc;
    [contradiction|].
  cbn [codeError customExample selectedExample model mode code].
  split; [reflexivity|]. split; [reflexivity|]. split; [reflexivity|].
  split.
  { unfold selectedSteps. cbn [customExample selectedExample].
    reflexivity. }
  split.
  { rewrite exampleKeys_static. cbn [steps length Nat.ltb Nat.leb].
    apply in_or_app. right. left. reflexivity. }
  split; reflexivity.
Qed.

Lemma runCustomCode_installs_the_example_witness :
  let app := mkApp initialState basic customMode Examples.basic_code
                   EmptyString emptyCustomExample in
  compileSteps (customCode app) <> [] /\
  codeError (runCustomCode app) = EmptyString /\
  selectedExample (runCustomCode app) = custom.
Proof.
  cbv zeta.
  assert (H : compileSteps
                (customCode (mkApp initialState basic customMode
                                   Examples.basic_code EmptyString
                                   emptyCustomExample)) <> [])
    by (vm_compute; discriminate).
  split; [exact H|].
  destruct (runCustomCode_installs_the_example _ H) as (H1 & _ & H3 & _).
  split; [exact H1|exact H3].
Defined.

(** ** What the console shows is never empty *)

Lemma rep_continues {A : Type} (p : ascii -> bool)
      (k : string -> string -> option A) :
  forall s taken r,
    Regex.rep p k taken s = Some r ->
    exists taken' rest, k taken' rest = Some r.
Proof.
  induction s as [|c s IH]; intros taken r H; cbn [Regex.rep] in H.
  - eauto.
  - destruct (p c); [|eauto].
    destruct (Regex.rep p k (taken ++ JS.chr c) s) as [r'|] eqn:E.
    + inversion H; subst. eapply IH. exact E.
    + eauto.
Qed.

(** The group of a match is the one given or, when the pattern sets it, a
    run of at least one character. *)
Lemma matchHere_capture (r : Regex.pattern) :
  forall cap s g,
    Regex.matchHere r cap s = Some (Some g) ->
    cap = Some g \/ JS.isEmpty g = false.
Proof.
  induction r as [|i r IH]; intros cap s g H; cbn [Regex.matchHere] in H.
  - left. congruence.
  - destruct i as [p|p|p|p].
    + destruct s as [|c s]; [discriminate|].
      destruct (p c); [|discriminate]. eapply IH. exact H.
    + apply rep_continues in H. destruct H as (taken & rest & H).
      eapply IH. exact H.
    + apply rep_continues in H. destruct H as (taken & rest & H).
      destruct (JS.isEmpty taken); [discriminate|]. eapply IH. exact H.
    + apply rep_continues in H. destruct H as (taken & rest & H).
      destruct (JS.isEmpty taken) eqn:E; [discriminate|].
      destruct (IH _ _ _ H) as [Hc|Hg]; [|right; exact Hg].
      right. inversion Hc; subst. exact E.
Qed.

Lemma group1_not_empty (r : Regex.pattern) (s g : string) :
  Regex.group1 r s = Some g -> JS.isEmpty g = false.
Proof.
  unfold Regex.group1.
  destruct (Regex.search r s) as [[g'|]|] eqn:E; try discriminate.
  intros H. inversion H; subst. clear H.
  induction s as [|c s IH]; cbn [Regex.search] in E.
  - destruct (Regex.matchHere r None EmptyString) as [cap|] eqn:M;
      [|discriminate].
    inversion E; subst.
    destruct (matchHere_capture _ _ _ _ M) as [H|H]; [discriminate|exact H].
  - destruct (Regex.matchHere r None (String c s)) as [cap|] eqn:M.
    + inversion E; subst.
      destruct (matchHere_capture _ _ _ _ M) as [H|H]; [discriminate|exact H].
    + apply IH. exact E.
Qed.

Lemma isEmpty_append_l (a b : string) :
  JS.isEmpty a = false -> JS.isEmpty (a ++ b) = false.
Proof. destruct a; [discriminate|reflexivity]. Qed.

Lemma extractLogMessage_not_empty (l : string) :
  JS.isEmpty (extractLogMessage l) = false.
Proof.
  unfold extractLogMessage.
  destruct (Regex.group1 Regex.simpleLog l) as [m|] eqn:E1.
  { exact (group1_not_empty _ _ _ E1). }
  destruct (Regex.group1 Regex.mixedLog l) as [m|] eqn:E2.
  { apply isEmpty_append_l. exact (group1_not_empty _ _ _ E2). }
  destruct (Regex.group1 Regex.errorLog l) as [m|]; reflexivity.
Qed.

Lemma spoken_logStep (m x : string) :
  JS.isEmpty m = false -> spokenStep (logStep m x).
Proof. intros H _. simpl. rewrite H. reflexivity. Qed.

Ltac not_a_log := intros Hlog; discriminate Hlog.

Lemma spoken_logLineSteps (t : string) (n : nat) :
  Forall spokenStep (logLineSteps t n).
Proof.
  unfold logLineSteps. constructor; [not_a_log|].
  constructor; [apply spoken_logStep, extractLogMessage_not_empty|].
  constructor; [not_a_log|constructor].
Qed.

Lemma spoken_timeoutLineSteps (d : N) (c : string) (n : nat) :
  Forall spokenStep (timeoutLineSteps d c n).
Proof. repeat (constructor; [not_a_log|]). constructor. Qed.

Lemma spoken_promiseLineSteps (c : string) (n : nat) :
  Forall spokenStep (promiseLineSteps c n).
Proof. repeat (constructor; [not_a_log|]). constructor. Qed.

Lemma spoken_syncLogSteps (l : SyncLog.t) :
  JS.isEmpty (SyncLog.message l) = false ->
  Forall spokenStep (syncLogSteps l).
Proof.
  intros H. unfold syncLogSteps. constructor; [not_a_log|].
  constructor; [apply spoken_logStep; exact H|].
  constructor; [not_a_log|constructor].
Qed.

Lemma spoken_callbackSteps (what done callback : string) (n : nat)
      (messages : list string) :
  spokenAll messages ->
  Forall spokenStep (callbackSteps what done callback n messages).
Proof.
  intros Hm. unfold callbackSteps. destruct messages as [|x ms].
  - repeat (constructor; [not_a_log|]). constructor.
  - apply Forall_flat_map. eapply Forall_impl; [|exact Hm].
    intros m H. simpl in H.
    constructor; [not_a_log|].
    constructor; [apply spoken_logStep; exact H|].
    constructor; [not_a_log|constructor].
Qed.

Lemma scanSpoken_start : scanSpoken Scan.start.
Proof.
  constructor; [constructor | constructor | constructor |].
  intros ac H. discriminate.
Qed.

Lemma pushPending_spoken (st : Scan.t) (ac : ActiveCallback.t) :
  scanSpoken st -> spokenAll (ActiveCallback.messages ac) ->
  scanSpoken (pushPending st ac).
Proof.
  intros [Hs Ht Hm Ha] Hac. unfold pushPending.
  destruct (ActiveCallback.kind ac); constructor; simpl;
    try assumption; apply Forall_push; assumption.
Qed.

Lemma closeCallback_spoken (st : Scan.t) (ac : ActiveCallback.t) :
  scanSpoken st -> spokenAll (ActiveCallback.messages ac) ->
  scanSpoken (closeCallback st ac).
Proof.
  intros Hb Hac.
  destruct (pushPending_spoken st ac Hb Hac) as [Hs Ht Hm Ha].
  unfold closeCallback. constructor; simpl; try assumption.
  intros ac' H. discriminate.
Qed.

Lemma scanBodyLine_spoken (st : Scan.t) (ac : ActiveCallback.t)
      (trimmedLine : string) :
  Scan.activeCallback st = Some ac ->
  scanSpoken st -> scanSpoken (scanBodyLine st ac trimmedLine).
Proof.
  intros Hac Hb. pose proof (spoken_active st Hb ac Hac) as Hmsgs.
  assert (Hpushed : spokenAll (push (extractLogMessage trimmedLine)
                                    (ActiveCallback.messages ac))).
  { apply Forall_push; [exact Hmsgs|apply extractLogMessage_not_empty]. }
  unfold scanBodyLine.
  destruct (hasLogCall trimmedLine);
    destruct (Scan.callbackDepth st + JS.countChar trimmedLine "{"
              - JS.countChar trimmedLine "}" <=? 0)%Z;
    try (apply closeCallback_spoken; [exact Hb | assumption]);
    destruct Hb as [Hs Ht Hm Ha]; constructor; simpl; try assumption;
    intros ac' H; inversion H; subst; assumption.
Qed.

Lemma register_spoken (k : ActiveCallback.kind_t) (st : Scan.t)
      (newSteps : list Step) (trimmedLine : string) (lineNum : nat)
      (delay : N) (callback : string) (callbackMatch : option string) :
  scanSpoken st ->
  Forall spokenStep newSteps ->
  (forall m, callbackMatch = Some m -> JS.isEmpty m = false) ->
  scanSpoken (register k st newSteps trimmedLine lineNum delay callback
                       callbackMatch).
Proof.
  intros [Hs Ht Hm Ha] Hnew Hmatch.
  assert (Hb1 : scanSpoken
                  (Scan.mk (Scan.steps st ++ newSteps)%list
                           (Scan.pendingTasks st) (Scan.pendingMicrotasks st)
                           (Scan.activeCallback st) (Scan.callbackDepth st))).
  { constructor; simpl; try assumption.
    apply Forall_app. split; assumption. }
  assert (Hmsgs : spokenAll match callbackMatch with
                            | Some m => [m]
                            | None => []
                            end).
  { destruct callbackMatch as [m|]; [|constructor].
    constructor; [apply Hmatch; reflexivity|constructor]. }
  unfold register.
  destruct (JS.includes "{" trimmedLine).
  - destruct (JS.countChar trimmedLine "{" - JS.countChar trimmedLine "}"
              <=? 0)%Z.
    + apply closeCallback_spoken; [exact Hb1 | exact Hmsgs].
    + destruct Hb1 as [Hs1 Ht1 Hm1 Ha1]. constructor; simpl; try assumption.
      intros ac' H. inversion H; subst. exact Hmsgs.
  - apply pushPending_spoken; [exact Hb1 | exact Hmsgs].
Qed.

Lemma scanTopLine_spoken (st : Scan.t) (trimmedLine : string) (n : nat) :
  scanSpoken st -> scanSpoken (scanTopLine st trimmedLine n).
Proof.
  intros Hb. unfold scanTopLine.
  destruct (JS.isEmpty trimmedLine || JS.startsWith "//" trimmedLine);
    [exact Hb|].
  destruct (hasLogCall trimmedLine).
  { destruct Hb as [Hs Ht Hm Ha]. constructor; simpl; try assumption.
    apply Forall_app. split; [exact Hs|apply spoken_logLineSteps]. }
  destruct (JS.includes "setTimeout" trimmedLine).
  { apply register_spoken; [exact Hb|apply spoken_timeoutLineSteps|].
    intros m H. exact (group1_not_empty _ _ _ H). }
  destruct (JS.includes "Promise.resolve()" trimmedLine
            && JS.includes ".then" trimmedLine); [|exact Hb].
  apply register_spoken; [exact Hb|apply spoken_promiseLineSteps|].
  intros m H. exact (group1_not_empty _ _ _ H).
Qed.

Lemma scanLines_spoken (lines : list string) :
  forall n st, scanSpoken st -> scanSpoken (scanLines lines n st).
Proof.
  induction lines as [|l lines IH]; intros n st Hb; [exact Hb|].
  cbn [scanLines]. apply IH. unfold scanLine.
  destruct (Scan.activeCallback st) as [ac|] eqn:Hac.
  - apply scanBodyLine_spoken; assumption.
  - apply scanTopLine_spoken; assumption.
Qed.

Lemma collectSyncLogs_spoken (lines : list string) :
  forall index,
    Forall (fun l => JS.isEmpty (SyncLog.message l) = false)
           (collectSyncLogs lines index).
Proof.
  induction lines as [|l lines IH]; intros index; [constructor|].
  cbn [collectSyncLogs].
  destruct (JS.startsWith "console.log" (JS.trim l)
            && negb (JS.includes ".then" (JS.trim l))
            && negb (JS.includes "=>" (JS.trim l))); [|apply IH].
  constructor; [apply extractLogMessage_not_empty|apply IH].
Qed.

Lemma compiled_steps_spoken (code : string) :
  Forall spokenStep (compileSteps code).
Proof.
  destruct (hasFetch code) eqn:Hf.
  - rewrite (compileSteps_fetch code Hf). unfold fetchSteps.
    apply Forall_app. split; [repeat (constructor; [not_a_log|]); constructor|].
    apply Forall_app. split.
    + apply Forall_flat_map.
      eapply Forall_impl; [|apply collectSyncLogs_spoken].
      intros l H. apply spoken_syncLogSteps. exact H.
    + repeat (constructor; [first [not_a_log | intros _; reflexivity]|]).
      constructor.
  - rewrite (compileSteps_lineScan code Hf).
    destruct (scanLines_spoken (JS.split JS.nl (JS.trim code)) 0 Scan.start
                scanSpoken_start) as [Hs Ht Hm _].
    fold (scanOf code) in Hs, Ht, Hm.
    apply Forall_app. split; [exact Hs|].
    apply Forall_app. split.
    + unfold microtaskPhase.
      destruct (Scan.pendingMicrotasks (scanOf code)) as [|t pm] eqn:E;
        [constructor|].
      constructor; [not_a_log|]. constructor; [not_a_log|].
      apply Forall_flat_map.
      eapply Forall_impl; [|exact Hm].
      intros u Hu. apply spoken_callbackSteps. exact Hu.
    + unfold taskPhase. apply Forall_flat_map.
      assert (Hsorted : Forall (fun t => spokenAll (Task.messages t))
                               (sortTasks (Scan.pendingTasks (scanOf code)))).
      { eapply Permutation_Forall; [|exact Ht].
        apply Permutation_sym, sortTasks_perm. }
      eapply Forall_impl; [|exact Hsorted].
      intros u Hu. unfold taskSteps.
      constructor; [not_a_log|]. constructor; [not_a_log|].
      apply spoken_callbackSteps. exact Hu.
Qed.

(** X22.  Whatever the text and wherever a jump into its compiled example
    stops, no entry of the console is missing or empty: the message of a
    logging line is a quoted text of at least one character, or one of the
    placeholders. *)
Theorem console_entries_are_never_empty
        (code : string) (rendered : ModelState) (k : nat) :
  Forall (fun entry => JS.truthy entry = true)
         (logs (stateOf (goToStep rendered (compileSteps code) k))).
Proof.
  destruct (goToStep_shows rendered (compileSteps code) k) as [Hlogs _].
  rewrite Hlogs. apply Forall_map.
  pose proof (compiled_steps_spoken code) as Hall.
  assert (Hfirst : Forall spokenStep (firstn k (compileSteps code))).
  { rewrite <- (firstn_skipn k (compileSteps code)) in Hall.
    apply Forall_app in Hall. exact (proj1 Hall). }
  unfold stepsOf. apply Forall_forall. intros s Hin.
  apply filter_In in Hin. destruct Hin as [Hin Hlog].
  rewrite Forall_forall in Hfirst. exact (Hfirst s Hin Hlog).
Qed.

(** ** Stepping back *)

Lemma run_frame (r : ModelState) (l : list Step) :
  forall p,
    isRunning (run r l p) = isRunning p /\
    currentStep (run r l p) = currentStep p /\
    elapsedTime (run r l p) = elapsedTime p /\
    startTimeRef (run r l p) = startTimeRef p.
Proof.
  induction l as [|s l IH]; intros p; [repeat split|].
  rewrite run_cons.
  destruct (IH (executeStep r s p)) as (A1 & A2 & A3 & A4).
  destruct (executeStep_frame r s p) as (B1 & B2 & B3 & B4).
  repeat split; congruence.
Qed.

(** X23.  Prev at a step within the example completes: it replays the steps
    before the previous one from the reset state, in the closure of the
    render, and moves one step back; the run is stopped and the clock is
    cleared, its start time forgotten.  At step 0 it does nothing. *)
Theorem prevStep_replays_the_steps_before
        (s : ModelState) (all : list Step) :
  currentStep s <= length all ->
  (currentStep s = 0 -> prevStep s all = Normal s) /\
  (0 < currentStep s ->
   exists s',
     prevStep s all = Normal s' /\
     currentStep s' = currentStep s - 1 /\
     sameModel s' (run s (firstn (currentStep s - 1) all) initialState) /\
     isRunning s' = false /\
     elapsedTime s' = 0%N /\
     startTimeRef s' = None).
Proof.
  intros Hle. unfold prevStep. split; intros Hpos.
  - rewrite Hpos. reflexivity.
  - replace (Nat.ltb 0 (currentStep s)) with true
      by (symmetry; apply Nat.ltb_lt; exact Hpos).
    rewrite reset_is_initial, replayLoop_run by lia.
    eexists. split; [reflexivity|].
    destruct (run_frame s (firstn (currentStep s - 1) all) initialState)
      as (A1 & A2 & A3 & A4).
    split; [reflexivity|]. split; [repeat split|].
    unfold setCurrentStep. cbn [isRunning elapsedTime startTimeRef skipn].
    rewrite A1, A3, A4. repeat split.
Qed.

Lemma prevStep_replays_the_steps_before_witness :
  let s := setCurrentStep initialState (fun _ => 5) in
  currentStep s <= length Examples.basic_steps /\
  0 < currentStep s /\
  exists s',
    prevStep s Examples.basic_steps = Normal s' /\
    currentStep s' = 4 /\
    logs s' = [Some "Start"].
Proof.
  cbv zeta.
  assert (Hle : currentStep (setCurrentStep initialState (fun _ => 5))
                <= length Examples.basic_steps) by (vm_compute; lia).
  assert (Hpos : 0 < currentStep (setCurrentStep initialState (fun _ => 5)))
    by (vm_compute; lia).
  split; [exact Hle|]. split; [exact Hpos|].
  destruct (prevStep_replays_the_steps_before _ _ Hle) as [_ H].
  destruct (H Hpos) as (s' & H1 & H2 & H3 & _).
  exists s'. split; [exact H1|]. split; [exact H2|].
  destruct H3 as (_ & _ & _ & _ & Hlogs & _).
  rewrite Hlogs. vm_compute. reflexivity.
Defined.

(** ** The authored examples on the code panel *)

Lemma authored_lines_within_code (key : ExampleKey) :
  linesWithinCode (allExamples emptyCustomExample key) = true.
Proof. destruct key; vm_compute; reflexivity. Qed.

(** X24.  For each of the authored examples, wherever a jump stops, the
    line it leaves highlighted is a row of the code panel of that example:
    exactly that row is highlighted. *)
Theorem authored_highlight_is_a_row
        (key : ExampleKey) (rendered : ModelState) (k h : nat) :
  let ex := allExamples emptyCustomExample key in
  highlightedLine (stateOf (goToStep rendered (steps ex) k)) = Some h ->
  map Row.lineNumber
      (filter Row.isHighlighted (renderCodeWithHighlight (Some h) (code ex)))
  = [h].
Proof.
  cbv zeta. intros H.
  destruct (goToStep_highlight _ _ _ _ H) as (s & Hin & Hl).
  pose proof (authored_lines_within_code key) as Hall.
  unfold linesWithinCode in Hall. rewrite forallb_forall in Hall.
  specialize (Hall s Hin). rewrite Hl in Hall.
  unfold renderCodeWithHighlight.
  rewrite (renderRows_highlighted h _ 0).
  change (0 + 1) with 1. cbn [Nat.add]. rewrite Hall. reflexivity.
Qed.

Lemma authored_highlight_is_a_row_witness :
  highlightedLine
    (stateOf (goToStep initialState
                       (steps (allExamples emptyCustomExample promise)) 9))
  = Some 7 /\
  map Row.lineNumber
      (filter Row.isHighlighted
              (renderCodeWithHighlight
                 (Some 7) (code (allExamples emptyCustomExample promise))))
  = [7].
Proof.
  assert (H : highlightedLine
                (stateOf (goToStep initialState
                            (steps (allExamples emptyCustomExample promise))
                            9))
              = Some 7) by (vm_compute; reflexivity).
  split; [exact H|].
  exact (authored_highlight_is_a_row promise initialState 9 7 H).
Defined.

(** X25.  Space pressed at the end of the example, while stopped, starts
    it over: the state is reset, the run starts at step 0 with the start
    time taken, and autoplay then goes through the whole example from the
    state of the first render, ending stopped at the end with the console
    holding the messages of all its [log] steps. *)
Theorem space_at_the_end_plays_again
        (now last : N) (times : list N) (s : ModelState) (all : list Step) :
  isRunning s = false ->
  length all <= currentStep s ->
  length times = length all ->
  startTimeRef (togglePlay now s all) = Some now /\
  exists s',
    autoplayRun (times ++ [last]) (togglePlay now s all) all = Normal s' /\
    isRunning s' = false /\
    currentStep s' = length all /\
    sameModel s' (setHighlightedLine (stepping all initialState) None) /\
    logs s' = map message (stepsOf "log" all).
Proof.
  intros Hstopped Hend Hlen.
  assert (Htoggle : togglePlay now s all
                    = setIsRunning (setStartTimeRef initialState (Some now))
                                   true).
  { unfold togglePlay.
    replace (Nat.leb (length all) (currentStep s)) with true
      by (symmetry; apply Nat.leb_le; exact Hend).
    rewrite Hstopped. reflexivity. }
  rewrite Htoggle. split; [reflexivity|].
  destruct (autoplayRun_to_the_end times last
              (setIsRunning (setStartTimeRef initialState (Some now)) true)
              all eq_refl)
    as (s' & H1 & H2 & H3 & H4 & _); [cbn; lia|].
  exists s'. split; [exact H1|]. split; [exact H2|]. split; [exact H3|].
  cbn [currentStep setIsRunning setStartTimeRef initialState skipn] in H4.
  assert (Hm : sameModel s'
                 (setHighlightedLine (stepping all initialState) None)).
  { eapply sameModel_trans; [exact H4|].
    pose proof (stepping_sameModel all
                  (setIsRunning (setStartTimeRef initialState (Some now)) true)
                  initialState) as Hs.
    destruct Hs as (A1 & A2 & A3 & A4 & A5 & _ & A7 & A8);
      [repeat split|].
    repeat split; assumption. }
  split; [exact Hm|].
  destruct Hm as (_ & _ & _ & _ & Hlogs & _).
  rewrite Hlogs. cbn [setHighlightedLine logs].
  rewrite stepping_logs. reflexivity.
Qed.

Lemma space_at_the_end_plays_again_witness :
  let s := setCurrentStep initialState (fun _ => 14) in
  isRunning s = false /\
  length Examples.basic_steps <= currentStep s /\
  length (repeat 0%N 14) = length Examples.basic_steps /\
  exists s',
    autoplayRun (repeat 0%N 14 ++ [0%N]) (togglePlay 9%N s Examples.basic_steps)
                Examples.basic_steps = Normal s' /\
    logs s' = [Some "Start"; Some "End"; Some "Timeout"].
Proof.
  cbv zeta.
  assert (Hr : isRunning (setCurrentStep initialState (fun _ => 14)) = false)
    by reflexivity.
  assert (He : length Examples.basic_steps
               <= currentStep (setCurrentStep initialState (fun _ => 14)))
    by (vm_compute; lia).
  assert (Hl : length (repeat 0%N 14) = length Examples.basic_steps)
    by (vm_compute; reflexivity).
  split; [exact Hr|]. split; [exact He|]. split; [exact Hl|].
  destruct (space_at_the_end_plays_again 9%N 0%N (repeat 0%N 14) _
              Examples.basic_steps Hr He Hl)
    as (_ & s' & H1 & _ & _ & _ & H5).
  exists s'. split; [exact H1|].
  rewrite H5. vm_compute. reflexivity.
Defined.
